(** * Autonomous agent core: goals, tasks, the agent state machine and the
    orchestrator of [autonomous_agent_framework.py].

    The Python objects are embedded as records, the dictionaries as finite
    maps, the exceptions as an explicit result type, and the mutable agent
    objects shared by the orchestrator's registry and pools as references
    into an object store.

    - A coroutine is embedded as the function it computes between two
      suspension points; none of the methods below suspends, except that
      [asyncio.create_task] schedules a loop that starts later, which is
      only recorded.
    - The clock is read by the caller: a method that calls
      [datetime.now()] takes the reading as its argument [now].
    - The identifiers that [uuid.uuid4()] draws are given by a function of
      the number of the draw.
    - The insertion order of a dictionary is not kept: no method below
      depends on it.
    - Numbers are exact: a [float] is embedded as the rational it denotes
      and the arithmetic on floats as the arithmetic on rationals, without
      the rounding of binary64.
    - A [datetime] is a number of microseconds in the range that Python
      gives it, from [datetime.min] to [datetime.max].
    - The attributes that [initialize] creates are optional in the record
      of an agent: reading one on an object that does not have it raises
      [AttributeError].
    - A turn of the loop of [run] is one step on the store of the agent
      objects; what other coroutines do while the turn is suspended is
      not part of it. *)

From Stdlib Require Import ZArith QArith Qcanon String Ascii List.
From Stdlib Require Import DecimalString DecimalNat Lqa.
From Stdlib Require Import PrimFloat.
From stdpp Require Import base numbers option list sorting gmap strings fin_maps.

Local Open Scope string_scope.
Local Open Scope list_scope.
Local Open Scope Z_scope.

(** ** Python values

    The dictionaries of the program are typed [Dict[str, Any]].  The values
    that the program itself stores in them are [None], booleans, numbers,
    strings, and flat dictionaries of those (task parameters, task results,
    the error histogram).  An [int] or a finite [float] is embedded as the
    rational it denotes ([Qc], rationals in lowest terms, so that [=] is
    numeric equality as Python's [==] is between [int] and [float]). *)

Inductive atom : Type :=
| ANone
| ABool (b : bool)
| ANum (q : Qc)
| AStr (s : string).

Inductive value : Type :=
| VAtom (a : atom)
| VDict (d : gmap string atom).

Coercion VAtom : atom >-> value.

#[global] Instance atom_eq_dec : EqDecision atom.
Proof. solve_decision. Defined.

#[global] Instance value_eq_dec : EqDecision value.
Proof. solve_decision. Defined.

(** Decimal literals of the source, [num n d] being [n/d]. *)
Definition num (n : Z) (d : positive) : Qc := Q2Qc (n # d).

Definition bool_num (b : bool) : Qc := if b then 1%Qc else 0%Qc.

(** [isinstance(v, (int, float))], with the number when it holds.  [bool]
    is a subclass of [int] in Python. *)
Definition as_number (v : value) : option Qc :=
  match v with
  | VAtom (ABool b) => Some (bool_num b)
  | VAtom (ANum q) => Some q
  | _ => None
  end.

Definition isinstance_number (v : value) : bool :=
  match as_number v with Some _ => true | None => false end.

(** Python's [==] identifies [True] with [1] and [False] with [0], also
    inside dictionaries. *)
Definition norm_atom (a : atom) : atom :=
  match a with
  | ABool b => ANum (bool_num b)
  | _ => a
  end.

Definition norm_value (v : value) : value :=
  match v with
  | VAtom a => VAtom (norm_atom a)
  | VDict d => VDict (norm_atom <$> d)
  end.

Definition py_eq (v w : value) : bool :=
  bool_decide (norm_value v = norm_value w).

(** The exceptions the modelled code can raise. *)
Inductive exn : Type :=
| TypeError
| KeyError (key : string)
| IndexError
| ZeroDivisionError
| AttributeError (name : string)
| OverflowError.

#[global] Instance exn_eq_dec : EqDecision exn.
Proof. solve_decision. Defined.

(** How a call that mutates an object of type [S] ends: it returns, or it
    raises an exception; either way the object is left as the call made
    it. *)
Inductive outcome (S : Type) : Type :=
| Returned (s : S)
| Raised (e : exn) (s : S).

Arguments Returned {S} s.
Arguments Raised {S} e s.

(** [min(a, b)] of Python: [b] when [b < a], otherwise [a]. *)
Definition py_min (a b : Qc) : Qc :=
  if bool_decide (b < a)%Qc then b else a.

(** [a >= b] on values: defined between numbers, [TypeError] between a
    number and a value that is not one (the only uses in the program have a
    number on the right). *)
Definition py_ge_number (v : value) (target : Qc) : exn + bool :=
  match as_number v with
  | Some q => inr (bool_decide (target ≤ q)%Qc)
  | None => inl TypeError
  end.

(** [a / b] for two non-negative integers, Python's true division. *)
Definition ratio (a b : nat) : Qc :=
  (Q2Qc (inject_Z (Z.of_nat a)) / Q2Qc (inject_Z (Z.of_nat b)))%Qc.

(** ** Enumerations *)

Inductive AgentState : Type :=
| INITIALIZING | IDLE | PLANNING | EXECUTING | LEARNING | COLLABORATING
| PAUSED | ERROR.

#[global] Instance AgentState_eq_dec : EqDecision AgentState.
Proof. solve_decision. Defined.

Definition state_value (s : AgentState) : string :=
  match s with
  | INITIALIZING => "initializing"
  | IDLE => "idle"
  | PLANNING => "planning"
  | EXECUTING => "executing"
  | LEARNING => "learning"
  | COLLABORATING => "collaborating"
  | PAUSED => "paused"
  | ERROR => "error"
  end.

Inductive AgentPriority : Type :=
| CRITICAL | HIGH | NORMAL | LOW | BACKGROUND.

#[global] Instance AgentPriority_eq_dec : EqDecision AgentPriority.
Proof. solve_decision. Defined.

Definition priority_value (p : AgentPriority) : Z :=
  match p with
  | CRITICAL => 1
  | HIGH => 2
  | NORMAL => 3
  | LOW => 4
  | BACKGROUND => 5
  end.

(** ** Time

    A (naive) [datetime] is embedded as the number of microseconds since
    [datetime.min], which is 0001-01-01T00:00:00; the last one there is,
    [datetime.max], is 9999-12-31T23:59:59.999999. *)
Definition last_microsecond : Z := 315537897599999999.

Record datetime : Type := mkDatetime {
  microseconds : Z;
  datetime_range :
    Is_true (bool_decide (0 ≤ microseconds ≤ last_microsecond));
}.

Coercion microseconds : datetime >-> Z.

Definition datetime_min : datetime := mkDatetime 0 I.

Definition datetime_max : datetime := mkDatetime last_microsecond I.

#[global] Instance datetime_eq_dec : EqDecision datetime.
Proof.
  intros [d1 H1] [d2 H2]. destruct (decide (d1 = d2)) as [Heq|Hne].
  - left. subst d2. f_equal. apply proof_irrel.
  - right. intros [= Heq]. by apply Hne.
Defined.

(** ** Goals *)

Module AgentGoal.

Record t : Type := mk {
  id : string;
  description : string;
  success_criteria : gmap string value;
  deadline : option datetime;
  priority : AgentPriority;
  progress : Qc;
  completed : bool;
}.

(** One turn of the loop of [evaluate_progress]: whether [criterion] with
    its [target] is met by [metrics]. *)
Definition criterion_met (metrics : gmap string value)
    (criterion : string) (target : value) : exn + bool :=
  match metrics !! criterion with
  | None => inr false
  | Some m =>
      match as_number target with
      | Some t => py_ge_number m t
      | None => inr (py_eq m target)
      end
  end.

(** The loop over [success_criteria.items()], counting in [met_criteria].
    The dictionary is a finite map: the order of its items is not kept, and
    neither the count nor whether an exception is raised depends on it. *)
Fixpoint count_met (metrics : gmap string value)
    (items : list (string * value)) (met_criteria : nat) : exn + nat :=
  match items with
  | [] => inr met_criteria
  | (criterion, target) :: rest =>
      match criterion_met metrics criterion target with
      | inl e => inl e
      | inr true => count_met metrics rest (S met_criteria)
      | inr false => count_met metrics rest met_criteria
      end
  end.

Definition evaluate_progress (self : t) (metrics : gmap string value)
    : exn + Qc :=
  if decide (success_criteria self = ∅) then inr 0%Qc
  else
    match count_met metrics (map_to_list (success_criteria self)) 0 with
    | inl e => inl e
    | inr met_criteria =>
        inr (ratio met_criteria (size (success_criteria self)))
    end.

(** [goal.progress = progress] *)
Definition set_progress (progress' : Qc) (goal : t) : t :=
  {| id := id goal; description := description goal;
     success_criteria := success_criteria goal; deadline := deadline goal;
     priority := priority goal; progress := progress';
     completed := completed goal |}.

End AgentGoal.

(** ** Tasks *)

Module AgentTask.

Record t : Type := mk {
  id : string;
  goal_id : string;
  action : string;
  parameters : gmap string atom;
  priority : AgentPriority;
  scheduled_time : option datetime;
  max_retries : Z;
  retry_count : Z;
  completed : bool;
  result : option value;
  error : option string;
}.

(** [task.result = result; task.completed = True] *)
Definition succeed (result' : value) (task : t) : t :=
  {| id := id task; goal_id := goal_id task; action := action task;
     parameters := parameters task; priority := priority task;
     scheduled_time := scheduled_time task; max_retries := max_retries task;
     retry_count := retry_count task; completed := true;
     result := Some result'; error := error task |}.

(** [task.error = str(e); task.retry_count += 1] *)
Definition fail (msg : string) (task : t) : t :=
  {| id := id task; goal_id := goal_id task; action := action task;
     parameters := parameters task; priority := priority task;
     scheduled_time := scheduled_time task; max_retries := max_retries task;
     retry_count := retry_count task + 1; completed := completed task;
     result := result task; error := Some msg |}.

(** The truth value of [task.error]: [None] and the empty string are
    false. *)
Definition error_truthy (task : t) : bool :=
  match error task with
  | None => false
  | Some msg => negb (String.eqb msg "")
  end.

(** The key of [add_task]:
    [(t.priority.value, t.scheduled_time or datetime.max)].  A [datetime]
    is always true, so [or] picks [datetime.max] exactly for [None]. *)
Definition sort_key (task : t) : Z * datetime :=
  (priority_value (priority task),
   match scheduled_time task with Some d => d | None => datetime_max end).

End AgentTask.

(** Python compares tuples lexicographically. *)
Definition key_lt (k1 k2 : Z * datetime) : bool :=
  ((k1.1 <? k2.1)%Z || ((k1.1 =? k2.1)%Z && (k1.2 <? k2.2)%Z))%bool.

(** ** [list.sort(key=...)]

    Python's sort is stable and uses only [<] on the keys.  A stable sort
    has one possible result, so it is embedded as the stable insertion
    sort: [x] goes before the first element whose key is not below its
    own. *)
Section list_sort.
Context {A K : Type} (key : A → K) (lt : K → K → bool).

Fixpoint sort_insert (x : A) (l : list A) : list A :=
  match l with
  | [] => [x]
  | y :: l' =>
      if lt (key y) (key x) then y :: sort_insert x l' else x :: y :: l'
  end.

Fixpoint list_sort (l : list A) : list A :=
  match l with
  | [] => []
  | x :: l' => sort_insert x (list_sort l')
  end.

End list_sort.

(** ** Strings *)

Definition lower_ascii (c : ascii) : ascii :=
  let n := nat_of_ascii c in
  if ((65 <=? n)%nat && (n <=? 90)%nat)%bool then ascii_of_nat (n + 32) else c.

(** [str.lower()], on the ASCII letters.  Of the other characters only
    U+0130 lowers to a string with an ASCII letter in it, and that string
    is "i" followed by a combining dot, so whether the lowered string
    contains the keyword "optimize" is not changed by them. *)
Fixpoint lower (s : string) : string :=
  match s with
  | EmptyString => EmptyString
  | String c s' => String (lower_ascii c) (lower s')
  end.

(** [hay.startswith(prefix)] *)
Fixpoint starts_with (prefix s : string) : bool :=
  match prefix, s with
  | EmptyString, _ => true
  | String c prefix', String d s' => Ascii.eqb c d && starts_with prefix' s'
  | String _ _, EmptyString => false
  end.

(** [needle in hay] for strings: [needle] starts at some position of
    [hay]. *)
Fixpoint contains (needle hay : string) : bool :=
  (starts_with needle hay ||
   match hay with
   | EmptyString => false
   | String _ hay' => contains needle hay'
   end)%bool.

(** [s.split(":")[0]]: the part of [s] before its first colon. *)
Fixpoint before_colon (s : string) : string :=
  match s with
  | EmptyString => EmptyString
  | String c s' =>
      if Ascii.eqb c ":"%char then EmptyString else String c (before_colon s')
  end.

(** [f"{i:03d}"] for [i >= 0]: decimal, padded with zeros to three
    digits. *)
Definition decimal (i : nat) : string :=
  NilEmpty.string_of_uint (Nat.to_uint i).

Definition format_03d (i : nat) : string :=
  let d := decimal i in
  match String.length d with
  | 0%nat => ("000" ++ d)%string
  | 1%nat => ("00" ++ d)%string
  | 2%nat => ("0" ++ d)%string
  | _ => d
  end.

(** ** Agents *)

Module AutonomousAgent.

(** The [metrics] dictionary is created with six keys in [__init__] and is
    only ever written at those keys: it is used as a record. *)
Record Metrics : Type := mkMetrics {
  tasks_completed : Z;
  goals_achieved : Z;
  uptime_hours : Qc;
  decisions_made : Z;
  errors_recovered : Z;
  value_generated : Z;
}.

(** The attributes of an agent object.  [config], [max_autonomous_days],
    [decision_threshold] and [learning_rate] are the attributes that
    [initialize] creates: they are [None] as long as the object does not
    have them, and reading one of them then raises [AttributeError].
    [collaborators] holds the references of the collaborating agents by
    their ids. *)
Record t : Type := mk {
  agent_id : string;
  agent_type : string;
  state : AgentState;
  goals : list AgentGoal.t;
  task_queue : list AgentTask.t;
  completed_tasks : list AgentTask.t;
  learning_memory : gmap string value;
  collaborators : gmap string nat;
  metrics : Metrics;
  is_running : bool;
  start_time : option datetime;
  last_human_interaction : datetime;
  config : option (gmap string Qc);
  max_autonomous_days : option Qc;
  decision_threshold : option Qc;
  learning_rate : option Qc;
}.

(** Assignments to single attributes. *)
Definition set_state (s : AgentState) (a : t) : t :=
  {| agent_id := agent_id a; agent_type := agent_type a; state := s;
     goals := goals a; task_queue := task_queue a;
     completed_tasks := completed_tasks a;
     learning_memory := learning_memory a; collaborators := collaborators a;
     metrics := metrics a; is_running := is_running a;
     start_time := start_time a;
     last_human_interaction := last_human_interaction a; config := config a;
     max_autonomous_days := max_autonomous_days a;
     decision_threshold := decision_threshold a;
     learning_rate := learning_rate a |}.

Definition set_goals (gs : list AgentGoal.t) (a : t) : t :=
  {| agent_id := agent_id a; agent_type := agent_type a; state := state a;
     goals := gs; task_queue := task_queue a;
     completed_tasks := completed_tasks a;
     learning_memory := learning_memory a; collaborators := collaborators a;
     metrics := metrics a; is_running := is_running a;
     start_time := start_time a;
     last_human_interaction := last_human_interaction a; config := config a;
     max_autonomous_days := max_autonomous_days a;
     decision_threshold := decision_threshold a;
     learning_rate := learning_rate a |}.

Definition set_task_queue (q : list AgentTask.t) (a : t) : t :=
  {| agent_id := agent_id a; agent_type := agent_type a; state := state a;
     goals := goals a; task_queue := q;
     completed_tasks := completed_tasks a;
     learning_memory := learning_memory a; collaborators := collaborators a;
     metrics := metrics a; is_running := is_running a;
     start_time := start_time a;
     last_human_interaction := last_human_interaction a; config := config a;
     max_autonomous_days := max_autonomous_days a;
     decision_threshold := decision_threshold a;
     learning_rate := learning_rate a |}.

Definition set_completed_tasks (c : list AgentTask.t) (a : t) : t :=
  {| agent_id := agent_id a; agent_type := agent_type a; state := state a;
     goals := goals a; task_queue := task_queue a;
     completed_tasks := c;
     learning_memory := learning_memory a; collaborators := collaborators a;
     metrics := metrics a; is_running := is_running a;
     start_time := start_time a;
     last_human_interaction := last_human_interaction a; config := config a;
     max_autonomous_days := max_autonomous_days a;
     decision_threshold := decision_threshold a;
     learning_rate := learning_rate a |}.

Definition set_learning_memory (m : gmap string value) (a : t) : t :=
  {| agent_id := agent_id a; agent_type := agent_type a; state := state a;
     goals := goals a; task_queue := task_queue a;
     completed_tasks := completed_tasks a;
     learning_memory := m; collaborators := collaborators a;
     metrics := metrics a; is_running := is_running a;
     start_time := start_time a;
     last_human_interaction := last_human_interaction a; config := config a;
     max_autonomous_days := max_autonomous_days a;
     decision_threshold := decision_threshold a;
     learning_rate := learning_rate a |}.

Definition set_metrics (m : Metrics) (a : t) : t :=
  {| agent_id := agent_id a; agent_type := agent_type a; state := state a;
     goals := goals a; task_queue := task_queue a;
     completed_tasks := completed_tasks a;
     learning_memory := learning_memory a; collaborators := collaborators a;
     metrics := m; is_running := is_running a;
     start_time := start_time a;
     last_human_interaction := last_human_interaction a; config := config a;
     max_autonomous_days := max_autonomous_days a;
     decision_threshold := decision_threshold a;
     learning_rate := learning_rate a |}.

Definition set_is_running (b : bool) (a : t) : t :=
  {| agent_id := agent_id a; agent_type := agent_type a; state := state a;
     goals := goals a; task_queue := task_queue a;
     completed_tasks := completed_tasks a;
     learning_memory := learning_memory a; collaborators := collaborators a;
     metrics := metrics a; is_running := b;
     start_time := start_time a;
     last_human_interaction := last_human_interaction a; config := config a;
     max_autonomous_days := max_autonomous_days a;
     decision_threshold := decision_threshold a;
     learning_rate := learning_rate a |}.

Definition set_decision_threshold (d : Qc) (a : t) : t :=
  {| agent_id := agent_id a; agent_type := agent_type a; state := state a;
     goals := goals a; task_queue := task_queue a;
     completed_tasks := completed_tasks a;
     learning_memory := learning_memory a; collaborators := collaborators a;
     metrics := metrics a; is_running := is_running a;
     start_time := start_time a;
     last_human_interaction := last_human_interaction a; config := config a;
     max_autonomous_days := max_autonomous_days a;
     decision_threshold := Some d;
     learning_rate := learning_rate a |}.

(** [metrics["tasks_completed"] += 1] and [metrics["errors_recovered"] += 1] *)
Definition incr_tasks_completed (m : Metrics) : Metrics :=
  {| tasks_completed := tasks_completed m + 1;
     goals_achieved := goals_achieved m; uptime_hours := uptime_hours m;
     decisions_made := decisions_made m;
     errors_recovered := errors_recovered m;
     value_generated := value_generated m |}.

Definition incr_errors_recovered (m : Metrics) : Metrics :=
  {| tasks_completed := tasks_completed m;
     goals_achieved := goals_achieved m; uptime_hours := uptime_hours m;
     decisions_made := decisions_made m;
     errors_recovered := errors_recovered m + 1;
     value_generated := value_generated m |}.

(** [AutonomousAgent(agent_id, agent_type)], constructed at time [now]. *)
Definition __init__ (agent_id' agent_type' : string) (now : datetime) : t :=
  {| agent_id := agent_id'; agent_type := agent_type';
     state := INITIALIZING; goals := []; task_queue := [];
     completed_tasks := []; learning_memory := ∅; collaborators := ∅;
     metrics := mkMetrics 0 0 0%Qc 0 0 0;
     is_running := false; start_time := None;
     last_human_interaction := now; config := None;
     max_autonomous_days := None; decision_threshold := None;
     learning_rate := None |}.

(** [config.get(key, default)] *)
Definition config_get (cfg : gmap string Qc) (key : string) (default : Qc)
    : Qc :=
  match cfg !! key with Some v => v | None => default end.

Definition initialize (self : t) (cfg : gmap string Qc) (now : datetime) : t :=
  {| agent_id := agent_id self; agent_type := agent_type self;
     state := IDLE;
     goals := goals self; task_queue := task_queue self;
     completed_tasks := completed_tasks self;
     learning_memory := learning_memory self;
     collaborators := collaborators self;
     metrics := metrics self; is_running := is_running self;
     start_time := Some now;
     last_human_interaction := last_human_interaction self;
     config := Some cfg;
     max_autonomous_days :=
       Some (config_get cfg "max_autonomous_days" (num 7 1));
     decision_threshold :=
       Some (config_get cfg "decision_threshold" (num 8 10));
     learning_rate := Some (config_get cfg "learning_rate" (num 1 10)) |}.

(** The action handler [execute_single_task(self, task)], which each agent
    type overrides.  It gives what the call leaves in [self.metrics] (the
    handlers of the repository add to its counters and change no other
    attribute modelled here, nor the task) and how the call ends:
    [inr result] when it returns [result], [inl msg] when it raises an
    exception [e] with [str(e) = msg].  A handler is a function of the
    agent and the task. *)
Class TaskHandler : Type :=
  execute_single_task : t → AgentTask.t → Metrics * (string + value).

(** The handler of the base class. *)
Definition base_handler : TaskHandler :=
  λ self task,
    (metrics self,
     inr (VDict {[ "status" := AStr "completed";
                   "task_id" := AStr (AgentTask.id task) ]})).

(** [uuid4 n] is the [n]-th identifier that [uuid.uuid4()] gives to the
    call. *)
Definition decompose_goal (uuid4 : nat → string) (goal : AgentGoal.t)
    : list AgentTask.t :=
  if contains "optimize" (lower (AgentGoal.description goal)) then
    [ AgentTask.mk (uuid4 0%nat) (AgentGoal.id goal) "analyze_current_state"
        {[ "target" := AStr "performance_metrics" ]} HIGH None 3 0 false
        None None;
      AgentTask.mk (uuid4 1%nat) (AgentGoal.id goal) "identify_bottlenecks"
        {[ "threshold" := ANum (num 7 10) ]} HIGH None 3 0 false None None;
      AgentTask.mk (uuid4 2%nat) (AgentGoal.id goal) "implement_optimizations"
        {[ "auto_approve" := ABool true ]} NORMAL None 3 0 false None None ]
  else [].

Definition add_task (self : t) (task : AgentTask.t) : t :=
  set_task_queue
    (list_sort AgentTask.sort_key key_lt (task_queue self ++ [task])) self.

Definition set_goal (uuid4 : nat → string) (self : t) (goal : AgentGoal.t)
    : t :=
  foldl add_task (set_goals (goals self ++ [goal]) self)
    (decompose_goal uuid4 goal).

Definition should_learn (self : t) : bool :=
  ((length (completed_tasks self) mod 10 =? 0)%nat
   && (0 <? length (completed_tasks self))%nat)%bool.

Definition update_state (self : t) : t :=
  if decide (state self = ERROR) then self
  else if (bool_decide (task_queue self ≠ [])
           && bool_decide (state self = IDLE))%bool
  then set_state PLANNING self
  else if (bool_decide (task_queue self = [])
           && bool_decide (goals self ≠ []))%bool
  then set_state PLANNING self
  else if should_learn self then set_state LEARNING self
  else self.

Definition execute_tasks `{TaskHandler} (self : t) : t :=
  match task_queue self with
  | [] => set_state IDLE self
  | task :: rest =>
      let self := set_task_queue rest self in
      let '(metrics', ending) := execute_single_task self task in
      let self := set_metrics metrics' self in
      match ending with
      | inr result =>
          let task := AgentTask.succeed result task in
          set_metrics (incr_tasks_completed (metrics self))
            (set_completed_tasks (completed_tasks self ++ [task]) self)
      | inl msg =>
          let task := AgentTask.fail msg task in
          if (AgentTask.retry_count task <? AgentTask.max_retries task)%Z
          then add_task self task
          else set_completed_tasks (completed_tasks self ++ [task]) self
      end
  end.

(** The histogram loop of [learn_from_experience]:
    [common_errors[error_type] = common_errors.get(error_type, 0) + 1]. *)
Definition count_error (common_errors : gmap string Z) (task : AgentTask.t)
    : gmap string Z :=
  match AgentTask.error task with
  | Some msg =>
      if AgentTask.error_truthy task then
        let error_type := before_colon msg in
        <[ error_type := default 0 (common_errors !! error_type) + 1 ]>
          common_errors
      else common_errors
  | None => common_errors
  end.

Definition int_atom (n : Z) : atom := ANum (Q2Qc (inject_Z n)).

Definition learn_from_experience (self : t) : outcome t :=
  let self := set_state LEARNING self in
  match completed_tasks self with
  | [] => Raised ZeroDivisionError self
  | _ :: _ =>
      let success_rate :=
        ratio
          (length (filter (λ t, AgentTask.error_truthy t = false)
                     (completed_tasks self)))
          (length (completed_tasks self)) in
      let common_errors := foldl count_error ∅ (completed_tasks self) in
      let memory :=
        <[ "common_errors" := VDict (int_atom <$> common_errors) ]>
          (<[ "success_rate" := VAtom (ANum success_rate) ]>
             (learning_memory self)) in
      let self := set_learning_memory memory self in
      match decision_threshold self with
      | None => Raised (AttributeError "decision_threshold") self
      | Some decision_threshold' =>
          let threshold :=
            if bool_decide (success_rate < num 8 10)%Qc
            then (decision_threshold' * num 9 10)%Qc
            else py_min (num 95 100) (decision_threshold' * num 105 100)%Qc in
          Returned (set_state IDLE (set_decision_threshold threshold self))
      end
  end.

Definition receive_knowledge (self : t) (knowledge : gmap string value) : t :=
  set_learning_memory
    (map_fold
       (λ key value' memory,
          if decide (memory !! key = None) then <[ key := value' ]> memory
          else memory)
       (learning_memory self) knowledge)
    self.

Section clock.
(** [datetime.isoformat] *)
Context (isoformat : datetime → string).

(** [error] is [str(error)], [now] the reading of the clock. *)
Definition recover_from_error (self : t) (error : string) (now : datetime)
    : t :=
  let self := set_metrics (incr_errors_recovered (metrics self)) self in
  let self := set_task_queue [] self in
  let self := set_state IDLE self in
  let self :=
    set_learning_memory
      (<[ "last_error" := VAtom (AStr error) ]> (learning_memory self)) self in
  set_learning_memory
    (<[ "error_timestamp" := VAtom (AStr (isoformat now)) ]>
       (learning_memory self)) self.

Definition int_value (n : Z) : value := VAtom (int_atom n).

Definition get_status (self : t) : gmap string value :=
  {[ "agent_id" := VAtom (AStr (agent_id self));
     "agent_type" := VAtom (AStr (agent_type self));
     "state" := VAtom (AStr (state_value (state self)));
     "goals_active" :=
       int_value
         (Z.of_nat
            (length (filter (λ g, AgentGoal.completed g = false)
                       (goals self))));
     "tasks_pending" := int_value (Z.of_nat (length (task_queue self)));
     "tasks_completed" := int_value (tasks_completed (metrics self));
     "uptime_hours" := VAtom (ANum (uptime_hours (metrics self)));
     "value_generated" := int_value (value_generated (metrics self));
     "last_human_interaction" :=
       VAtom (AStr (isoformat (last_human_interaction self))) ]}.

End clock.

(** *** Planning *)

Definition execute_planning (self : t) : t :=
  if bool_decide (task_queue self ≠ []) then set_state EXECUTING self
  else set_state IDLE self.

(** The [metrics] dictionary, as [evaluate_progress] reads it. *)
Definition metrics_dict (m : Metrics) : gmap string value :=
  {[ "tasks_completed" := int_value (tasks_completed m);
     "goals_achieved" := int_value (goals_achieved m);
     "uptime_hours" := VAtom (ANum (uptime_hours m));
     "decisions_made" := int_value (decisions_made m);
     "errors_recovered" := int_value (errors_recovered m);
     "value_generated" := int_value (value_generated m) ]}.

(** The loop of [plan_next_action] over [self.goals]: [reviewed] are the
    goals the loop has passed, [rest] those to come, and [self.goals] is
    [reviewed ++ rest] throughout.  A goal object belongs to the list of
    one agent.  The identifiers of the new tasks are the next draws of
    [uuid4]. *)
Fixpoint review_goals (uuid4 : nat → string)
    (reviewed rest : list AgentGoal.t) (self : t) : outcome t :=
  match rest with
  | [] => Returned self
  | goal :: rest' =>
      if AgentGoal.completed goal
      then review_goals uuid4 (reviewed ++ [goal]) rest' self
      else
        match AgentGoal.evaluate_progress goal (metrics_dict (metrics self)) with
        | inl e => Raised e self
        | inr progress' =>
            let goal := AgentGoal.set_progress progress' goal in
            let self := set_goals (reviewed ++ goal :: rest') self in
            if bool_decide (progress' < 1)%Qc then
              let new_tasks := decompose_goal uuid4 goal in
              review_goals (λ n, uuid4 (length new_tasks + n)%nat)
                (reviewed ++ [goal]) rest' (foldl add_task self new_tasks)
            else review_goals uuid4 (reviewed ++ [goal]) rest' self
        end
  end.

Definition plan_next_action (uuid4 : nat → string) (self : t) : outcome t :=
  review_goals uuid4 [] (goals self) (set_state PLANNING self).

(** *** Human oversight *)

(** The integer nearest to [x], the even one of two that are equally
    near. *)
Definition round_half_even (x : Qc) : Z :=
  let n := Qnum (this x) in
  let d := Z.pos (Qden (this x)) in
  let below := (n / d)%Z in
  let twice_rest := (2 * (n mod d))%Z in
  if (twice_rest <? d)%Z then below
  else if (d <? twice_rest)%Z then below + 1
  else if Z.even below then below
  else below + 1.

Definition microseconds_per_day : Z := 86400000000.

(** [timedelta(days=days)], in microseconds: rounded to a whole number of
    them, and an [OverflowError] ([None]) beyond 999999999 days either
    way. *)
Definition timedelta_days (days : Qc) : option Z :=
  let microseconds :=
    round_half_even (days * Q2Qc (inject_Z microseconds_per_day))%Qc in
  let whole_days := (microseconds / microseconds_per_day)%Z in
  if ((-999999999 <=? whole_days)%Z && (whole_days <=? 999999999)%Z)%bool
  then Some microseconds
  else None.

(** [now] is the reading of the clock.  No code of the repository sets
    the attribute [last_decision_confidence] or the metric [error_rate]:
    [hasattr] is false, and [metrics.get("error_rate", 0) > 0.1] is
    [0 > 0.1]. *)
Definition should_request_human_input (self : t) (now : datetime)
    : exn + bool :=
  let time_since_human := (now - last_human_interaction self)%Z in
  match max_autonomous_days self with
  | None => inl (AttributeError "max_autonomous_days")
  | Some days =>
      match timedelta_days days with
      | None => inl OverflowError
      | Some limit =>
          if (limit <? time_since_human)%Z then inr true
          else inr false
      end
  end.

Definition set_last_human_interaction (d : datetime) (a : t) : t :=
  {| agent_id := agent_id a; agent_type := agent_type a; state := state a;
     goals := goals a; task_queue := task_queue a;
     completed_tasks := completed_tasks a;
     learning_memory := learning_memory a; collaborators := collaborators a;
     metrics := metrics a; is_running := is_running a;
     start_time := start_time a;
     last_human_interaction := d; config := config a;
     max_autonomous_days := max_autonomous_days a;
     decision_threshold := decision_threshold a;
     learning_rate := learning_rate a |}.

Definition request_human_oversight (self : t) (now : datetime) : t :=
  set_last_human_interaction now (set_state PAUSED self).

(** *** Metrics *)

Definition calculate_value_generated (self : t) : Z :=
  let task_value := (tasks_completed (metrics self) * 100)%Z in
  let goal_value := (goals_achieved (metrics self) * 1000)%Z in
  (task_value + goal_value)%Z.

(** [uptime.total_seconds() / 3600], the time span being in
    microseconds. *)
Definition hours (span : Z) : Qc :=
  (Q2Qc (inject_Z span) / Q2Qc (inject_Z 1000000)
   / Q2Qc (inject_Z 3600))%Qc.

Definition update_metrics (self : t) (now : datetime) : t :=
  let uptime_hours' :=
    match start_time self with
    | Some start => hours (now - start)
    | None => uptime_hours (metrics self)
    end in
  let self :=
    set_metrics
      {| tasks_completed := tasks_completed (metrics self);
         goals_achieved := goals_achieved (metrics self);
         uptime_hours := uptime_hours';
         decisions_made := decisions_made (metrics self);
         errors_recovered := errors_recovered (metrics self);
         value_generated := value_generated (metrics self) |} self in
  set_metrics
    {| tasks_completed := tasks_completed (metrics self);
       goals_achieved := goals_achieved (metrics self);
       uptime_hours := uptime_hours (metrics self);
       decisions_made := decisions_made (metrics self);
       errors_recovered := errors_recovered (metrics self);
       value_generated := calculate_value_generated self |} self.

(** *** Collaboration

    The collaborators of an agent are other agent objects (or the agent
    itself): the methods below work on the store of the agent objects, in
    which [r] is the reference of [self]. *)

(** [v > bound] for a number [bound]. *)
Definition py_gt_number (v : value) (bound : Qc) : exn + bool :=
  match as_number v with
  | Some q => inr (bool_decide (bound < q)%Qc)
  | None => inl TypeError
  end.

(** The loop of [collaborate_with_agents] over the collaborators
    [peers]. *)
Fixpoint share_knowledge (r : nat) (peers : list nat) (objects : list t)
    : outcome (list t) :=
  match peers with
  | [] => Returned objects
  | peer :: peers' =>
      match objects !! r with
      | None => Returned objects
      | Some self =>
          let success_rate :=
            default (int_value 0) (learning_memory self !! "success_rate") in
          match py_gt_number success_rate (num 9 10) with
          | inl e => Raised e objects
          | inr true =>
              share_knowledge r peers'
                (alter (λ agent, receive_knowledge agent (learning_memory self))
                   peer objects)
          | inr false => share_knowledge r peers' objects
          end
      end
  end.

Definition collaborate_with_agents (r : nat) (objects : list t)
    : outcome (list t) :=
  match objects !! r with
  | None => Returned objects
  | Some self => share_knowledge r (map_to_list (collaborators self)).*2 objects
  end.

(** *** The loop of [run]

    One turn of the loop is embedded as one step, without what other
    coroutines do to the store while the turn is suspended (in the action
    handler and in the [sleep] that ends it). *)

(** The readings of the clock in one turn of the loop. *)
Record Readings : Type := mkReadings {
  at_check : datetime;
  at_oversight : datetime;
  at_metrics : datetime;
  at_recovery : datetime;
}.

(** A method of the agent [r], run on the store. *)
Definition on_agent (r : nat) (method : t → outcome t) (objects : list t)
    : outcome (list t) :=
  match objects !! r with
  | None => Returned objects
  | Some self =>
      match method self with
      | Returned self => Returned (<[ r := self ]> objects)
      | Raised e self => Raised e (<[ r := self ]> objects)
      end
  end.

Section run.
(** [datetime.isoformat], and [str(e)] for the exception [e] that the
    loop catches from the agent as it is then. *)
Context `{TaskHandler} (isoformat : datetime → string)
  (str : exn → t → string).

(** The [except] clause of the loop. *)
Definition handle (r : nat) (e : exn) (now : datetime) (objects : list t)
    : list t :=
  alter
    (λ self, recover_from_error isoformat (set_state ERROR self) (str e self) now)
    r objects.

(** One turn of the loop of the agent [r]; [uuid4] gives the identifiers
    drawn in it, [clock] its readings of the clock. *)
Definition run_iteration (uuid4 : nat → string) (clock : Readings) (r : nat)
    (objects : list t) : list t :=
  match objects !! r with
  | None => objects
  | Some self =>
      match should_request_human_input self (at_check clock) with
      | inl e => handle r e (at_recovery clock) objects
      | inr overdue =>
          let self :=
            if overdue then request_human_oversight self (at_oversight clock)
            else self in
          let self := update_state self in
          let objects := <[ r := self ]> objects in
          let acted :=
            match state self with
            | IDLE => on_agent r (plan_next_action uuid4) objects
            | PLANNING =>
                on_agent r (λ self, Returned (execute_planning self)) objects
            | EXECUTING =>
                on_agent r (λ self, Returned (execute_tasks self)) objects
            | LEARNING => on_agent r learn_from_experience objects
            | COLLABORATING => collaborate_with_agents r objects
            | _ => Returned objects
            end in
          match acted with
          | Raised e objects => handle r e (at_recovery clock) objects
          | Returned objects =>
              alter (λ self, update_metrics self (at_metrics clock)) r objects
          end
      end
  end.

(** [n] more turns of the loop, the [i]-th being the next: the loop ends
    when the running flag is found cleared. *)
Fixpoint run_loop (uuid4 : nat → nat → string) (clock : nat → Readings)
    (r : nat) (i n : nat) (objects : list t) : list t :=
  match n with
  | O => objects
  | S n' =>
      match objects !! r with
      | None => objects
      | Some self =>
          if is_running self
          then
            run_loop uuid4 clock r (S i) n'
              (run_iteration (uuid4 i) (clock i) r objects)
          else objects
      end
  end.

(** [run], up to the end of the [n]-th turn of its loop. *)
Definition run (uuid4 : nat → nat → string) (clock : nat → Readings)
    (r : nat) (n : nat) (objects : list t) : list t :=
  run_loop uuid4 clock r 0 n (alter (set_is_running true) r objects).

End run.

End AutonomousAgent.

(** ** The orchestrator *)

Module AgentOrchestrator.

(** What [save_state] writes to the state file of an agent. *)
Record SavedState : Type := mkSaved {
  saved_agent_id : string;
  saved_agent_type : string;
  saved_goals : list (string * string * Qc * bool);
  saved_metrics : AutonomousAgent.Metrics;
  saved_learning_memory : gmap string value;
  last_save : string;
}.

(** The orchestrator and the part of the program state its methods work
    on.  Agents are mutable objects that the registry [agents], the pools
    [agent_pools] and the callers share: they live in the store [objects]
    and are named by their index in it. *)
Record t : Type := mk {
  agents : gmap string nat;
  agent_pools : gmap string (list nat);
  objects : list AutonomousAgent.t;
  files : gmap string SavedState;
  loop_tasks : list nat;
}.

(** [AgentOrchestrator()], in a program that has no agent object yet. *)
Definition __init__ : t := mk ∅ ∅ [] ∅ [].

Definition set_agents (m : gmap string nat) (s : t) : t :=
  mk m (agent_pools s) (objects s) (files s) (loop_tasks s).

Definition set_agent_pools (p : gmap string (list nat)) (s : t) : t :=
  mk (agents s) p (objects s) (files s) (loop_tasks s).

Definition set_objects (o : list AutonomousAgent.t) (s : t) : t :=
  mk (agents s) (agent_pools s) o (files s) (loop_tasks s).

Definition set_files (f : gmap string SavedState) (s : t) : t :=
  mk (agents s) (agent_pools s) (objects s) f (loop_tasks s).

Definition set_loop_tasks (l : list nat) (s : t) : t :=
  mk (agents s) (agent_pools s) (objects s) (files s) l.

(** A new agent object; its reference is the next free index. *)
Definition alloc (a : AutonomousAgent.t) (s : t) : t * nat :=
  (set_objects (objects s ++ [a]) s, length (objects s)).

(** [list.pop()]: the last element and the list without it. *)
Definition pop {A : Type} (l : list A) : option (list A * A) :=
  match reverse l with
  | [] => None
  | x :: l' => Some (reverse l', x)
  end.

Section clock.
Context (isoformat : datetime → string).

Definition state_data (a : AutonomousAgent.t) (now : datetime) : SavedState :=
  {| saved_agent_id := AutonomousAgent.agent_id a;
     saved_agent_type := AutonomousAgent.agent_type a;
     saved_goals :=
       (λ g, (AgentGoal.id g, AgentGoal.description g, AgentGoal.progress g,
              AgentGoal.completed g)) <$> AutonomousAgent.goals a;
     saved_metrics := AutonomousAgent.metrics a;
     saved_learning_memory := AutonomousAgent.learning_memory a;
     last_save := isoformat now |}.

(** [agent.shutdown()] for the agent object [r]: the running flag is
    cleared and the state file is written (the file system is taken to
    accept the write).  A reference always names an object; the [None]
    branch is not reachable. *)
Definition shutdown (r : nat) (now : datetime) (s : t) : t :=
  match objects s !! r with
  | None => s
  | Some a =>
      let a := AutonomousAgent.set_is_running false a in
      let s := set_objects (<[ r := a ]> (objects s)) s in
      set_files
        (<[ ("data/agents/" ++ AutonomousAgent.agent_id a ++ "_state.json")%string
            := state_data a now ]> (files s)) s
  end.

(** [deploy_agent(agent, config)] for the agent object [r].  The call of
    [asyncio.create_task(agent.run())] only schedules the loop: [r] is
    recorded in [loop_tasks]. *)
Definition deploy_agent (r : nat) (cfg : gmap string Qc) (now : datetime)
    (s : t) : t :=
  match objects s !! r with
  | None => s
  | Some a =>
      let a := AutonomousAgent.initialize a cfg now in
      let s := set_objects (<[ r := a ]> (objects s)) s in
      let s :=
        set_agents (<[ AutonomousAgent.agent_id a := r ]> (agents s)) s in
      let pool : list nat :=
        default [] (agent_pools s !! AutonomousAgent.agent_type a) in
      let s :=
        set_agent_pools
          (<[ AutonomousAgent.agent_type a := pool ++ [r] ]> (agent_pools s))
          s in
      set_loop_tasks (loop_tasks s ++ [r]) s
  end.

(** One turn of the loop of [deploy_agent_fleet], for the index [i]. *)
Definition deploy_fleet_member (agent_type : string) (cfg : gmap string Qc)
    (now : datetime) (s : t) (i : nat) : t :=
  let agent_id := (agent_type ++ "_" ++ format_03d i)%string in
  let '(s, r) := alloc (AutonomousAgent.__init__ agent_id agent_type now) s in
  deploy_agent r cfg now s.

(** [for i in range(count)]; the range is empty for [count <= 0]. *)
Definition deploy_agent_fleet (agent_type : string) (count : Z)
    (cfg : gmap string Qc) (now : datetime) (s : t) : t :=
  foldl (deploy_fleet_member agent_type cfg now) s (seq 0 (Z.to_nat count)).

(** [status.get("state") in ["running", "active", "processing"]] *)
Definition status_active (status : gmap string value) : bool :=
  match status !! "state" with
  | Some v =>
      existsb (py_eq v)
        [VAtom (AStr "running"); VAtom (AStr "active");
         VAtom (AStr "processing")]
  | None => false
  end.

Definition agent_active (s : t) (r : nat) : bool :=
  match objects s !! r with
  | Some a => status_active (AutonomousAgent.get_status isoformat a)
  | None => false
  end.

(** The references of the agents that [get_active_agents] returns. *)
Definition get_active_agents (s : t) : list nat :=
  filter (λ r, agent_active s r = true) ((map_to_list (agents s)).*2).

(** The scale-down loop of [scale_fleet], [n] turns of it. *)
Fixpoint scale_down (n : nat) (agent_type : string) (now : datetime) (s : t)
    : outcome t :=
  match n with
  | O => Returned s
  | S n' =>
      match agent_pools s !! agent_type with
      | None => Raised (KeyError agent_type) s
      | Some pool =>
          match pop pool with
          | None => Raised IndexError s
          | Some (pool', r) =>
              let s :=
                set_agent_pools (<[ agent_type := pool' ]> (agent_pools s)) s in
              let s := shutdown r now s in
              match objects s !! r with
              | None => Returned s
              | Some a =>
                  let agent_id := AutonomousAgent.agent_id a in
                  match agents s !! agent_id with
                  | None => Raised (KeyError agent_id) s
                  | Some _ =>
                      scale_down n' agent_type now
                        (set_agents (delete agent_id (agents s)) s)
                  end
              end
          end
      end
  end.

Definition scale_fleet (agent_type : string) (target_count : Z)
    (now : datetime) (s : t) : outcome t :=
  let current_count :=
    Z.of_nat (length (default [] (agent_pools s !! agent_type))) in
  if (current_count <? target_count)%Z then
    Returned
      (deploy_agent_fleet agent_type (target_count - current_count)
         {[ "auto_scale" := 1%Qc ]} now s)
  else if (target_count <? current_count)%Z then
    scale_down (Z.to_nat (current_count - target_count)) agent_type now s
  else Returned s.

(** The references in [self.agents.values()]. *)
Definition registered (s : t) : list nat := (map_to_list (agents s)).*2.

(** The loop of [shutdown_all_agents] over the agents [refs]; [now k] is
    the reading of the clock in the [k]-th turn. *)
Fixpoint shutdown_each (now : nat → datetime) (k : nat) (refs : list nat)
    (s : t) : t :=
  match refs with
  | [] => s
  | r :: refs' => shutdown_each now (S k) refs' (shutdown r (now k) s)
  end.

Definition shutdown_all_agents (now : nat → datetime) (s : t) : t :=
  let s := shutdown_each now 0 (registered s) s in
  set_agent_pools ∅ (set_agents ∅ s).

(** The dictionary that [get_fleet_status] returns. *)
Record FleetStatus : Type := mkFleetStatus {
  total_agents : nat;
  agents_by_type : gmap string nat;
  total_value_generated : Z;
  total_tasks_completed : Z;
  agents_status : list (gmap string value);
}.

(** [sum(...)] over a list of integers. *)
Definition sum (l : list Z) : Z := foldl Z.add 0 l.

Definition get_fleet_status (s : t) : FleetStatus :=
  let values := omap (λ r, objects s !! r) (registered s) in
  {| total_agents := size (agents s);
     agents_by_type := length <$> agent_pools s;
     total_value_generated :=
       sum ((λ agent,
               AutonomousAgent.value_generated (AutonomousAgent.metrics agent))
              <$> values);
     total_tasks_completed :=
       sum ((λ agent,
               AutonomousAgent.tasks_completed (AutonomousAgent.metrics agent))
              <$> values);
     agents_status := AutonomousAgent.get_status isoformat <$> values |}.

End clock.

End AgentOrchestrator.

(** * The vocabulary of the properties *)

Import AutonomousAgent.

(** ** Progress of a goal *)

(** The criterion as the specification words it: the criterion counts as
    met if the corresponding metric is numeric and at least the target, or
    equal to the target for non-numeric values. *)
Definition counts_as_met (metrics : gmap string value) (criterion : string)
    (target : value) : bool :=
  match metrics !! criterion with
  | None => false
  | Some m =>
      match as_number m with
      | Some q =>
          match as_number target with
          | Some t => bool_decide (t ≤ q)%Qc
          | None => false
          end
      | None => py_eq m target
      end
  end.

(** The metric of [criterion], when there is one, can be compared with a
    numeric [target]: it is a number too. *)
Definition comparable (metrics : gmap string value) (criterion : string)
    (target : value) : bool :=
  match metrics !! criterion, as_number target with
  | Some m, Some _ => isinstance_number m
  | _, _ => true
  end.

(** The two, as predicates on the items of the criteria mapping. *)
Definition met_item (metrics : gmap string value) (item : string * value)
    : Prop :=
  counts_as_met metrics item.1 item.2 = true.

Definition comparable_item (metrics : gmap string value) (criterion : string)
    (target : value) : Prop :=
  comparable metrics criterion target = true.

#[global] Instance met_item_dec metrics item : Decision (met_item metrics item).
Proof. unfold met_item. apply _. Defined.

#[global] Instance comparable_item_dec metrics criterion target :
  Decision (comparable_item metrics criterion target).
Proof. unfold comparable_item. apply _. Defined.

(** ** Errors of completed tasks *)

(** The error of the task is unset. *)
Definition error_unset (task : AgentTask.t) : Prop :=
  AgentTask.error task = None.

(** The task has no error description: its error is unset, or it is the
    empty string. *)
Definition no_error_text (task : AgentTask.t) : Prop :=
  AgentTask.error task = None ∨ AgentTask.error task = Some "".

(** The task has an error description, one that is not empty. *)
Definition error_text (task : AgentTask.t) : Prop :=
  match AgentTask.error task with
  | Some msg => msg ≠ ""
  | None => False
  end.

#[global] Instance error_unset_dec task : Decision (error_unset task).
Proof. unfold error_unset. apply _. Defined.

#[global] Instance no_error_text_dec task : Decision (no_error_text task).
Proof. unfold no_error_text. apply _. Defined.

#[global] Instance error_text_dec task : Decision (error_text task).
Proof. unfold error_text. destruct (AgentTask.error task); apply _. Defined.

(** ** The order of the queue *)

(** [x] may stand before [y] in a sorted list: the key of [y] is not below
    that of [x]. *)
Definition not_after {A K : Type} (key : A → K) (lt : K → K → bool) (x y : A)
    : Prop :=
  lt (key y) (key x) = false.

(** [d] is the last instant there is: no [datetime] is after it. *)
Definition last_instant (d : datetime) : Prop :=
  ∀ d' : datetime, d' ≤ d.

(** The order of the queue in the words of the specification: by
    priority, [CRITICAL] first; among equal priorities by scheduled time,
    the earliest first, and a task without scheduled time last.  Such a
    task may stand before a scheduled one only where the two tie, the
    other being scheduled at the last instant there is. *)
Definition time_not_after (s1 s2 : option datetime) : Prop :=
  match s1, s2 with
  | Some d1, Some d2 => d1 ≤ d2
  | Some _, None => True
  | None, Some d2 => last_instant d2
  | None, None => True
  end.

(** [t1] may stand before [t2] in the queue. *)
Definition may_precede (t1 t2 : AgentTask.t) : Prop :=
  priority_value (AgentTask.priority t1) < priority_value (AgentTask.priority t2)
  ∨ (AgentTask.priority t1 = AgentTask.priority t2
     ∧ time_not_after (AgentTask.scheduled_time t1)
         (AgentTask.scheduled_time t2)).

(** ** Repeated execution *)

(** [execute_tasks] run [n] times in a row. *)
Fixpoint execute_tasks_n `{TaskHandler} (n : nat) (self : AutonomousAgent.t)
    : AutonomousAgent.t :=
  match n with
  | O => self
  | S n' => execute_tasks_n n' (execute_tasks self)
  end.

(** Whether the next [execute_tasks] runs the handler on the task [tid]:
    1 if that task is at the head of the queue, 0 otherwise. *)
Definition runs_task (tid : string) (a : AutonomousAgent.t) : nat :=
  match task_queue a with
  | task :: _ => if decide (AgentTask.id task = tid) then 1 else 0
  | [] => 0
  end.

(** How often the handler is run on the task [tid] in the first [n] steps
    of execution. *)
Fixpoint executions `{TaskHandler} (tid : string) (n : nat)
    (a : AutonomousAgent.t) : nat :=
  match n with
  | O => 0
  | S n' => runs_task tid a + executions tid n' (execute_tasks a)
  end.

(** The tasks of a list that have the identifier [tid]. *)
Definition tasks_of (tid : string) (l : list AgentTask.t) : list AgentTask.t :=
  filter (λ t, AgentTask.id t = tid) l.

Arguments tasks_of : simpl never.

(** The task [tid] waits in the queue (once, and not in the completed
    tasks) as [task]. *)
Definition pending (tid : string) (a : AutonomousAgent.t)
    (task : AgentTask.t) : Prop :=
  tasks_of tid (task_queue a) = [task]
  ∧ tasks_of tid (completed_tasks a) = [].

(** The task [tid] has left the queue and stands once, as [task], in the
    completed tasks. *)
Definition settled (tid : string) (a : AutonomousAgent.t)
    (task : AgentTask.t) : Prop :=
  tasks_of tid (task_queue a) = []
  ∧ tasks_of tid (completed_tasks a) = [task].

(** A bound on the executions that a queued task still takes: every
    failure uses one up, a success all. *)
Definition attempts_left (task : AgentTask.t) : nat :=
  Z.to_nat (Z.max 1 (AgentTask.max_retries task - AgentTask.retry_count task)).

(** The same bound for the whole queue. *)
Definition queue_budget (a : AutonomousAgent.t) : nat :=
  sum_list_with attempts_left (task_queue a).

(** ** Goal descriptions *)

(** The character [c] is the letter that is written [small] and
    [capital]. *)
Definition letter (small capital : ascii) (c : ascii) : Prop :=
  c = small ∨ c = capital.

(** [word] spells "optimize", each of its letters in either case. *)
Definition spells_optimize (word : string) : Prop :=
  ∃ c1 c2 c3 c4 c5 c6 c7 c8 : ascii,
    word
    = String c1 (String c2 (String c3 (String c4 (String c5 (String c6
        (String c7 (String c8 EmptyString)))))))
    ∧ letter "o" "O" c1 ∧ letter "p" "P" c2 ∧ letter "t" "T" c3
    ∧ letter "i" "I" c4 ∧ letter "m" "M" c5 ∧ letter "i" "I" c6
    ∧ letter "z" "Z" c7 ∧ letter "e" "E" c8.

(** The description contains the keyword "optimize", in whatever case
    its letters are. *)
Definition mentions_optimize (description : string) : Prop :=
  ∃ pre word post,
    description = (pre ++ word ++ post)%string ∧ spells_optimize word.

(** ** Fleets *)

(** The identifier of the agent object [r]. *)
Definition ident_of (s : AgentOrchestrator.t) (r : nat) : option string :=
  agent_id <$> AgentOrchestrator.objects s !! r.

(** The agent that [deploy_agent_fleet] makes for the index [i]. *)
Definition fleet_member (agent_type : string) (cfg : gmap string Qc)
    (now : datetime) (i : nat) : AutonomousAgent.t :=
  initialize
    (AutonomousAgent.__init__ (agent_type ++ "_" ++ format_03d i)%string
       agent_type now)
    cfg now.

(** ** Execution by the handler of the base class *)

(** What the handler of the base class returns for a task. *)
Definition base_result (task : AgentTask.t) : value :=
  VDict {[ "status" := AStr "completed";
           "task_id" := AStr (AgentTask.id task) ]}.

(** The task as that handler leaves it: completed, with that result. *)
Definition base_done (task : AgentTask.t) : AgentTask.t :=
  AgentTask.mk (AgentTask.id task) (AgentTask.goal_id task)
    (AgentTask.action task) (AgentTask.parameters task)
    (AgentTask.priority task) (AgentTask.scheduled_time task)
    (AgentTask.max_retries task) (AgentTask.retry_count task) true
    (Some (base_result task)) (AgentTask.error task).

(** ** Categories of errors *)

(** [k] is the category of the error description [msg]: what stands
    before the first colon of [msg], all of [msg] when it has no colon. *)
Fixpoint category_of (k msg : string) : bool :=
  match k, msg with
  | EmptyString, EmptyString => true
  | EmptyString, String c _ => Ascii.eqb c ":"
  | String c k', String c' msg' =>
      Ascii.eqb c c' && negb (Ascii.eqb c ":") && category_of k' msg'
  | String _ _, EmptyString => false
  end.

(** The task has an error description, not empty, of the category [k]. *)
Definition has_error_type (k : string) (task : AgentTask.t) : Prop :=
  match AgentTask.error task with
  | Some msg => msg ≠ "" ∧ category_of k msg = true
  | None => False
  end.

#[global] Instance has_error_type_dec k task : Decision (has_error_type k task).
Proof. unfold has_error_type. destruct (AgentTask.error task); apply _. Defined.

(** The number of the tasks with an error of the category [k]. *)
Definition errors_of_type (k : string) (tasks : list AgentTask.t) : nat :=
  length (filter (has_error_type k) tasks).

(** ** Numbers *)

(** A whole number as a Python number. *)
Definition whole (n : Z) : Qc := Q2Qc (inject_Z n).

(** ** Planning *)

(** The progress of a goal on the metrics of an agent: the criteria that
    count as met over the criteria, 0 for a goal without criteria. *)
Definition progress_on (m : Metrics) (goal : AgentGoal.t) : Qc :=
  let criteria := AgentGoal.success_criteria goal in
  if decide (criteria = ∅) then 0%Qc
  else ratio (size (filter (met_item (metrics_dict m)) criteria)) (size criteria).

(** The goal as a review leaves it: a goal that is not completed has its
    progress set. *)
Definition reviewed_goal (m : Metrics) (goal : AgentGoal.t) : AgentGoal.t :=
  if AgentGoal.completed goal then goal
  else
    AgentGoal.mk (AgentGoal.id goal) (AgentGoal.description goal)
      (AgentGoal.success_criteria goal) (AgentGoal.deadline goal)
      (AgentGoal.priority goal) (progress_on m goal) false.

(** A review gives tasks to the goal: it is not completed, its progress
    is below 1 and its description mentions the keyword. *)
Definition wants_tasks (m : Metrics) (goal : AgentGoal.t) : Prop :=
  AgentGoal.completed goal = false
  ∧ (progress_on m goal < 1)%Qc
  ∧ mentions_optimize (AgentGoal.description goal).

(** ** The loop of an agent *)

(** The object as a call left it, however the call ended. *)
Definition after {S : Type} (o : outcome S) : S :=
  match o with
  | Returned s => s
  | Raised _ s => s
  end.

(** [self.learning_memory.get("success_rate", 0)] *)
Definition shared_rate (a : AutonomousAgent.t) : value :=
  default (int_value 0) (learning_memory a !! "success_rate").

(** The references of the collaborators of an agent. *)
Definition peers_of (a : AutonomousAgent.t) : list nat :=
  (map_to_list (collaborators a)).*2.

(** The time span, in microseconds, after which the agent asks for
    oversight, where it has one. *)
Definition oversight_limit (a : AutonomousAgent.t) : option Z :=
  max_autonomous_days a ≫= timedelta_days.

(** The agent has no time span after which it asks for oversight: it was
    not initialised, or the span is beyond the 999999999 days of a
    [timedelta]. *)
Definition without_limit (a : AutonomousAgent.t) : Prop :=
  max_autonomous_days a = None
  ∨ ∃ days : Z,
      max_autonomous_days a = Some (whole days)
      ∧ ¬ (-999999999 ≤ days ≤ 999999999).

(** The number of completed tasks does not call for learning: it is 0 or
    not a multiple of 10. *)
Definition nothing_to_learn (a : AutonomousAgent.t) : Prop :=
  completed_tasks a = [] ∨ (length (completed_tasks a) `mod` 10 ≠ 0)%nat.

(** What the loop of the agent [r] makes of the agent itself: the turns
    of the loop as functions of the agent object alone. *)
Section turn.
Context `{handler : TaskHandler} (isoformat : datetime → string)
  (str : exn → AutonomousAgent.t → string).

(** The agent after the [except] clause of the loop. *)
Definition recovered (e : exn) (clock : Readings) (a : AutonomousAgent.t)
    : AutonomousAgent.t :=
  recover_from_error isoformat (set_state ERROR a) (str e a) (at_recovery clock).

(** The agent at the end of a turn in which its action ended as given. *)
Definition end_of_turn (clock : Readings) (acted : outcome AutonomousAgent.t)
    : AutonomousAgent.t :=
  match acted with
  | Returned a => update_metrics a (at_metrics clock)
  | Raised e a => recovered e clock a
  end.

(** The agent after the oversight check and [update_state]. *)
Definition checked (overdue : bool) (clock : Readings) (a : AutonomousAgent.t)
    : AutonomousAgent.t :=
  update_state
    (if overdue then request_human_oversight a (at_oversight clock) else a).

(** What the action that the loop chooses by the state makes of the agent
    itself. *)
Definition act (uuid4 : nat → string) (a : AutonomousAgent.t)
    : outcome AutonomousAgent.t :=
  match state a with
  | IDLE => plan_next_action uuid4 a
  | PLANNING => Returned (execute_planning a)
  | EXECUTING => Returned (execute_tasks a)
  | LEARNING => learn_from_experience a
  | COLLABORATING =>
      match peers_of a, py_gt_number (shared_rate a) (num 9 10) with
      | _ :: _, inl e => Raised e a
      | _, _ => Returned a
      end
  | _ => Returned a
  end.

(** What one turn of its loop makes of the agent itself. *)
Definition own_turn (uuid4 : nat → string) (clock : Readings)
    (a : AutonomousAgent.t) : AutonomousAgent.t :=
  match should_request_human_input a (at_check clock) with
  | inl e => recovered e clock a
  | inr overdue => end_of_turn clock (act uuid4 (checked overdue clock a))
  end.

(** What [n] more turns make of it, the [i]-th being the next. *)
Fixpoint own_turns (uuid4 : nat → nat → string) (clock : nat → Readings)
    (i n : nat) (a : AutonomousAgent.t) : AutonomousAgent.t :=
  match n with
  | O => a
  | S n' =>
      if is_running a
      then own_turns uuid4 clock (S i) n' (own_turn (uuid4 i) (clock i) a)
      else a
  end.

End turn.

(** ** Identifiers and files *)

(** [int(s)] for a string of decimal digits. *)
Definition parse_index (s : string) : option nat :=
  Nat.of_uint <$> NilEmpty.uint_of_string s.

(** The identifier that [deploy_agent_fleet] gives to the index [i]. *)
Definition fleet_id (agent_type : string) (i : nat) : string :=
  (agent_type ++ "_" ++ format_03d i)%string.

(** The path of the state file of the agent [aid]. *)
Definition state_file (aid : string) : string :=
  ("data/agents/" ++ aid ++ "_state.json")%string.

(** ** Concrete goals, agents and fleets *)

(** A goal with the one criterion [quality >= 1]. *)
Definition quality_goal : AgentGoal.t :=
  AgentGoal.mk "g1" "keep the quality" {[ "quality" := VAtom (ANum (num 1 1)) ]}
    None NORMAL 0%Qc false.

(** Metrics whose [quality] is a string. *)
Definition quality_metrics : gmap string value :=
  {[ "quality" := VAtom (AStr "high") ]}.

(** A handler that fails on every task. *)
Definition always_failing : TaskHandler :=
  λ self _, (metrics self, inl "connection refused").

(** A task as its constructor makes it, but for the given budget. *)
Definition probe_task (max_retries : Z) : AgentTask.t :=
  AgentTask.mk "t1" "" "probe" ∅ NORMAL None max_retries 0 false None None.

(** A new agent with that one task added. *)
Definition probe_agent (max_retries : Z) : AutonomousAgent.t :=
  add_task (AutonomousAgent.__init__ "probe_000" "probe" datetime_min)
    (probe_task max_retries).

(** A completed task, with the error it carries. *)
Definition done_task (ident : string) (error : option string) : AgentTask.t :=
  AgentTask.mk ident "" "probe" ∅ NORMAL None 3 0 true None error.

(** An initialised agent that has completed 10 tasks, 2 of them with an
    error. *)
Definition reviewed_agent : AutonomousAgent.t :=
  set_completed_tasks
    [ done_task "t0" None; done_task "t1" None;
      done_task "t2" (Some "timeout: no answer"); done_task "t3" None;
      done_task "t4" None; done_task "t5" None; done_task "t6" None;
      done_task "t7" (Some "timeout: no answer"); done_task "t8" None;
      done_task "t9" None ]
    (initialize (AutonomousAgent.__init__ "probe_000" "probe" datetime_min) ∅
       datetime_min).

(** An agent object as its constructor makes it, with one completed
    task: [initialize] has not run on it. *)
Definition unprepared_agent : AutonomousAgent.t :=
  set_completed_tasks [done_task "t0" None]
    (AutonomousAgent.__init__ "probe_000" "probe" datetime_min).

(** A handler that fails on every task with an exception whose [str] is
    empty, as that of [Exception()] or of [asyncio.TimeoutError()] is. *)
Definition blank_failing : TaskHandler :=
  λ self _, (metrics self, inl "").

(** Ten new tasks with a budget of one execution. *)
Definition blank_probes : list AgentTask.t :=
  (λ i, AgentTask.mk (decimal i) "" "probe" ∅ NORMAL None 1 0 false None None)
    <$> seq 0 10.

(** An initialised agent after those ten tasks were added and ten steps
    of execution were run with that handler. *)
Definition failed_agent : AutonomousAgent.t :=
  @execute_tasks_n blank_failing 10
    (foldl add_task
       (initialize
          (AutonomousAgent.__init__ "probe_000" "probe" datetime_min) ∅
          datetime_min)
       blank_probes).

(** The goal of the repository's example run, and one that asks for
    the same in other words. *)
Definition wellbeing_goal : AgentGoal.t :=
  AgentGoal.mk "g1" "Optimize company-wide emotional well-being" ∅ None HIGH
    0%Qc false.

Definition improvement_goal : AgentGoal.t :=
  AgentGoal.mk "g2" "Improve company-wide emotional well-being" ∅ None HIGH
    0%Qc false.

(** A new task with the given identifier and priority. *)
Definition plain_task (ident : string) (priority : AgentPriority)
    : AgentTask.t :=
  AgentTask.mk ident "" "probe" ∅ priority None 3 0 false None None.

(** 2024-01-01T00:00:00 and 2025-06-01T00:00:00. *)
Definition new_year_2024 : datetime := mkDatetime 63839664000000000 I.

Definition june_2025 : datetime := mkDatetime 63884332800000000 I.

(** A new task with the given identifier, priority and scheduled time. *)
Definition timed_task (ident : string) (priority : AgentPriority)
    (scheduled_time : option datetime) : AgentTask.t :=
  AgentTask.mk ident "" "probe" ∅ priority scheduled_time 3 0 false None None.

(** Three tasks of priority NORMAL: without scheduled time, scheduled in
    2025 and scheduled in 2024. *)
Definition timed_tasks : list AgentTask.t :=
  [timed_task "t1" NORMAL None; timed_task "t2" NORMAL (Some june_2025);
   timed_task "t3" NORMAL (Some new_year_2024)].

(** Three tasks with the priorities LOW, CRITICAL, NORMAL. *)
Definition three_tasks : list AgentTask.t :=
  [plain_task "t1" LOW; plain_task "t2" CRITICAL; plain_task "t3" NORMAL].

(** A rendering of time stamps for the concrete runs: the seconds since
    [datetime.min], in decimal. *)
Definition seconds_isoformat (d : datetime) : string :=
  decimal (Z.to_nat (d / 1000000)).

(** A fleet of three agents of type "x", as one call of
    [deploy_agent_fleet] makes it. *)
Definition fleet_of_three : AgentOrchestrator.t :=
  AgentOrchestrator.deploy_agent_fleet "x" 3 ∅ datetime_min
    AgentOrchestrator.__init__.

(** The clock of the concrete runs: every reading is [datetime.min]. *)
Definition still_clock : Readings :=
  mkReadings datetime_min datetime_min datetime_min datetime_min.

(** The description of an exception in the concrete runs: the name of its
    class. *)
Definition class_name (e : exn) (a : AutonomousAgent.t) : string :=
  match e with
  | TypeError => "TypeError"
  | KeyError _ => "KeyError"
  | IndexError => "IndexError"
  | ZeroDivisionError => "ZeroDivisionError"
  | AttributeError _ => "AttributeError"
  | OverflowError => "OverflowError"
  end.

(** A deployed agent with the goal of the example run: initialised, its
    three tasks in the queue. *)
Definition working_agent : AutonomousAgent.t :=
  set_goal decimal
    (initialize (AutonomousAgent.__init__ "nias_001" "NIAS" datetime_min) ∅
       datetime_min)
    wellbeing_goal.

(** An initialised agent without goals and tasks. *)
Definition idle_agent : AutonomousAgent.t :=
  initialize (AutonomousAgent.__init__ "nias_002" "NIAS" datetime_min) ∅
    datetime_min.

(** 0001-01-09T00:00:00, eight days after [datetime.min]. *)
Definition eight_days_on : datetime := mkDatetime 691200000000 I.

(** A clock that stands at that time. *)
Definition late_clock : Readings :=
  mkReadings eight_days_on eight_days_on eight_days_on eight_days_on.

(** An agent object as its constructor makes it, with the three tasks:
    [initialize] has not run on it. *)
Definition undeployed_agent : AutonomousAgent.t :=
  foldl add_task (AutonomousAgent.__init__ "nias_003" "NIAS" datetime_min)
    three_tasks.

(** An initialised agent with a goal that gives it no task. *)
Definition waiting_agent : AutonomousAgent.t :=
  set_goal decimal idle_agent improvement_goal.

(** An initialised agent with the success rate 1 in its learning memory
    and the agent object 1 as its collaborator. *)
Definition teaching_agent : AutonomousAgent.t :=
  AutonomousAgent.mk "nias_004" "NIAS" IDLE [] [] []
    {[ "success_rate" := VAtom (ANum (num 1 1)) ]} {[ "nias_002" := 1%nat ]}
    (metrics idle_agent) false (Some datetime_min) datetime_min (Some ∅)
    (Some (num 7 1)) (Some (num 8 10)) (Some (num 1 10)).

(** [working_agent] after the turn of its loop that plans: it is in the
    state [EXECUTING]. *)
Definition executing_agent : AutonomousAgent.t :=
  execute_planning working_agent.

(** * Properties *)

(** ** The embedding on small inputs *)

Example lower_mixed_case : lower "OptiMIZE-2x" = "optimize-2x".
Proof. reflexivity. Qed.

Example contains_inside :
  contains "optimize" (lower "Re-Optimize the cache") = true
  ∧ contains "optimize" (lower "optimise the cache") = false
  ∧ contains "" "" = true.
Proof. by split_and!. Qed.

Example before_colon_of_error :
  before_colon "timeout: no answer" = "timeout"
  ∧ before_colon "unknown" = "unknown"
  ∧ before_colon ":x" = "".
Proof. by split_and!. Qed.

Example format_03d_pads :
  format_03d 0 = "000" ∧ format_03d 42 = "042" ∧ format_03d 1234 = "1234".
Proof. by split_and!. Qed.

Example py_eq_of_python :
  py_eq (VAtom (ABool true)) (VAtom (ANum (num 1 1))) = true
  ∧ py_eq (VAtom ANone) (VAtom (ANum (num 0 1))) = false
  ∧ py_eq (VAtom (AStr "a")) (VAtom (AStr "a")) = true
  ∧ py_eq (VDict {[ "k" := ABool false ]}) (VDict {[ "k" := ANum (num 0 1) ]})
    = true.
Proof. by split_and!. Qed.

Example list_sort_keeps_ties :
  list_sort fst Nat.ltb [(2, "a"); (1, "b"); (2, "c"); (1, "d")]%nat
  = [(1, "b"); (1, "d"); (2, "a"); (2, "c")]%nat.
Proof. reflexivity. Qed.

Example datetime_max_is_last :
  microseconds datetime_max = (3652058 * 86400 + 86399) * 1000000 + 999999.
Proof. reflexivity. Qed.

(** ** State re-evaluation *)

Lemma set_state_same (a : AutonomousAgent.t) : set_state (state a) a = a.
Proof. by destruct a. Qed.

(** C2.  One pass of [update_state] changes nothing but the state.  An
    agent in [ERROR] is left as it is.  Otherwise the state becomes
    [PLANNING] when the queue is non-empty and the state is [IDLE], or the
    queue is empty and the agent's list of goals is not; failing that it
    becomes [LEARNING] when the number of completed tasks is a positive
    multiple of 10; failing that too the agent is left as it is.  (The
    goals that remain are those of the agent's list of goals, the "list of
    active goals" of the specification; in particular a goal that is not
    completed, with an empty queue, leads to [PLANNING].) *)
Theorem update_state_reevaluates (a : AutonomousAgent.t) :
  let a' := update_state a in
  let planning :=
    (task_queue a ≠ [] ∧ state a = IDLE) ∨ (task_queue a = [] ∧ goals a ≠ []) in
  let learning :=
    (length (completed_tasks a) mod 10 = 0
     ∧ 0 < length (completed_tasks a))%nat in
  a' = set_state (state a') a
  ∧ (state a = ERROR → a' = a)
  ∧ (state a ≠ ERROR → planning → state a' = PLANNING)
  ∧ (state a ≠ ERROR → ¬ planning → learning → state a' = LEARNING)
  ∧ (state a ≠ ERROR → ¬ planning → ¬ learning → a' = a)
  ∧ (state a ≠ ERROR → task_queue a = [] →
       (∃ g, g ∈ goals a ∧ AgentGoal.completed g = false) →
       state a' = PLANNING).
Proof.
  cbv zeta.
  assert (Hl : should_learn a = true ↔
    (length (completed_tasks a) mod 10 = 0
     ∧ 0 < length (completed_tasks a))%nat).
  { unfold should_learn. by rewrite andb_true_iff, Nat.eqb_eq, Nat.ltb_lt. }
  assert (Hg : (∃ g, g ∈ goals a ∧ AgentGoal.completed g = false) →
               goals a ≠ []).
  { intros (g & Hin & _) Hnil. rewrite Hnil in Hin.
    by apply elem_of_nil in Hin. }
  unfold update_state.
  destruct (decide (state a = ERROR)) as [He|He].
  { rewrite set_state_same. by split_and!. }
  repeat case_bool_decide; cbn [andb];
    destruct (should_learn a) eqn:Hs; rewrite ?set_state_same;
    (split_and!; [done|..]); intros; try done; try tauto.
  all: exfalso; intuition congruence.
Qed.

(** ** Error recovery *)

(** C4.  [recover_from_error] is a total function on agents: none of its
    statements can raise, so it always returns.  It adds exactly 1 to the
    recovered-error counter, leaves the task queue empty and the state
    [IDLE], and stores the error description and the time stamp in the
    learning memory, whose other keys keep their values. *)
Theorem recover_from_error_recovers (isoformat : datetime → string)
    (a : AutonomousAgent.t) (error : string) (now : datetime) :
  let a' := recover_from_error isoformat a error now in
  errors_recovered (metrics a') = errors_recovered (metrics a) + 1
  ∧ task_queue a' = []
  ∧ state a' = IDLE
  ∧ learning_memory a' !! "last_error" = Some (VAtom (AStr error))
  ∧ learning_memory a' !! "error_timestamp"
    = Some (VAtom (AStr (isoformat now)))
  ∧ (∀ key, key ≠ "last_error" → key ≠ "error_timestamp" →
       learning_memory a' !! key = learning_memory a !! key)
  ∧ completed_tasks a' = completed_tasks a
  ∧ goals a' = goals a
  ∧ tasks_completed (metrics a') = tasks_completed (metrics a).
Proof.
  cbv zeta. unfold recover_from_error. cbn.
  split_and!; try done.
  - by rewrite lookup_insert_ne, lookup_insert_eq.
  - by rewrite lookup_insert_eq.
  - intros key H1 H2. by rewrite !lookup_insert_ne.
Qed.

(** ** Knowledge sharing *)

Lemma receive_knowledge_union (a : AutonomousAgent.t)
    (knowledge : gmap string value) :
  learning_memory (receive_knowledge a knowledge)
  = learning_memory a ∪ knowledge.
Proof.
  unfold receive_knowledge. cbn.
  generalize (learning_memory a). intros memory.
  apply (map_fold_weak_ind (λ r m, r = memory ∪ m)).
  - by rewrite (right_id_L ∅ (∪)).
  - intros key v m r Hm ->.
    destruct (decide ((memory ∪ m) !! key = None)) as [Hn|Hn].
    + apply lookup_union_None in Hn as [Hn _]. by rewrite insert_union_r.
    + apply map_eq. intros k. rewrite !lookup_union.
      destruct (decide (k = key)) as [->|Hk].
      * rewrite lookup_insert_eq, Hm.
        rewrite lookup_union, Hm in Hn.
        by destruct (memory !! key).
      * by rewrite lookup_insert_ne.
Qed.

(** C8.  [receive_knowledge] keeps every key of the receiver's learning
    memory with its value and adds every other key of the incoming
    mapping: the memory becomes the union that prefers the receiver.  A
    receiver whose memory is [{a: 1}] ends, the incoming mapping being
    [{a: 2, b: 3}], with [{a: 1, b: 3}]. *)
Theorem receive_knowledge_never_overwrites (a : AutonomousAgent.t)
    (knowledge : gmap string value) :
  let a' := receive_knowledge a knowledge in
  (∀ key v, learning_memory a !! key = Some v →
     learning_memory a' !! key = Some v)
  ∧ (∀ key, learning_memory a !! key = None →
       learning_memory a' !! key = knowledge !! key)
  ∧ a' = set_learning_memory (learning_memory a ∪ knowledge) a
  ∧ learning_memory
      (receive_knowledge
         (set_learning_memory {[ "a" := VAtom (ANum (num 1 1)) ]} a)
         {[ "a" := VAtom (ANum (num 2 1)); "b" := VAtom (ANum (num 3 1)) ]})
    = {[ "a" := VAtom (ANum (num 1 1)); "b" := VAtom (ANum (num 3 1)) ]}.
Proof.
  cbv zeta. split_and!.
  - intros key v H. rewrite receive_knowledge_union.
    by apply lookup_union_Some_l.
  - intros key H. rewrite receive_knowledge_union.
    by rewrite lookup_union_r.
  - unfold receive_knowledge. f_equal.
    exact (receive_knowledge_union a knowledge).
  - rewrite receive_knowledge_union. cbn.
    apply map_eq. intros k. rewrite lookup_union.
    destruct (decide (k = "a")) as [->|Ha]; [done|].
    rewrite lookup_singleton_ne, !lookup_insert_ne by done.
    by destruct (_ !! k).
Qed.

(** ** Status reports and the active agents *)

Section status.
Context (isoformat : datetime → string).

Lemma get_status_state (a : AutonomousAgent.t) :
  get_status isoformat a !! "state"
  = Some (VAtom (AStr (state_value (state a)))).
Proof.
  unfold get_status.
  rewrite lookup_insert_ne by done.
  rewrite lookup_insert_ne by done.
  by rewrite lookup_insert_eq.
Qed.

Lemma status_never_active (a : AutonomousAgent.t) :
  AgentOrchestrator.status_active (get_status isoformat a) = false.
Proof.
  unfold AgentOrchestrator.status_active. rewrite get_status_state.
  by destruct (state a).
Qed.

Lemma agent_never_active (s : AgentOrchestrator.t) (r : nat) :
  AgentOrchestrator.agent_active isoformat s r = false.
Proof.
  unfold AgentOrchestrator.agent_active.
  destruct (AgentOrchestrator.objects s !! r); [|done].
  apply status_never_active.
Qed.

(** C10.  [get_active_agents] returns the empty list for every
    orchestrator, whatever the states of its agents: the state that
    [get_status] reports is the value of one of the eight members of
    [AgentState], and none of these is "running", "active" or
    "processing". *)
Theorem get_active_agents_is_empty (s : AgentOrchestrator.t) :
  AgentOrchestrator.get_active_agents isoformat s = []
  ∧ (∀ a : AutonomousAgent.t,
       get_status isoformat a !! "state"
       = Some (VAtom (AStr (state_value (state a))))
       ∧ state_value (state a)
         ∈ ["initializing"; "idle"; "planning"; "executing"; "learning";
            "collaborating"; "paused"; "error"]
       ∧ state_value (state a) ∉ ["running"; "active"; "processing"]).
Proof.
  split.
  - unfold AgentOrchestrator.get_active_agents.
    induction ((map_to_list (AgentOrchestrator.agents s)).*2) as [|r l IH];
      [done|].
    rewrite filter_cons, IH.
    destruct (decide _) as [H|H]; [|done].
    by rewrite agent_never_active in H.
  - intros a. split; [apply get_status_state|].
    destruct (state a); cbn; split;
      solve [ repeat constructor
            | rewrite !elem_of_cons, elem_of_nil; intuition discriminate ].
Qed.

End status.

(** ** Progress of a goal *)

Lemma py_eq_number_other (m target : value) (q : Qc) :
  as_number m = Some q → as_number target = None → py_eq m target = false.
Proof.
  intros Hm Ht. unfold py_eq. apply bool_decide_eq_false_2.
  destruct m as [[| | |]|], target as [[| | |]|]; simplify_eq/=; congruence.
Qed.

Lemma criterion_met_comparable (metrics : gmap string value)
    (criterion : string) (target : value) :
  comparable metrics criterion target = true →
  AgentGoal.criterion_met metrics criterion target
  = inr (counts_as_met metrics criterion target).
Proof.
  unfold comparable, AgentGoal.criterion_met, counts_as_met, py_ge_number,
    isinstance_number.
  destruct (metrics !! criterion) as [m|]; [|done].
  destruct (as_number target) as [t|] eqn:Ht.
  - by destruct (as_number m).
  - intros _. destruct (as_number m) as [q|] eqn:Hm; [|done].
    by rewrite (py_eq_number_other m target q).
Qed.

Lemma criterion_met_clash (metrics : gmap string value)
    (criterion : string) (target : value) :
  comparable metrics criterion target = false →
  AgentGoal.criterion_met metrics criterion target = inl TypeError.
Proof.
  unfold comparable, AgentGoal.criterion_met, py_ge_number, isinstance_number.
  destruct (metrics !! criterion) as [m|]; [|done].
  destruct (as_number target) as [t|]; [|done].
  by destruct (as_number m).
Qed.

Lemma ratio_Q (a b : nat) :
  (this (ratio a (S b)) == Z.of_nat a # Pos.of_succ_nat b)%Q.
Proof.
  unfold ratio, Qcdiv, Qcmult, Qcinv. cbn [this Q2Qc].
  rewrite !Qred_correct, Qmake_Qdiv.
  by rewrite Zpos_P_of_succ_nat, <- Nat2Z.inj_succ.
Qed.

Lemma ratio_bounds (a b : nat) :
  (a ≤ b)%nat → (0 < b)%nat → (0 ≤ ratio a b)%Qc ∧ (ratio a b ≤ 1)%Qc.
Proof.
  intros Hab Hb. destruct b as [|b]; [lia|].
  unfold Qcle. rewrite ratio_Q. cbn [this Q2Qc Qred].
  unfold Qle; simpl. lia.
Qed.

Section evaluate_progress.
Context (metrics : gmap string value).

Lemma count_met_map (criteria : gmap string value) (acc : nat) :
  AgentGoal.count_met metrics (map_to_list criteria) acc
  = if decide (map_Forall (comparable_item metrics) criteria)
    then inr (acc + size (filter (met_item metrics) criteria))%nat
    else inl TypeError.
Proof.
  revert acc.
  induction criteria as [|c t m Hc Hfirst IH] using map_first_key_ind;
    intros acc.
  - rewrite map_to_list_empty, map_filter_empty, map_size_empty. cbn.
    rewrite decide_True by apply map_Forall_empty. f_equal. lia.
  - rewrite map_to_list_insert_first_key by done. cbn.
    destruct (comparable metrics c t) eqn:Hcmp.
    + rewrite criterion_met_comparable by done.
      destruct (counts_as_met metrics c t) eqn:Hmet; rewrite IH.
      * destruct (decide (map_Forall (comparable_item metrics) m)) as [Hm|Hm].
        -- rewrite decide_True by (by apply map_Forall_insert_2).
           rewrite map_filter_insert_True by done.
           rewrite map_size_insert_None
             by (rewrite map_lookup_filter_None; auto).
           f_equal. lia.
        -- rewrite decide_False; [done|].
           rewrite map_Forall_insert by done. tauto.
      * destruct (decide (map_Forall (comparable_item metrics) m)) as [Hm|Hm].
        -- rewrite decide_True by (by apply map_Forall_insert_2).
           rewrite map_filter_insert_False
             by (unfold met_item; cbn; congruence).
           by rewrite delete_id.
        -- rewrite decide_False; [done|].
           rewrite map_Forall_insert by done. tauto.
    + rewrite criterion_met_clash by done.
      rewrite decide_False; [done|].
      rewrite map_Forall_insert by done. unfold comparable_item at 1.
      intros [? _]. congruence.
Qed.

(** C5, as the code has it.  For a goal without criteria the progress is
    0.  Otherwise, when every metric that stands against a numeric target
    is itself a number, the progress is the number of criteria that count
    as met over the number of criteria; when some metric that stands
    against a numeric target is not a number, the comparison raises
    [TypeError].  A progress that is returned is in [0, 1]. *)
Theorem evaluate_progress_fraction (g : AgentGoal.t) :
  let criteria := AgentGoal.success_criteria g in
  let met := size (filter (met_item metrics) criteria) in
  (criteria = ∅ → AgentGoal.evaluate_progress g metrics = inr 0%Qc)
  ∧ (criteria ≠ ∅ → map_Forall (comparable_item metrics) criteria →
       AgentGoal.evaluate_progress g metrics
       = inr (ratio met (size criteria)))
  ∧ (¬ map_Forall (comparable_item metrics) criteria →
       AgentGoal.evaluate_progress g metrics = inl TypeError)
  ∧ (∀ r, AgentGoal.evaluate_progress g metrics = inr r →
       (0 ≤ r)%Qc ∧ (r ≤ 1)%Qc).
Proof.
  cbv zeta. unfold AgentGoal.evaluate_progress.
  rewrite count_met_map.
  destruct (decide (AgentGoal.success_criteria g = ∅)) as [He|He].
  { split_and!; try done.
    - intros H. destruct H. rewrite He. apply map_Forall_empty.
    - by intros r [= <-]. }
  destruct (decide (map_Forall (comparable_item metrics) _)) as [Hc|Hc];
    split_and!; try done.
  intros r [= <-]. apply ratio_bounds.
  - apply map_size_filter.
  - apply map_size_non_empty_iff in He. lia.
Qed.

End evaluate_progress.

(** C5 fails as stated: the metric "high" is not numeric and not equal to
    the target 1, so the criterion does not count as met and the claim
    gives the progress 0/1; the code compares ["high" >= 1] and raises
    [TypeError]. *)
Lemma evaluate_progress_type_error :
  counts_as_met quality_metrics "quality" (VAtom (ANum (num 1 1))) = false
  ∧ AgentGoal.evaluate_progress quality_goal quality_metrics = inl TypeError.
Proof. split; reflexivity. Qed.

(** Two of three criteria met: a numeric target reached, a string target
    equal, and a criterion without metric. *)
Example evaluate_progress_two_thirds :
  AgentGoal.evaluate_progress
    (AgentGoal.mk "g2" ""
       {[ "uptime" := VAtom (ANum (num 3 1)); "mode" := VAtom (AStr "fast");
          "tests" := VAtom (ANum (num 1 1)) ]} None NORMAL 0%Qc false)
    {[ "uptime" := VAtom (ANum (num 5 1)); "mode" := VAtom (AStr "fast") ]}
  = inr (num 2 3).
Proof. vm_compute. reflexivity. Qed.

(** ** The learning update *)

Lemma ratio_lt_8_10 (a b : nat) :
  (0 < b)%nat → (ratio a b < num 8 10)%Qc ↔ (10 * a < 8 * b)%nat.
Proof.
  intros Hb. destruct b as [|b]; [lia|].
  unfold Qclt. rewrite ratio_Q. unfold num. cbn [this Q2Qc].
  rewrite Qred_correct. unfold Qlt; simpl. lia.
Qed.

Lemma ratio_8_10 : ratio 8 10 = num 8 10.
Proof. by apply Qc_is_canon. Qed.

(** The rationals agree with the binary64 arithmetic of Python at the
    boundary of the learning update: the float [8 / 10] is the float that
    the literal [0.8] denotes, [0x1.999999999999ap-1], and is not below
    it, while [7 / 10] is. *)
Example binary64_eight_tenths :
  PrimFloat.eqb (PrimFloat.div 8%float 10%float) 0x1.999999999999ap-1%float
  = true
  ∧ PrimFloat.ltb (PrimFloat.div 8%float 10%float) 0x1.999999999999ap-1%float
    = false
  ∧ PrimFloat.ltb (PrimFloat.div 7%float 10%float) 0x1.999999999999ap-1%float
    = true.
Proof. by split_and!. Qed.

Lemma py_min_le (a b : Qc) : (py_min a b ≤ a)%Qc ∧ (py_min a b ≤ b)%Qc.
Proof.
  unfold py_min. case_bool_decide as H.
  - split; [by apply Qclt_le_weak | apply Qcle_refl].
  - split; [apply Qcle_refl | by apply Qcnot_lt_le].
Qed.

Lemma length_filter_split (tasks : list AgentTask.t) :
  (length (filter (λ t, AgentTask.error_truthy t = false) tasks)
   + length (filter (λ t, AgentTask.error_truthy t = true) tasks)
   = length tasks)%nat.
Proof.
  induction tasks as [|t tasks IH]; [done|].
  rewrite !filter_cons.
  destruct (AgentTask.error_truthy t) eqn:Ht; simpl; lia.
Qed.

Lemma error_truthy_false (task : AgentTask.t) :
  AgentTask.error_truthy task = false ↔ no_error_text task.
Proof.
  unfold AgentTask.error_truthy, no_error_text.
  destruct (AgentTask.error task) as [msg|]; [|by split; [left|]].
  rewrite negb_false_iff, String.eqb_eq. split.
  - intros ->. by right.
  - by intros [?|[= ->]].
Qed.

Lemma error_truthy_true (task : AgentTask.t) :
  AgentTask.error_truthy task = true ↔ error_text task.
Proof.
  unfold AgentTask.error_truthy, error_text.
  destruct (AgentTask.error task) as [msg|]; [|done].
  by rewrite negb_true_iff, String.eqb_neq.
Qed.

Lemma filter_no_error_text (tasks : list AgentTask.t) :
  filter (λ t, AgentTask.error_truthy t = false) tasks
  = filter no_error_text tasks.
Proof. apply list_filter_iff, error_truthy_false. Qed.

Lemma filter_error_text (tasks : list AgentTask.t) :
  filter (λ t, AgentTask.error_truthy t = true) tasks
  = filter error_text tasks.
Proof. apply list_filter_iff, error_truthy_true. Qed.

Lemma filter_ext_elem_of {A : Type} (P Q : A → Prop)
    `{∀ x, Decision (P x)} `{∀ x, Decision (Q x)} (l : list A) :
  (∀ x, x ∈ l → P x ↔ Q x) → filter P l = filter Q l.
Proof.
  induction l as [|x l IH]; intros Hext; [done|].
  rewrite !filter_cons.
  rewrite IH by (intros y Hy; by apply Hext, list_elem_of_further).
  destruct (decide (P x)) as [HP|HP].
  - rewrite decide_True; [done|]. by apply (Hext x (list_elem_of_here _ _)).
  - rewrite decide_False; [done|].
    intros HQ. by apply HP, (Hext x (list_elem_of_here _ _)).
Qed.


(** The learning update on an agent object that [initialize] has not
    given its [decision_threshold]: the rate and the histogram are
    written to the learning memory, then reading the threshold raises
    [AttributeError], and the agent is left in the state [LEARNING]. *)
Theorem learn_from_experience_needs_initialize (a : AutonomousAgent.t) :
  completed_tasks a ≠ [] →
  decision_threshold a = None →
  ∃ a',
    learn_from_experience a = Raised (AttributeError "decision_threshold") a'
    ∧ state a' = LEARNING
    ∧ learning_memory a' !! "success_rate"
      = Some (VAtom (ANum (ratio
                             (length (filter no_error_text (completed_tasks a)))
                             (length (completed_tasks a)))))
    ∧ is_Some (learning_memory a' !! "common_errors")
    ∧ decision_threshold a' = None
    ∧ task_queue a' = task_queue a
    ∧ completed_tasks a' = completed_tasks a.
Proof.
  intros Hne Hthreshold. unfold learn_from_experience.
  cbn [completed_tasks set_state].
  destruct (completed_tasks a) as [|t0 tasks] eqn:Hc; [done|].
  rewrite <- Hc. clear Hne.
  cbn [decision_threshold set_learning_memory set_state]. rewrite Hthreshold.
  rewrite filter_no_error_text.
  eexists. split; [reflexivity|]. cbn.
  split_and!; try done.
  - by rewrite lookup_insert_ne, lookup_insert_eq.
  - by rewrite lookup_insert_eq.
Qed.

(** ** The stable sort *)

Section list_sort_facts.
Context {A K : Type} `{EqDecision K} (key : A → K) (lt : K → K → bool).

Hypothesis lt_irrefl : ∀ k, lt k k = false.
Hypothesis lt_asym : ∀ k1 k2, lt k1 k2 = true → lt k2 k1 = false.
Hypothesis lt_negtrans :
  ∀ k1 k2 k3, lt k2 k1 = false → lt k3 k2 = false → lt k3 k1 = false.

Lemma sort_insert_perm (x : A) (l : list A) :
  sort_insert key lt x l ≡ₚ x :: l.
Proof.
  induction l as [|y l IH]; [done|]. cbn.
  destruct (lt (key y) (key x)); [|done].
  by rewrite IH, Permutation_swap.
Qed.

Lemma list_sort_perm (l : list A) : list_sort key lt l ≡ₚ l.
Proof.
  induction l as [|x l IH]; [done|]. cbn.
  by rewrite sort_insert_perm, IH.
Qed.

Lemma sort_insert_sorted (x : A) (l : list A) :
  StronglySorted (not_after key lt) l →
  StronglySorted (not_after key lt) (sort_insert key lt x l).
Proof.
  induction 1 as [|y l Hl IH Hy]; cbn.
  { repeat constructor. }
  destruct (lt (key y) (key x)) eqn:Hyx.
  - constructor; [done|].
    rewrite sort_insert_perm. constructor; [|done].
    by apply lt_asym.
  - constructor; [by constructor|].
    constructor; [done|].
    eapply Forall_impl; [exact Hy|].
    intros z Hz. unfold not_after in *. eauto.
Qed.

Lemma list_sort_sorted (l : list A) :
  StronglySorted (not_after key lt) (list_sort key lt l).
Proof.
  induction l as [|x l IH]; cbn; [constructor|].
  by apply sort_insert_sorted.
Qed.

(** Stability: the elements of one key keep their order. *)
Lemma sort_insert_stable (k : K) (x : A) (l : list A) :
  filter (λ z, key z = k) (sort_insert key lt x l)
  = filter (λ z, key z = k) (x :: l).
Proof.
  induction l as [|y l IH]; [done|]. cbn.
  destruct (lt (key y) (key x)) eqn:Hyx; [|done].
  rewrite filter_cons, IH, !filter_cons.
  destruct (decide (key y = k)) as [Hy|Hy]; [|done].
  destruct (decide (key x = k)) as [Hx|Hx]; [|done].
  rewrite Hx, Hy, lt_irrefl in Hyx. discriminate.
Qed.

Lemma list_sort_stable (k : K) (l : list A) :
  filter (λ z, key z = k) (list_sort key lt l) = filter (λ z, key z = k) l.
Proof.
  induction l as [|x l IH]; [done|]. cbn.
  by rewrite sort_insert_stable, !filter_cons, IH.
Qed.

(** A sorted list is left as it is. *)
Lemma list_sort_id (l : list A) :
  StronglySorted (not_after key lt) l → list_sort key lt l = l.
Proof.
  induction 1 as [|x l Hl IH Hx]; [done|]. cbn. rewrite IH.
  destruct l as [|y l]; [done|]. cbn.
  apply Forall_cons in Hx as [Hxy _]. unfold not_after in Hxy.
  by rewrite Hxy.
Qed.

End list_sort_facts.

(** ** The task queue *)

Lemma key_lt_true (k1 k2 : Z * datetime) :
  key_lt k1 k2 = true ↔ k1.1 < k2.1 ∨ (k1.1 = k2.1 ∧ k1.2 < k2.2).
Proof.
  unfold key_lt.
  rewrite orb_true_iff, andb_true_iff, !Z.ltb_lt, Z.eqb_eq. tauto.
Qed.

Lemma key_lt_false (k1 k2 : Z * datetime) :
  key_lt k1 k2 = false ↔ k2.1 < k1.1 ∨ (k1.1 = k2.1 ∧ k2.2 ≤ k1.2).
Proof.
  rewrite <- not_true_iff_false, key_lt_true. lia.
Qed.

Lemma key_lt_irrefl (k : Z * datetime) : key_lt k k = false.
Proof. rewrite key_lt_false. lia. Qed.

Lemma key_lt_asym (k1 k2 : Z * datetime) :
  key_lt k1 k2 = true → key_lt k2 k1 = false.
Proof. rewrite key_lt_true, key_lt_false. lia. Qed.

Lemma key_lt_negtrans (k1 k2 k3 : Z * datetime) :
  key_lt k2 k1 = false → key_lt k3 k2 = false → key_lt k3 k1 = false.
Proof. rewrite !key_lt_false. lia. Qed.

Lemma priority_value_inj (p1 p2 : AgentPriority) :
  priority_value p1 = priority_value p2 → p1 = p2.
Proof. by destruct p1, p2. Qed.

(** Every [datetime] lies between [datetime.min] and [datetime.max]. *)
Lemma datetime_bounds (d : datetime) : datetime_min ≤ d ≤ datetime_max.
Proof.
  destruct d as [d Hd]. cbn. by apply bool_decide_unpack in Hd.
Qed.

Lemma datetime_max_last (d : datetime) : datetime_max ≤ d ↔ last_instant d.
Proof.
  split.
  - intros Hd d'. pose proof (datetime_bounds d'). lia.
  - intros Hd. apply Hd.
Qed.

Lemma not_after_may_precede (t1 t2 : AgentTask.t) :
  not_after AgentTask.sort_key key_lt t1 t2 ↔ may_precede t1 t2.
Proof.
  unfold not_after, may_precede, time_not_after, AgentTask.sort_key.
  rewrite key_lt_false. cbn [fst snd].
  split.
  - intros [Hlt|[Heq Hle]]; [by left|right].
    apply priority_value_inj in Heq. split; [done|].
    destruct (AgentTask.scheduled_time t1), (AgentTask.scheduled_time t2);
      try done.
    by apply datetime_max_last.
  - intros [Hlt|[Heq Hle]]; [by left|right].
    rewrite Heq. split; [done|].
    destruct (AgentTask.scheduled_time t1) as [d1|],
      (AgentTask.scheduled_time t2) as [d2|]; try done;
      first [apply datetime_bounds | by apply datetime_max_last].
Qed.

Lemma sorted_may_precede (l : list AgentTask.t) :
  StronglySorted (not_after AgentTask.sort_key key_lt) l
  ↔ StronglySorted may_precede l.
Proof.
  split; induction 1 as [|x l Hl IH Hx]; constructor; try done.
  all: eapply Forall_impl; [exact Hx|].
  all: intros y; by rewrite not_after_may_precede.
Qed.

Lemma add_task_queue (a : AutonomousAgent.t) (task : AgentTask.t) :
  task_queue (add_task a task)
  = list_sort AgentTask.sort_key key_lt (task_queue a ++ [task]).
Proof. done. Qed.

Lemma add_task_perm (a : AutonomousAgent.t) (task : AgentTask.t) :
  task_queue (add_task a task) ≡ₚ task :: task_queue a.
Proof.
  rewrite add_task_queue, list_sort_perm.
  by rewrite Permutation_app_comm.
Qed.

Lemma add_task_sorted (a : AutonomousAgent.t) (task : AgentTask.t) :
  StronglySorted may_precede (task_queue (add_task a task)).
Proof.
  rewrite add_task_queue. apply sorted_may_precede, list_sort_sorted.
  - apply key_lt_asym.
  - apply key_lt_negtrans.
Qed.

(** The sort of [add_task] is stable: the tasks of one key keep the order
    in which they stood, the new task last among them; the queue is a
    permutation of the old queue with the new task; and a queue that is in
    order with the new task at its end is left as it is. *)
Theorem add_task_sort_stable (a : AutonomousAgent.t) (task : AgentTask.t) :
  (∀ k, filter (λ t, AgentTask.sort_key t = k) (task_queue (add_task a task))
        = filter (λ t, AgentTask.sort_key t = k) (task_queue a ++ [task]))
  ∧ task_queue (add_task a task) ≡ₚ task_queue a ++ [task]
  ∧ (StronglySorted may_precede (task_queue a ++ [task]) →
       task_queue (add_task a task) = task_queue a ++ [task]).
Proof.
  rewrite add_task_queue. split_and!.
  - intros k. apply list_sort_stable, key_lt_irrefl.
  - apply list_sort_perm.
  - intros Hs. by apply list_sort_id, sorted_may_precede.
Qed.

Lemma add_tasks_perm (tasks : list AgentTask.t) (a : AutonomousAgent.t) :
  task_queue (foldl add_task a tasks) ≡ₚ task_queue a ++ tasks.
Proof.
  revert a. induction tasks as [|task tasks IH]; intros a; cbn.
  - by rewrite app_nil_r.
  - rewrite IH, add_task_perm. cbn. apply Permutation_middle.
Qed.

Lemma add_tasks_sorted (tasks : list AgentTask.t) (a : AutonomousAgent.t) :
  StronglySorted may_precede (task_queue a) →
  StronglySorted may_precede (task_queue (foldl add_task a tasks)).
Proof.
  revert a. induction tasks as [|task tasks IH]; intros a Ha; cbn; [done|].
  apply IH, add_task_sorted.
Qed.

Lemma add_tasks_completed (tasks : list AgentTask.t) (a : AutonomousAgent.t) :
  completed_tasks (foldl add_task a tasks) = completed_tasks a.
Proof.
  revert a. induction tasks as [|task tasks IH]; intros a; cbn; [done|].
  by rewrite IH.
Qed.

(** ** One step of task execution *)

Section execute_tasks.
Context `{handler : TaskHandler}.

Lemma execute_tasks_idle (a : AutonomousAgent.t) :
  task_queue a = [] → execute_tasks a = set_state IDLE a.
Proof. unfold execute_tasks. by intros ->. Qed.

Lemma execute_tasks_success (a : AutonomousAgent.t) (task : AgentTask.t)
    (rest : list AgentTask.t) (m : Metrics) (result : value) :
  task_queue a = task :: rest →
  execute_single_task (set_task_queue rest a) task = (m, inr result) →
  execute_tasks a
  = set_metrics (incr_tasks_completed m)
      (set_completed_tasks
         (completed_tasks a ++ [AgentTask.succeed result task])
         (set_task_queue rest a)).
Proof. unfold execute_tasks. by intros -> ->. Qed.

Lemma execute_tasks_retry (a : AutonomousAgent.t) (task : AgentTask.t)
    (rest : list AgentTask.t) (m : Metrics) (msg : string) :
  task_queue a = task :: rest →
  execute_single_task (set_task_queue rest a) task = (m, inl msg) →
  AgentTask.retry_count task + 1 < AgentTask.max_retries task →
  execute_tasks a
  = add_task (set_metrics m (set_task_queue rest a)) (AgentTask.fail msg task).
Proof.
  unfold execute_tasks. intros -> -> Hlt. cbn.
  by rewrite (proj2 (Z.ltb_lt _ _) Hlt).
Qed.

Lemma execute_tasks_exhausted (a : AutonomousAgent.t) (task : AgentTask.t)
    (rest : list AgentTask.t) (m : Metrics) (msg : string) :
  task_queue a = task :: rest →
  execute_single_task (set_task_queue rest a) task = (m, inl msg) →
  AgentTask.max_retries task ≤ AgentTask.retry_count task + 1 →
  execute_tasks a
  = set_completed_tasks (completed_tasks a ++ [AgentTask.fail msg task])
      (set_metrics m (set_task_queue rest a)).
Proof.
  unfold execute_tasks. intros -> -> Hge. cbn.
  by rewrite (proj2 (Z.ltb_ge _ _) Hge).
Qed.

End execute_tasks.

Lemma key_lt_priority (t1 t2 : AgentTask.t) :
  priority_value (AgentTask.priority t1)
  < priority_value (AgentTask.priority t2) →
  key_lt (AgentTask.sort_key t1) (AgentTask.sort_key t2) = true
  ∧ key_lt (AgentTask.sort_key t2) (AgentTask.sort_key t1) = false.
Proof.
  intros H. rewrite key_lt_true, key_lt_false.
  unfold AgentTask.sort_key. cbn. lia.
Qed.

Lemma sorted_before (l1 l2 l3 : list AgentTask.t) (t1 t2 : AgentTask.t) :
  StronglySorted may_precede (l1 ++ t1 :: l2 ++ t2 :: l3) → may_precede t1 t2.
Proof.
  intros H. apply StronglySorted_app_1_r in H.
  apply StronglySorted_cons in H as [H _].
  rewrite Forall_app, Forall_cons in H. tauto.
Qed.

Lemma datetime_eq (d1 d2 : datetime) :
  microseconds d1 = microseconds d2 → d1 = d2.
Proof.
  destruct d1 as [d1 H1], d2 as [d2 H2]. cbn. intros ->.
  f_equal. apply proof_irrel.
Qed.

Lemma key_lt_scheduled (t1 t2 : AgentTask.t) (d1 d2 : datetime) :
  AgentTask.priority t1 = AgentTask.priority t2 →
  AgentTask.scheduled_time t1 = Some d1 →
  AgentTask.scheduled_time t2 = Some d2 →
  d1 < d2 →
  key_lt (AgentTask.sort_key t1) (AgentTask.sort_key t2) = true.
Proof.
  intros Hp H1 H2 Hlt. rewrite key_lt_true.
  unfold AgentTask.sort_key. rewrite Hp, H1, H2. cbn. lia.
Qed.

Lemma key_lt_unscheduled (t1 t2 : AgentTask.t) (d1 : datetime) :
  AgentTask.priority t1 = AgentTask.priority t2 →
  AgentTask.scheduled_time t1 = Some d1 →
  AgentTask.scheduled_time t2 = None →
  d1 < datetime_max →
  key_lt (AgentTask.sort_key t1) (AgentTask.sort_key t2) = true
  ∧ key_lt (AgentTask.sort_key t2) (AgentTask.sort_key t1) = false.
Proof.
  intros Hp H1 H2 Hlt. rewrite key_lt_true, key_lt_false.
  unfold AgentTask.sort_key. rewrite Hp, H1, H2. cbn [fst snd]. lia.
Qed.


(** ** Goal decomposition *)

Lemma append_nil (s : string) : ("" ++ s)%string = s.
Proof. reflexivity. Qed.

Lemma append_cons (c : ascii) (s1 s2 : string) :
  (String c s1 ++ s2)%string = String c (s1 ++ s2)%string.
Proof. reflexivity. Qed.

Lemma starts_with_app (needle hay : string) :
  starts_with needle hay = true ↔ ∃ post, hay = (needle ++ post)%string.
Proof.
  revert hay. induction needle as [|c needle IH]; intros hay.
  { split; [by exists hay|done]. }
  destruct hay as [|d hay]; cbn [starts_with].
  { split; [done|]. intros [post Hp]. by rewrite append_cons in Hp. }
  rewrite andb_true_iff, Ascii.eqb_eq, IH. split.
  - intros [-> [post ->]]. by exists post.
  - intros [post Hp]. rewrite append_cons in Hp.
    injection Hp as -> ->. split; [done|by exists post].
Qed.

Lemma contains_app (needle hay : string) :
  contains needle hay = true
  ↔ ∃ pre post, hay = (pre ++ needle ++ post)%string.
Proof.
  induction hay as [|c hay IH]; cbn [contains].
  - rewrite orb_false_r, starts_with_app. split.
    + intros [post Hp]. by exists EmptyString, post.
    + intros ([|? ?] & post & Hp); [by exists post|].
      by rewrite append_cons in Hp.
  - rewrite orb_true_iff, starts_with_app, IH. split.
    + intros [[post Hp]|(pre & post & Hp)].
      * by exists EmptyString, post.
      * exists (String c pre), post. by rewrite append_cons, Hp.
    + intros ([|d pre] & post & Hp).
      * left. by exists post.
      * right. exists pre, post. rewrite append_cons in Hp. congruence.
Qed.

Lemma lower_app (s1 s2 : string) :
  lower (s1 ++ s2)%string = (lower s1 ++ lower s2)%string.
Proof.
  induction s1 as [|c s1 IH]; [done|].
  rewrite append_cons. cbn [lower]. by rewrite IH, append_cons.
Qed.

Lemma lower_split (s x y : string) :
  lower s = (x ++ y)%string →
  ∃ s1 s2, s = (s1 ++ s2)%string ∧ lower s1 = x ∧ lower s2 = y.
Proof.
  revert s. induction x as [|c x IH]; intros s Hs.
  { by exists EmptyString, s. }
  destruct s as [|d s]; [done|].
  rewrite append_cons in Hs. cbn [lower] in Hs.
  injection Hs as Hc Hs. destruct (IH s Hs) as (s1 & s2 & -> & <- & <-).
  exists (String d s1), s2. rewrite append_cons. cbn [lower]. by rewrite Hc.
Qed.

(** The characters that [lower_ascii] maps to a letter of "optimize":
    the letter itself and its capital. *)
Lemma lower_ascii_letter (c : ascii) :
  (lower_ascii c = "o"%char ↔ letter "o" "O" c)
  ∧ (lower_ascii c = "p"%char ↔ letter "p" "P" c)
  ∧ (lower_ascii c = "t"%char ↔ letter "t" "T" c)
  ∧ (lower_ascii c = "i"%char ↔ letter "i" "I" c)
  ∧ (lower_ascii c = "m"%char ↔ letter "m" "M" c)
  ∧ (lower_ascii c = "z"%char ↔ letter "z" "Z" c)
  ∧ (lower_ascii c = "e"%char ↔ letter "e" "E" c).
Proof.
  unfold letter.
  destruct c as [[] [] [] [] [] [] [] []]; vm_compute;
    repeat split; first [intros [?|?]; congruence | by left | by right | congruence].
Qed.

Lemma lower_optimize (word : string) :
  lower word = "optimize" ↔ spells_optimize word.
Proof.
  unfold spells_optimize. split.
  - destruct word as [|c1 [|c2 [|c3 [|c4 [|c5 [|c6 [|c7 [|c8 [|c9 word]]]]]]]]];
      try done.
    cbn [lower]. intros [= H1 H2 H3 H4 H5 H6 H7 H8].
    exists c1, c2, c3, c4, c5, c6, c7, c8. split; [done|].
    split_and!.
    + by apply (lower_ascii_letter c1).
    + by apply (lower_ascii_letter c2).
    + by apply (lower_ascii_letter c3).
    + by apply (lower_ascii_letter c4).
    + by apply (lower_ascii_letter c5).
    + by apply (lower_ascii_letter c6).
    + by apply (lower_ascii_letter c7).
    + by apply (lower_ascii_letter c8).
  - intros (c1 & c2 & c3 & c4 & c5 & c6 & c7 & c8 & -> &
            H1 & H2 & H3 & H4 & H5 & H6 & H7 & H8).
    apply (lower_ascii_letter c1) in H1. apply (lower_ascii_letter c2) in H2.
    apply (lower_ascii_letter c3) in H3. apply (lower_ascii_letter c4) in H4.
    apply (lower_ascii_letter c5) in H5. apply (lower_ascii_letter c6) in H6.
    apply (lower_ascii_letter c7) in H7. apply (lower_ascii_letter c8) in H8.
    cbn [lower]. by rewrite H1, H2, H3, H4, H5, H6, H7, H8.
Qed.

Lemma contains_optimize (description : string) :
  contains "optimize" (lower description) = true
  ↔ mentions_optimize description.
Proof.
  rewrite contains_app. split.
  - intros (pre & post & H).
    apply lower_split in H as (s1 & s23 & -> & <- & H).
    apply lower_split in H as (s2 & s3 & -> & H2 & <-).
    exists s1, s2, s3. split; [done|]. by apply lower_optimize.
  - intros (pre & word & post & -> & H). apply lower_optimize in H.
    exists (lower pre), (lower post). by rewrite !lower_app, H.
Qed.

(** C7.  When the description of the goal contains "optimize" in any
    case, [decompose_goal] gives exactly three tasks, with the actions
    [analyze_current_state], [identify_bottlenecks] and
    [implement_optimizations] and the priorities HIGH, HIGH, NORMAL, and
    [set_goal] on an agent with an empty queue (a new agent) leaves the
    queue holding exactly these three in this order: the two HIGH tasks
    keep the order in which they were added.  When the description does
    not contain the keyword, no task is given and the queue is left as it
    is. *)
Theorem decompose_goal_optimize (uuid4 : nat → string) (goal : AgentGoal.t) :
  let tasks := decompose_goal uuid4 goal in
  (mentions_optimize (AgentGoal.description goal) →
     tasks
     = [ AgentTask.mk (uuid4 0%nat) (AgentGoal.id goal) "analyze_current_state"
           {[ "target" := AStr "performance_metrics" ]} HIGH None 3 0 false
           None None;
         AgentTask.mk (uuid4 1%nat) (AgentGoal.id goal) "identify_bottlenecks"
           {[ "threshold" := ANum (num 7 10) ]} HIGH None 3 0 false None None;
         AgentTask.mk (uuid4 2%nat) (AgentGoal.id goal)
           "implement_optimizations" {[ "auto_approve" := ABool true ]}
           NORMAL None 3 0 false None None ]
     ∧ AgentTask.action <$> tasks
       = ["analyze_current_state"; "identify_bottlenecks";
          "implement_optimizations"]
     ∧ AgentTask.priority <$> tasks = [HIGH; HIGH; NORMAL]
     ∧ (∀ a, task_queue a = [] → task_queue (set_goal uuid4 a goal) = tasks)
     ∧ (∀ agent_id agent_type now,
          task_queue
            (set_goal uuid4 (AutonomousAgent.__init__ agent_id agent_type now)
               goal)
          = tasks))
  ∧ (¬ mentions_optimize (AgentGoal.description goal) →
       tasks = []
       ∧ ∀ a, task_queue (set_goal uuid4 a goal) = task_queue a).
Proof.
  cbv zeta. rewrite <- contains_optimize.
  unfold set_goal, decompose_goal.
  destruct (contains "optimize" (lower (AgentGoal.description goal))).
  - split; [intros _|done].
    match goal with
    | |- ?l = _ ∧ _ =>
        assert (Hq : ∀ a, task_queue a = [] →
          task_queue (foldl add_task (set_goals (goals a ++ [goal]) a) l) = l)
    end.
    { intros a Ha. cbn [foldl]. rewrite !add_task_queue.
      cbn [task_queue set_goals]. rewrite Ha. reflexivity. }
    by split_and!.
  - split; [done|intros _]. by split.
Qed.

(** ** Retries *)

Lemma attempts_left_pos (task : AgentTask.t) : (1 ≤ attempts_left task)%nat.
Proof. unfold attempts_left. lia. Qed.

Lemma attempts_left_fail (msg : string) (task : AgentTask.t) :
  AgentTask.retry_count task + 1 < AgentTask.max_retries task →
  (attempts_left (AgentTask.fail msg task) < attempts_left task)%nat.
Proof. unfold attempts_left. cbn. lia. Qed.

Lemma tasks_of_other (tid : string) (task : AgentTask.t) :
  AgentTask.id task ≠ tid → tasks_of tid [task] = [].
Proof.
  intros H. unfold tasks_of. rewrite filter_cons. by rewrite decide_False.
Qed.

Lemma tasks_of_cons_other (tid : string) (task : AgentTask.t)
    (l : list AgentTask.t) :
  AgentTask.id task ≠ tid → tasks_of tid (task :: l) = tasks_of tid l.
Proof.
  intros H. unfold tasks_of. rewrite filter_cons. by rewrite decide_False.
Qed.

Lemma tasks_of_cons_same (tid : string) (task : AgentTask.t)
    (l : list AgentTask.t) :
  AgentTask.id task = tid → tasks_of tid (task :: l) = task :: tasks_of tid l.
Proof.
  intros H. unfold tasks_of. rewrite filter_cons. by rewrite decide_True.
Qed.

Lemma tasks_of_app (tid : string) (l1 l2 : list AgentTask.t) :
  tasks_of tid (l1 ++ l2) = tasks_of tid l1 ++ tasks_of tid l2.
Proof. apply filter_app. Qed.

Lemma tasks_of_add_task (tid : string) (a : AutonomousAgent.t)
    (task : AgentTask.t) :
  tasks_of tid (task_queue (add_task a task))
  ≡ₚ tasks_of tid (task :: task_queue a).
Proof. unfold tasks_of. by rewrite add_task_perm. Qed.

Lemma queue_budget_add_task (a : AutonomousAgent.t) (task : AgentTask.t) :
  queue_budget (add_task a task)
  = (attempts_left task + queue_budget a)%nat.
Proof. unfold queue_budget. by rewrite add_task_perm. Qed.

Section retries.
Context `{handler : TaskHandler} (tid : string).

(** What a step does when the task at the head of the queue is not
    [tid]: the tasks [tid] stay where they are, and the queue has fewer
    attempts left. *)
Lemma execute_tasks_other (a : AutonomousAgent.t) (task0 : AgentTask.t)
    (rest : list AgentTask.t) :
  task_queue a = task0 :: rest →
  AgentTask.id task0 ≠ tid →
  tasks_of tid (task_queue (execute_tasks a)) ≡ₚ tasks_of tid rest
  ∧ tasks_of tid (completed_tasks (execute_tasks a))
    = tasks_of tid (completed_tasks a)
  ∧ (queue_budget (execute_tasks a) < queue_budget a)%nat.
Proof.
  intros Hq Hid.
  pose proof (attempts_left_pos task0) as Hpos.
  destruct (execute_single_task (set_task_queue rest a) task0)
    as [m [msg|result]] eqn:Hrun.
  - destruct (decide (AgentTask.retry_count task0 + 1
                      < AgentTask.max_retries task0)) as [Hlt|Hge].
    + rewrite (execute_tasks_retry a task0 rest m msg) by done.
      rewrite tasks_of_add_task, queue_budget_add_task.
      rewrite tasks_of_cons_other by done.
      pose proof (attempts_left_fail msg task0 Hlt).
      unfold queue_budget. rewrite Hq.
      cbn [task_queue completed_tasks set_completed_tasks set_task_queue
           set_metrics sum_list_with]. split_and!; [done|done|lia].
    + rewrite (execute_tasks_exhausted a task0 rest m msg) by (done || lia).
      unfold queue_budget. rewrite Hq.
      cbn [task_queue completed_tasks set_completed_tasks set_task_queue
           set_metrics sum_list_with].
      rewrite tasks_of_app, (tasks_of_other tid (AgentTask.fail msg task0))
        by done.
      rewrite app_nil_r. split_and!; [done|done|lia].
  - rewrite (execute_tasks_success a task0 rest m result) by done.
    unfold queue_budget. rewrite Hq.
      cbn [task_queue completed_tasks set_completed_tasks set_task_queue
           set_metrics sum_list_with].
    rewrite tasks_of_app,
      (tasks_of_other tid (AgentTask.succeed result task0)) by done.
    rewrite app_nil_r. split_and!; [done|done|lia].
Qed.

(** The handler fails whenever it is run on the task [tid]. *)
Hypothesis handler_fails :
  ∀ self task, AgentTask.id task = tid →
    ∃ m msg, execute_single_task self task = (m, inl msg).

Lemma pending_head (a : AutonomousAgent.t) (task task0 : AgentTask.t)
    (rest : list AgentTask.t) :
  pending tid a task → task_queue a = task0 :: rest → AgentTask.id task0 = tid →
  task0 = task ∧ tasks_of tid rest = [].
Proof.
  intros [Hq _] Ha Hid. rewrite Ha, tasks_of_cons_same in Hq by done.
  by injection Hq.
Qed.

Lemma pending_queued (a : AutonomousAgent.t) (task : AgentTask.t) :
  pending tid a task → task ∈ task_queue a ∧ AgentTask.id task = tid.
Proof.
  intros [Hq _].
  assert (H : task ∈ tasks_of tid (task_queue a))
    by (rewrite Hq; apply list_elem_of_here).
  by apply list_elem_of_filter in H as [? ?].
Qed.

Lemma settled_step (a : AutonomousAgent.t) (final : AgentTask.t) :
  settled tid a final →
  settled tid (execute_tasks a) final ∧ runs_task tid a = 0%nat.
Proof.
  intros [Hq Hc]. unfold runs_task.
  destruct (task_queue a) as [|task0 rest] eqn:Ha.
  { rewrite execute_tasks_idle by done. unfold settled. cbn. by rewrite Ha. }
  destruct (decide (AgentTask.id task0 = tid)) as [Hid|Hid].
  { by rewrite tasks_of_cons_same in Hq. }
  rewrite tasks_of_cons_other in Hq by done.
  destruct (execute_tasks_other a task0 rest Ha Hid) as (Hq' & Hc' & _).
  rewrite Hq in Hq'. apply Permutation_nil_r in Hq'.
  unfold settled. by rewrite Hq', Hc'.
Qed.

Lemma settled_forever (k : nat) (a : AutonomousAgent.t)
    (final : AgentTask.t) :
  settled tid a final →
  settled tid (execute_tasks_n k a) final ∧ executions tid k a = 0%nat.
Proof.
  revert a. induction k as [|k IH]; intros a Hs; [done|]. cbn.
  destruct (settled_step a final Hs) as [Hs' ->].
  by apply IH.
Qed.

Lemma execute_tasks_n_add (n m : nat) (a : AutonomousAgent.t) :
  execute_tasks_n (n + m) a = execute_tasks_n m (execute_tasks_n n a).
Proof. revert a. induction n as [|n IH]; intros a; cbn; [done|apply IH]. Qed.

Lemma executions_add (n m : nat) (a : AutonomousAgent.t) :
  executions tid (n + m) a
  = (executions tid n a + executions tid m (execute_tasks_n n a))%nat.
Proof.
  revert a. induction n as [|n IH]; intros a; cbn; [done|].
  rewrite IH. lia.
Qed.

Lemma runs_task_head (a : AutonomousAgent.t) (task0 : AgentTask.t)
    (rest : list AgentTask.t) :
  task_queue a = task0 :: rest →
  runs_task tid a = if decide (AgentTask.id task0 = tid) then 1%nat else 0%nat.
Proof. unfold runs_task. by intros ->. Qed.

Lemma exhausts_within (m : nat) (a : AutonomousAgent.t) (task : AgentTask.t) :
  (queue_budget a ≤ m)%nat →
  pending tid a task →
  AgentTask.retry_count task < AgentTask.max_retries task →
  ∃ n final,
    executions tid n a
    = Z.to_nat (AgentTask.max_retries task - AgentTask.retry_count task)
    ∧ settled tid (execute_tasks_n n a) final
    ∧ AgentTask.retry_count final = AgentTask.max_retries task
    ∧ AgentTask.max_retries final = AgentTask.max_retries task
    ∧ is_Some (AgentTask.error final)
    ∧ AgentTask.completed final = AgentTask.completed task
    ∧ ∀ k, (k < n)%nat →
        ∃ task', pending tid (execute_tasks_n k a) task'
          ∧ AgentTask.max_retries task' = AgentTask.max_retries task
          ∧ AgentTask.retry_count task ≤ AgentTask.retry_count task'
          ∧ AgentTask.retry_count task' < AgentTask.max_retries task.
Proof.
  revert a task. induction m as [|m IH]; intros a task Hm Hp Hrc.
  { destruct (pending_queued a task Hp) as [Hin _].
    apply (sum_list_with_in _ attempts_left) in Hin.
    pose proof (attempts_left_pos task). unfold queue_budget in Hm. lia. }
  destruct (task_queue a) as [|task0 rest] eqn:Ha.
  { destruct (pending_queued a task Hp) as [Hin _]. rewrite Ha in Hin.
    by apply elem_of_nil in Hin. }
  assert (Hnow : ∃ task', pending tid a task'
            ∧ AgentTask.max_retries task' = AgentTask.max_retries task
            ∧ AgentTask.retry_count task ≤ AgentTask.retry_count task'
            ∧ AgentTask.retry_count task' < AgentTask.max_retries task).
  { exists task. split_and!; [done|done|lia|done]. }
  destruct (decide (AgentTask.id task0 = tid)) as [Hid|Hid].
  - destruct (pending_head a task task0 rest Hp Ha Hid) as [-> Hrest].
    destruct (handler_fails (set_task_queue rest a) task Hid)
      as (m0 & msg & Hrun).
    destruct Hp as [_ Hc].
    destruct (decide (AgentTask.retry_count task + 1
                      < AgentTask.max_retries task)) as [Hlt|Hge].
    + pose proof (execute_tasks_retry a task rest m0 msg Ha Hrun Hlt)
        as Hstep.
      assert (Hp' : pending tid (execute_tasks a) (AgentTask.fail msg task)).
      { rewrite Hstep. split; [|done].
        apply Permutation_singleton_r.
        rewrite tasks_of_add_task, tasks_of_cons_same by done.
        cbn [task_queue set_task_queue set_metrics]. by rewrite Hrest. }
      assert (Hm' : (queue_budget (execute_tasks a) ≤ m)%nat).
      { rewrite Hstep, queue_budget_add_task.
        pose proof (attempts_left_fail msg task Hlt).
        unfold queue_budget in *. rewrite Ha in Hm.
        cbn [task_queue set_task_queue set_metrics sum_list_with] in *.
        lia. }
      destruct (IH _ _ Hm' Hp') as (n & final & He & Hs & H1 & H2 & H3 & H4 & Hk);
        [cbn; lia|].
      exists (S n), final. cbn [executions execute_tasks_n].
      rewrite (runs_task_head a task rest Ha), decide_True by done.
      rewrite He. cbn in *.
      split_and!; [lia|done..|].
      intros [|k] Hlt'; [done|].
      destruct (Hk k) as (task' & ? & ? & ? & ?); [lia|].
      exists task'. split_and!; [done|done|lia|done].
    + pose proof (execute_tasks_exhausted a task rest m0 msg Ha Hrun)
        as Hstep.
      exists 1%nat, (AgentTask.fail msg task).
      cbn [executions execute_tasks_n].
      rewrite (runs_task_head a task rest Ha), decide_True by done.
      rewrite Hstep by lia. cbn.
      split_and!; [lia| |lia|done|by eexists|done|].
      * split; [done|].
        cbn. rewrite tasks_of_app, Hc, tasks_of_cons_same by done. done.
      * intros [|k] Hlt'; [done|lia].
  - destruct (execute_tasks_other a task0 rest Ha Hid) as (Hq' & Hc' & Hb).
    destruct Hp as [Hq Hc].
    rewrite Ha, tasks_of_cons_other in Hq by done.
    rewrite Hq in Hq'. apply Permutation_singleton_r in Hq'.
    assert (Hp' : pending tid (execute_tasks a) task).
    { split; [done|]. by rewrite Hc'. }
    destruct (IH (execute_tasks a) task) as (n & final & He & Hrest);
      [lia|done|done|].
    exists (S n), final. cbn [executions execute_tasks_n].
    rewrite (runs_task_head a task0 rest Ha), decide_False by done.
    destruct Hrest as (Hs & H1 & H2 & H3 & H4 & Hk).
    split_and!; [done..|].
    intros [|k] Hlt'; [done|].
    apply Hk. lia.
Qed.


End retries.

(** ** Concrete agents *)



(** The same run, computed: three executions of the handler, after which
    the task stands in the completed tasks. *)
Example failing_task_three_runs :
  @executions always_failing "t1" 3 (probe_agent 3) = 3%nat
  ∧ task_queue (@execute_tasks_n always_failing 2 (probe_agent 3))
    = [AgentTask.mk "t1" "" "probe" ∅ NORMAL None 3 2 false None
         (Some "connection refused")]
  ∧ completed_tasks (@execute_tasks_n always_failing 3 (probe_agent 3))
    = [AgentTask.mk "t1" "" "probe" ∅ NORMAL None 3 3 false None
         (Some "connection refused")]
  ∧ task_queue (@execute_tasks_n always_failing 3 (probe_agent 3)) = [].
Proof. by split_and!. Qed.


(** The theorem at an agent object that was constructed and given a
    completed task, but not initialised. *)
Lemma learn_from_experience_needs_initialize_witness :
  completed_tasks unprepared_agent ≠ []
  ∧ decision_threshold unprepared_agent = None
  ∧ ∃ a',
      learn_from_experience unprepared_agent
      = Raised (AttributeError "decision_threshold") a'
      ∧ state a' = LEARNING
      ∧ learning_memory a' !! "success_rate" = Some (VAtom (ANum (num 1 1))).
Proof.
  assert (Hne : completed_tasks unprepared_agent ≠ []) by done.
  assert (Ht : decision_threshold unprepared_agent = None) by reflexivity.
  split; [exact Hne|]. split; [exact Ht|].
  destruct (learn_from_experience_needs_initialize unprepared_agent Hne Ht)
    as (a' & Hr & Hs & Hm & _).
  exists a'. split_and!.
  - exact Hr.
  - exact Hs.
  - rewrite Hm. do 3 f_equal; by apply Qc_is_canon.
Defined.


(** The learning update on that agent, computed: the histogram of error
    categories is stored as well. *)
Example learn_from_experience_reviewed :
  ∃ a',
    learn_from_experience reviewed_agent = Returned a'
    ∧ learning_memory a'
      = {[ "success_rate" := VAtom (ANum (num 8 10));
           "common_errors" := VDict {[ "timeout" := int_atom 2 ]} ]}
    ∧ state a' = IDLE.
Proof.
  eexists. split; [reflexivity|]. split; [|done].
  cbn [learning_memory set_state set_decision_threshold set_learning_memory
       completed_tasks reviewed_agent set_completed_tasks initialize].
  by rewrite insert_insert_ne.
Qed.


(** The theorem at [wellbeing_goal], whose keyword has a capital, and at
    [improvement_goal], for a new agent and the identifiers "0", "1",
    "2". *)
Lemma decompose_goal_optimize_witness :
  mentions_optimize (AgentGoal.description wellbeing_goal)
  ∧ ¬ mentions_optimize (AgentGoal.description improvement_goal)
  ∧ AgentTask.action
      <$> task_queue
            (set_goal decimal
               (AutonomousAgent.__init__ "nias_001" "NIAS" datetime_min)
               wellbeing_goal)
    = ["analyze_current_state"; "identify_bottlenecks";
       "implement_optimizations"]
  ∧ AgentTask.priority
      <$> task_queue
            (set_goal decimal
               (AutonomousAgent.__init__ "nias_001" "NIAS" datetime_min)
               wellbeing_goal)
    = [HIGH; HIGH; NORMAL]
  ∧ task_queue
      (set_goal decimal
         (AutonomousAgent.__init__ "nias_001" "NIAS" datetime_min)
         improvement_goal)
    = [].
Proof.
  assert (Hyes : mentions_optimize (AgentGoal.description wellbeing_goal)).
  { exists "", "Optimize", " company-wide emotional well-being".
    split; [reflexivity|].
    do 8 eexists. split; [reflexivity|]. unfold letter.
    split_and!; first [by left | by right]. }
  assert (Hno : ¬ mentions_optimize (AgentGoal.description improvement_goal)).
  { rewrite <- contains_optimize. vm_compute. discriminate. }
  split; [exact Hyes|]. split; [exact Hno|].
  destruct (decompose_goal_optimize decimal wellbeing_goal) as [Hthree _].
  destruct (Hthree Hyes) as (_ & Hactions & Hpriorities & _ & Hnew).
  destruct (decompose_goal_optimize decimal improvement_goal) as [_ Hnone].
  destruct (Hnone Hno) as (_ & Hsame).
  rewrite Hnew, Hsame. by split_and!.
Defined.

(** The goal of the repository's example run. *)
Example decompose_goal_example (uuid4 : nat → string) :
  AgentTask.action
    <$> task_queue
          (set_goal uuid4 (AutonomousAgent.__init__ "nias_001" "NIAS" datetime_min)
             (AgentGoal.mk "g1" "Optimize company-wide emotional well-being"
                ∅ None HIGH 0%Qc false))
  = ["analyze_current_state"; "identify_bottlenecks";
     "implement_optimizations"].
Proof. reflexivity. Qed.

(** ** Scaling a fleet *)

Section scale_fleet.
Context (isoformat : datetime → string).

Lemma pop_snoc {A : Type} (l : list A) (x : A) :
  AgentOrchestrator.pop (l ++ [x]) = Some (l, x).
Proof.
  unfold AgentOrchestrator.pop. rewrite reverse_snoc.
  by rewrite reverse_involutive.
Qed.

Lemma pop_nil {A : Type} : AgentOrchestrator.pop (@nil A) = None.
Proof. done. Qed.

Lemma shutdown_object (r : nat) (now : datetime) (s : AgentOrchestrator.t)
    (a : AutonomousAgent.t) :
  AgentOrchestrator.objects s !! r = Some a →
  AgentOrchestrator.objects (AgentOrchestrator.shutdown isoformat r now s)
  = <[ r := set_is_running false a ]> (AgentOrchestrator.objects s)
  ∧ AgentOrchestrator.agents (AgentOrchestrator.shutdown isoformat r now s)
    = AgentOrchestrator.agents s
  ∧ AgentOrchestrator.agent_pools
      (AgentOrchestrator.shutdown isoformat r now s)
    = AgentOrchestrator.agent_pools s.
Proof. unfold AgentOrchestrator.shutdown. by intros ->. Qed.

Lemma scale_down_step (n : nat) (agent_type : string) (now : datetime)
    (s : AgentOrchestrator.t) (pool : list nat) (r r0 : nat)
    (a : AutonomousAgent.t) :
  AgentOrchestrator.agent_pools s !! agent_type = Some (pool ++ [r]) →
  AgentOrchestrator.objects s !! r = Some a →
  AgentOrchestrator.agents s !! agent_id a = Some r0 →
  AgentOrchestrator.scale_down isoformat (S n) agent_type now s
  = AgentOrchestrator.scale_down isoformat n agent_type now
      (AgentOrchestrator.set_agents
         (delete (agent_id a) (AgentOrchestrator.agents s))
         (AgentOrchestrator.shutdown isoformat r now
            (AgentOrchestrator.set_agent_pools
               (<[ agent_type := pool ]> (AgentOrchestrator.agent_pools s))
               s))).
Proof.
  intros Hpool Ha Hr0. cbn [AgentOrchestrator.scale_down].
  rewrite Hpool, pop_snoc.
  set (s1 := AgentOrchestrator.set_agent_pools _ s).
  destruct (shutdown_object r now s1 a Ha) as (Ho & Hag & Hp).
  rewrite Ho, Hag.
  change (AgentOrchestrator.objects s1) with (AgentOrchestrator.objects s).
  change (AgentOrchestrator.agents s1) with (AgentOrchestrator.agents s).
  rewrite list_lookup_insert_eq by (by eapply lookup_lt_Some).
  cbn [agent_id set_is_running]. by rewrite Hr0.
Qed.

(** The scale-down loop on a pool whose last agents, [removed], have
    pairwise different identifiers [ids], all registered: it returns, the
    pool keeps the agents before them, the registry loses exactly [ids],
    and the removed agent objects, and only they, have their running flag
    cleared. *)
Lemma scale_down_removes (agent_type : string) (now : datetime)
    (removed : list nat) :
  ∀ (s : AgentOrchestrator.t) (keep : list nat) (ids : list string),
    AgentOrchestrator.agent_pools s !! agent_type = Some (keep ++ removed) →
    Forall2 (λ r aid, ident_of s r = Some aid) removed ids →
    NoDup ids →
    Forall (λ aid, is_Some (AgentOrchestrator.agents s !! aid)) ids →
    ∃ s',
      AgentOrchestrator.scale_down isoformat (length removed) agent_type now s
      = Returned s'
      ∧ AgentOrchestrator.agent_pools s'
        = <[ agent_type := keep ]> (AgentOrchestrator.agent_pools s)
      ∧ AgentOrchestrator.agents s'
        = foldr delete (AgentOrchestrator.agents s) ids
      ∧ (∀ r, r ∈ removed →
           is_running <$> AgentOrchestrator.objects s' !! r = Some false)
      ∧ (∀ r, r ∉ removed →
           AgentOrchestrator.objects s' !! r
           = AgentOrchestrator.objects s !! r)
      ∧ (∀ r, ident_of s' r = ident_of s r).
Proof.
  induction removed as [|r removed IH] using rev_ind;
    intros s keep ids Hpool Hids Hnodup Hreg.
  { apply Forall2_nil_inv_l in Hids as ->. exists s. cbn.
    rewrite app_nil_r in Hpool. split_and!; try done.
    - by rewrite insert_id.
    - intros r Hr. by apply elem_of_nil in Hr. }
  apply Forall2_app_inv_l in Hids as (ids' & ids1 & Hids' & Hid1 & ->).
  apply Forall2_cons_inv_l in Hid1 as (aid & ? & Haid & Hnil & ->).
  apply Forall2_nil_inv_l in Hnil as ->.
  apply NoDup_app in Hnodup as (Hnodup' & Hfresh & _).
  apply Forall_app in Hreg as [Hreg' Hreg1].
  apply Forall_singleton in Hreg1 as [r0 Hr0].
  unfold ident_of in Haid.
  destruct (AgentOrchestrator.objects s !! r) as [a|] eqn:Ha; [|done].
  injection Haid as Haid.
  rewrite length_app, Nat.add_1_r.
  rewrite (scale_down_step _ _ _ s (keep ++ removed) r r0 a)
    by (by rewrite <- ?app_assoc, ?Haid).
  set (s1 := AgentOrchestrator.set_agent_pools _ s).
  destruct (shutdown_object r now s1 a Ha) as (Ho & Hag & Hp).
  change (AgentOrchestrator.objects s1) with (AgentOrchestrator.objects s)
    in Ho.
  change (AgentOrchestrator.agents s1) with (AgentOrchestrator.agents s)
    in Hag.
  change (AgentOrchestrator.agent_pools s1)
    with (<[ agent_type := keep ++ removed ]>
            (AgentOrchestrator.agent_pools s)) in Hp.
  rewrite Haid.
  set (s3 := AgentOrchestrator.set_agents _ _).
  assert (Hobj3 : AgentOrchestrator.objects s3
                  = <[ r := set_is_running false a ]>
                      (AgentOrchestrator.objects s)) by exact Ho.
  assert (Hag3 : AgentOrchestrator.agents s3
                 = delete aid (AgentOrchestrator.agents s)) by done.
  assert (Hp3 : AgentOrchestrator.agent_pools s3
                = <[ agent_type := keep ++ removed ]>
                    (AgentOrchestrator.agent_pools s)) by exact Hp.
  assert (Hlt : (r < length (AgentOrchestrator.objects s))%nat)
    by (by eapply lookup_lt_Some).
  clearbody s3. clear s1 Ho Hag Hp.
  assert (Hident3 : ∀ r', ident_of s3 r' = ident_of s r').
  { intros r'. unfold ident_of. rewrite Hobj3.
    destruct (decide (r' = r)) as [->|Hne].
    - by rewrite list_lookup_insert_eq, Ha.
    - by rewrite list_lookup_insert_ne. }
  destruct (IH s3 keep ids') as (s' & Hrun & Hpool' & Hagents' & Hdown & Hsame & Hid').
  - by rewrite Hp3, lookup_insert_eq.
  - eapply Forall2_impl; [exact Hids'|]. intros r' i' Hi'. by rewrite Hident3.
  - done.
  - eapply Forall_impl; [|].
    + apply Forall_forall. intros i' Hi'.
      rewrite Forall_forall in Hreg'. exact (conj Hi' (Hreg' i' Hi')).
    + intros i' [Hi' Hsome]. cbn. rewrite Hag3.
      rewrite lookup_delete_ne; [done|].
      intros Heq. apply (Hfresh i'); [done|].
      rewrite Heq. apply list_elem_of_here.
  - exists s'. split; [exact Hrun|]. split_and!.
    + by rewrite Hpool', Hp3, insert_insert_eq.
    + by rewrite Hagents', Hag3, foldr_app.
    + intros r' Hr'. apply elem_of_app in Hr' as [Hr'|Hr'].
      * by apply Hdown.
      * apply list_elem_of_singleton in Hr' as ->.
        destruct (decide (r ∈ removed)) as [Hin|Hin]; [by apply Hdown|].
        rewrite Hsame, Hobj3, list_lookup_insert_eq by done. done.
    + intros r' Hr'. rewrite not_elem_of_app, list_elem_of_singleton in Hr'.
      destruct Hr' as [Hr1 Hr2].
      by rewrite Hsame, Hobj3, list_lookup_insert_ne.
    + intros r'. by rewrite Hid', Hident3.
Qed.

(** Scaling down a pool whose excess agents have pairwise different
    identifiers, all of them registered. *)
Theorem scale_fleet_down_removes (agent_type : string) (target_count : Z)
    (now : datetime) (s : AgentOrchestrator.t) (pool : list nat)
    (ids : list string) :
  AgentOrchestrator.agent_pools s !! agent_type = Some pool →
  0 ≤ target_count < Z.of_nat (length pool) →
  Forall2 (λ r aid, ident_of s r = Some aid)
    (drop (Z.to_nat target_count) pool) ids →
  NoDup ids →
  Forall (λ aid, is_Some (AgentOrchestrator.agents s !! aid)) ids →
  ∃ s',
    AgentOrchestrator.scale_fleet isoformat agent_type target_count now s
    = Returned s'
    ∧ AgentOrchestrator.agent_pools s' !! agent_type
      = Some (take (Z.to_nat target_count) pool)
    ∧ AgentOrchestrator.agents s'
      = foldr delete (AgentOrchestrator.agents s) ids
    ∧ (∀ r, r ∈ drop (Z.to_nat target_count) pool →
         is_running <$> AgentOrchestrator.objects s' !! r = Some false)
    ∧ (∀ r, r ∉ drop (Z.to_nat target_count) pool →
         AgentOrchestrator.objects s' !! r
         = AgentOrchestrator.objects s !! r).
Proof.
  intros Hpool Htarget Hids Hnodup Hreg.
  unfold AgentOrchestrator.scale_fleet. rewrite Hpool.
  change (default [] (Some pool)) with pool.
  rewrite (proj2 (Z.ltb_ge (Z.of_nat (length pool)) target_count)) by lia.
  rewrite (proj2 (Z.ltb_lt target_count (Z.of_nat (length pool)))) by lia.
  destruct (scale_down_removes agent_type now
              (drop (Z.to_nat target_count) pool) s
              (take (Z.to_nat target_count) pool) ids)
    as (s' & Hrun & Hpool' & Hagents & Hdown & Hsame & _);
    [by rewrite take_drop|done..|].
  exists s'. split_and!; try done.
  - rewrite <- Hrun. f_equal. rewrite length_drop. lia.
  - by rewrite Hpool', lookup_insert_eq.
Qed.

Lemma deploy_fleet_member_effect (agent_type : string) (cfg : gmap string Qc)
    (now : datetime) (s : AgentOrchestrator.t) (i : nat) :
  let aid := (agent_type ++ "_" ++ format_03d i)%string in
  let a := initialize (AutonomousAgent.__init__ aid agent_type now) cfg now in
  let r := length (AgentOrchestrator.objects s) in
  AgentOrchestrator.deploy_fleet_member agent_type cfg now s i
  = AgentOrchestrator.mk
      (<[ aid := r ]> (AgentOrchestrator.agents s))
      (<[ agent_type :=
            default [] (AgentOrchestrator.agent_pools s !! agent_type) ++ [r] ]>
         (AgentOrchestrator.agent_pools s))
      (AgentOrchestrator.objects s ++ [a])
      (AgentOrchestrator.files s)
      (AgentOrchestrator.loop_tasks s ++ [r]).
Proof.
  cbv zeta. unfold AgentOrchestrator.deploy_fleet_member,
    AgentOrchestrator.alloc, AgentOrchestrator.deploy_agent.
  cbn [AgentOrchestrator.objects AgentOrchestrator.set_objects].
  rewrite list_lookup_middle by done.
  cbn. by rewrite insert_app_r_alt, Nat.sub_diag by done.
Qed.

Lemma deploy_fleet_members (agent_type : string) (cfg : gmap string Qc)
    (now : datetime) (n : nat) :
  ∀ (i : nat) (s : AgentOrchestrator.t),
    let s' :=
      foldl (AgentOrchestrator.deploy_fleet_member agent_type cfg now) s
        (seq i n) in
    AgentOrchestrator.objects s'
    = AgentOrchestrator.objects s
        ++ (fleet_member agent_type cfg now <$> seq i n)
    ∧ default [] (AgentOrchestrator.agent_pools s' !! agent_type)
      = default [] (AgentOrchestrator.agent_pools s !! agent_type)
          ++ seq (length (AgentOrchestrator.objects s)) n.
Proof.
  induction n as [|n IH]; intros i s; cbn [seq foldl fmap list_fmap].
  { by rewrite !app_nil_r. }
  destruct (IH (S i)
              (AgentOrchestrator.deploy_fleet_member agent_type cfg now s i))
    as [Ho Hp].
  rewrite Ho, Hp, deploy_fleet_member_effect.
  cbn [AgentOrchestrator.objects AgentOrchestrator.agent_pools].
  rewrite lookup_insert_eq, length_app, Nat.add_1_r. cbn [default length].
  unfold id. by rewrite <- !app_assoc.
Qed.

(** Scaling up: the difference is deployed.  The new agents are numbered
    from 0, whatever agents the pool holds already. *)
Theorem scale_fleet_up_deploys (agent_type : string) (target_count : Z)
    (now : datetime) (s : AgentOrchestrator.t) :
  let pool := default [] (AgentOrchestrator.agent_pools s !! agent_type) in
  let difference := Z.to_nat (target_count - Z.of_nat (length pool)) in
  Z.of_nat (length pool) < target_count →
  ∃ s',
    AgentOrchestrator.scale_fleet isoformat agent_type target_count now s
    = Returned s'
    ∧ default [] (AgentOrchestrator.agent_pools s' !! agent_type)
      = pool ++ seq (length (AgentOrchestrator.objects s)) difference
    ∧ Z.of_nat
        (length (default [] (AgentOrchestrator.agent_pools s' !! agent_type)))
      = target_count
    ∧ AgentOrchestrator.objects s'
      = AgentOrchestrator.objects s
          ++ (fleet_member agent_type {[ "auto_scale" := 1%Qc ]} now
                <$> seq 0 difference).
Proof.
  cbv zeta. intros Hlt. unfold AgentOrchestrator.scale_fleet.
  rewrite (proj2 (Z.ltb_lt _ _) Hlt). eexists. split; [reflexivity|].
  unfold AgentOrchestrator.deploy_agent_fleet.
  destruct (deploy_fleet_members agent_type {[ "auto_scale" := 1%Qc ]} now
              (Z.to_nat
                 (target_count
                  - Z.of_nat
                      (length
                         (default []
                            (AgentOrchestrator.agent_pools s !! agent_type)))))
              0%nat s) as [Ho Hp].
  split_and!; [done| |done].
  rewrite Hp, length_app, length_seq. lia.
Qed.

(** C9 on the code.  A fleet of one agent of type "x" is deployed and
    scaled up to 3.  [scale_fleet] deploys the difference, 2 agents, but
    [deploy_agent_fleet] numbers them from 0 again: the first of them
    takes the identifier "x_000" of the agent already there and replaces
    it in the registry, which then holds 2 of the 3 agents of the pool.
    Scaling down from 3 to 1 removes the two new agents, and with them
    both identifiers: no agent of the type is left registered, although
    one is left in the pool.  Scaling down to 0 then raises [KeyError]. *)
Theorem scale_fleet_reuses_identifiers :
  let s1 :=
    AgentOrchestrator.deploy_agent_fleet "x" 1 ∅ datetime_min
      AgentOrchestrator.__init__ in
  ∃ s2 s3 s4,
    AgentOrchestrator.scale_fleet isoformat "x" 3 datetime_min s1
      = Returned s2
    ∧ AgentOrchestrator.agent_pools s2 !! "x" = Some [0; 1; 2]%nat
    ∧ agent_id <$> AgentOrchestrator.objects s2 = ["x_000"; "x_000"; "x_001"]
    ∧ AgentOrchestrator.agents s2 = {[ "x_000" := 1%nat; "x_001" := 2%nat ]}
    ∧ AgentOrchestrator.scale_fleet isoformat "x" 1 datetime_min s2
      = Returned s3
    ∧ AgentOrchestrator.agent_pools s3 !! "x" = Some [0%nat]
    ∧ AgentOrchestrator.agents s3 = ∅
    ∧ AgentOrchestrator.scale_fleet isoformat "x" 0 datetime_min s3
      = Raised (KeyError "x_000") s4
    ∧ AgentOrchestrator.agent_pools s4 !! "x" = Some [].
Proof.
  cbv zeta. eexists _, _, _.
  split; [vm_compute; reflexivity|].
  split; [vm_compute; reflexivity|].
  split; [vm_compute; reflexivity|].
  split; [vm_compute; reflexivity|].
  split; [vm_compute; reflexivity|].
  split; [vm_compute; reflexivity|].
  split; [vm_compute; reflexivity|].
  split; [vm_compute; reflexivity|].
  vm_compute; reflexivity.
Qed.

(** A fleet that one call of [deploy_agent_fleet] made scales down as
    C9 says: from 3 to 1 the last two agents leave pool and registry and
    are shut down, the first stays registered. *)
Example scale_fleet_three_to_one :
  let s1 :=
    AgentOrchestrator.deploy_agent_fleet "x" 3 ∅ datetime_min
      AgentOrchestrator.__init__ in
  ∃ s2,
    AgentOrchestrator.scale_fleet isoformat "x" 1 datetime_min s1
    = Returned s2
    ∧ AgentOrchestrator.agent_pools s2 !! "x" = Some [0%nat]
    ∧ AgentOrchestrator.agents s2 = {[ "x_000" := 0%nat ]}
    ∧ is_running <$> AgentOrchestrator.objects s2 = [false; false; false]
    ∧ dom (AgentOrchestrator.files s2)
      = {[ "data/agents/x_001_state.json"; "data/agents/x_002_state.json" ]}.
Proof.
  cbv zeta. eexists.
  split; [vm_compute; reflexivity|].
  split; [vm_compute; reflexivity|].
  split; [vm_compute; reflexivity|].
  split; [vm_compute; reflexivity|].
  vm_compute; reflexivity.
Qed.

End scale_fleet.

(** Scaling [fleet_of_three] down to 1. *)
Lemma scale_fleet_down_removes_witness :
  ∃ s',
    AgentOrchestrator.scale_fleet seconds_isoformat "x" 1 datetime_min
      fleet_of_three
    = Returned s'
    ∧ AgentOrchestrator.agent_pools s' !! "x" = Some [0%nat]
    ∧ AgentOrchestrator.agents s' = {[ "x_000" := 0%nat ]}
    ∧ is_running <$> AgentOrchestrator.objects s' !! 1%nat = Some false
    ∧ is_running <$> AgentOrchestrator.objects s' !! 2%nat = Some false.
Proof.
  destruct (scale_fleet_down_removes seconds_isoformat "x" 1 datetime_min
              fleet_of_three
              [0; 1; 2]%nat ["x_001"; "x_002"])
    as (s' & Hrun & Hpool & Hagents & Hdown & _).
  - reflexivity.
  - split; by vm_compute.
  - repeat constructor.
  - apply (bool_decide_unpack _). reflexivity.
  - repeat constructor; by eexists.
  - exists s'. split_and!.
    + exact Hrun.
    + exact Hpool.
    + rewrite Hagents. vm_compute. reflexivity.
    + apply Hdown. cbn. repeat constructor.
    + apply Hdown. cbn. repeat constructor.
Defined.

(** Scaling [fleet_of_three] up to 5: the two new agents are named as the
    first two already are. *)
Lemma scale_fleet_up_deploys_witness :
  ∃ s',
    AgentOrchestrator.scale_fleet seconds_isoformat "x" 5 datetime_min
      fleet_of_three
    = Returned s'
    ∧ default [] (AgentOrchestrator.agent_pools s' !! "x")
      = [0; 1; 2; 3; 4]%nat
    ∧ agent_id <$> AgentOrchestrator.objects s'
      = ["x_000"; "x_001"; "x_002"; "x_000"; "x_001"].
Proof.
  destruct (scale_fleet_up_deploys seconds_isoformat "x" 5 datetime_min
              fleet_of_three)
    as (s' & Hrun & Hpool & _ & Hobjects).
  - by vm_compute.
  - exists s'. split_and!.
    + exact Hrun.
    + rewrite Hpool. reflexivity.
    + rewrite Hobjects. reflexivity.
Defined.

(** ** Execution by the handler of the base class *)

Lemma execute_tasks_base (a : AutonomousAgent.t) (task : AgentTask.t)
    (rest : list AgentTask.t) :
  task_queue a = task :: rest →
  @execute_tasks base_handler a
  = set_metrics (incr_tasks_completed (metrics a))
      (set_completed_tasks (completed_tasks a ++ [base_done task])
         (set_task_queue rest a)).
Proof.
  intros Hq. unfold execute_tasks. rewrite Hq. reflexivity.
Qed.

(** With the handler of the base class, [n] steps of execution take the
    first [n] tasks of the queue, in the order of the queue, and append
    them to the completed tasks, each marked completed and with the result
    of that handler; the counter of completed tasks grows by their number.
    The state stays as it is as long as the steps find a task; a step
    that finds the queue empty sets it to [IDLE]. *)
Theorem execute_tasks_base_drains (n : nat) (a : AutonomousAgent.t) :
  let a' := @execute_tasks_n base_handler n a in
  task_queue a' = drop n (task_queue a)
  ∧ completed_tasks a'
    = completed_tasks a ++ (base_done <$> take n (task_queue a))
  ∧ tasks_completed (metrics a')
    = tasks_completed (metrics a) + Z.of_nat (n `min` length (task_queue a))
  ∧ ((n ≤ length (task_queue a))%nat → state a' = state a)
  ∧ ((length (task_queue a) < n)%nat → state a' = IDLE).
Proof.
  revert a. induction n as [|n IH]; intros a; cbn zeta.
  - cbn. rewrite drop_0, app_nil_r. repeat split; try lia.
  - cbn [execute_tasks_n]. destruct (task_queue a) as [|task rest] eqn:Hq.
    + specialize (IH (@execute_tasks base_handler a)). cbn zeta in IH.
      unfold execute_tasks in IH |- *. rewrite Hq in IH |- *. cbn in IH |- *.
      rewrite Hq in IH. rewrite drop_nil, take_nil in IH. cbn in IH.
      destruct IH as (IH1 & IH2 & IH3 & IH4 & IH5).
      repeat split; try done.
      * rewrite IH3. destruct n; cbn; lia.
      * intros ?; lia.
      * intros _. destruct n as [|n]; [apply IH4; cbn; lia|].
        apply IH5. cbn. lia.
    + rewrite (execute_tasks_base a task rest Hq).
      specialize (IH (set_metrics (incr_tasks_completed (metrics a))
                        (set_completed_tasks
                           (completed_tasks a ++ [base_done task])
                           (set_task_queue rest a)))).
      cbn zeta in IH. cbn in IH.
      destruct IH as (IH1 & IH2 & IH3 & IH4 & IH5).
      cbn [drop take fmap list_fmap length].
      repeat split.
      * exact IH1.
      * rewrite IH2. rewrite <- app_assoc. reflexivity.
      * rewrite IH3. cbn. lia.
      * intros Hn. cbn in Hn. apply IH4. lia.
      * intros Hn. cbn in Hn. apply IH5. lia.
Qed.

(** ** The histogram of the learning update *)

Lemma category_of_before_colon (msg k : string) :
  category_of k msg = true ↔ before_colon msg = k.
Proof.
  revert k. induction msg as [|c msg IH]; intros [|c' k];
    cbn [category_of before_colon]; try done.
  - destruct (Ascii.eqb_spec c ":") as [->|Hc]; done.
  - destruct (Ascii.eqb_spec c' c) as [->|Hne].
    + destruct (Ascii.eqb_spec c ":") as [->|Hc]; cbn [andb negb]; [done|].
      rewrite IH. split; [by intros ->|by intros [= ->]].
    + cbn [andb]. split; [done|].
      destruct (Ascii.eqb c ":"); [done|]. by intros [= -> _].
Qed.

Lemma has_error_type_truthy (k : string) (task : AgentTask.t) :
  has_error_type k task
  ↔ AgentTask.error_truthy task = true
    ∧ before_colon <$> AgentTask.error task = Some k.
Proof.
  unfold has_error_type. rewrite error_truthy_true. unfold error_text.
  destruct (AgentTask.error task) as [msg|]; cbn; [|by intuition].
  rewrite category_of_before_colon. split.
  - by intros [? ->].
  - by intros [? [= ->]].
Qed.

Lemma count_error_lookup (h : gmap string Z) (task : AgentTask.t) (k : string) :
  default 0 (count_error h task !! k)
  = default 0 (h !! k) + (if decide (has_error_type k task) then 1 else 0).
Proof.
  destruct (decide (has_error_type k task)) as [Hk|Hn];
    rewrite has_error_type_truthy in *; unfold count_error.
  - destruct Hk as [Ht Hk].
    destruct (AgentTask.error task) as [msg|]; [|done].
    rewrite Ht. injection Hk as <-. rewrite lookup_insert_eq. cbn. lia.
  - destruct (AgentTask.error task) as [msg|] eqn:He; [|lia].
    destruct (AgentTask.error_truthy task) eqn:Ht; [|lia].
    rewrite lookup_insert_ne; [lia|].
    intros Heq. apply Hn. split; [done|]. cbn. by rewrite Heq.
Qed.

Lemma count_error_positive (h : gmap string Z) (task : AgentTask.t) :
  map_Forall (λ _ n, 0 < n) h → map_Forall (λ _ n, 0 < n) (count_error h task).
Proof.
  intros Hh. unfold count_error.
  destruct (AgentTask.error task) as [msg|]; [|done].
  destruct (AgentTask.error_truthy task); [|done].
  apply map_Forall_insert_2; [|done].
  destruct (h !! before_colon msg) as [n|] eqn:Hn; cbn; [|lia].
  apply Hh in Hn. lia.
Qed.

Lemma common_errors_count (tasks : list AgentTask.t) :
  ∀ (h : gmap string Z) (k : string),
    default 0 (foldl count_error h tasks !! k)
    = default 0 (h !! k) + Z.of_nat (errors_of_type k tasks).
Proof.
  induction tasks as [|task tasks IH]; intros h k; cbn [foldl].
  - unfold errors_of_type. cbn. lia.
  - rewrite IH, count_error_lookup. unfold errors_of_type.
    rewrite filter_cons.
    destruct (decide (has_error_type k task)); cbn [length]; lia.
Qed.

Lemma common_errors_positive (tasks : list AgentTask.t) :
  ∀ h : gmap string Z,
    map_Forall (λ _ n, 0 < n) h →
    map_Forall (λ _ n, 0 < n) (foldl count_error h tasks).
Proof.
  induction tasks as [|task tasks IH]; intros h Hh; cbn; [done|].
  apply IH, count_error_positive, Hh.
Qed.

(** A learning update that returns has stored, under [common_errors], the
    histogram of the error categories of the completed tasks: a category
    is a key of it exactly if some completed task has an error description
    of that category that is not empty, and its entry is the number of
    these tasks.  The update changes no other entry of the learning memory
    than [common_errors] and [success_rate]. *)
Theorem learn_from_experience_histogram (a a' : AutonomousAgent.t) :
  learn_from_experience a = Returned a' →
  ∃ common_errors : gmap string Z,
    learning_memory a' !! "common_errors"
    = Some (VDict (int_atom <$> common_errors))
    ∧ (∀ k n, common_errors !! k = Some n ↔
         n = Z.of_nat (errors_of_type k (completed_tasks a)) ∧ 0 < n)
    ∧ (∀ key, key ≠ "common_errors" → key ≠ "success_rate" →
         learning_memory a' !! key = learning_memory a !! key).
Proof.
  unfold learn_from_experience. cbn [completed_tasks set_state].
  destruct (completed_tasks a) as [|task tasks] eqn:Hc; [done|].
  cbn [decision_threshold set_learning_memory set_state].
  destruct (decision_threshold a); [|done].
  intros [= <-].
  cbn [learning_memory set_state set_decision_threshold set_learning_memory].
  exists (foldl count_error ∅ (task :: tasks)). split; [|split].
  - rewrite lookup_insert_eq. reflexivity.
  - intros k n.
    pose proof (common_errors_count (task :: tasks) ∅ k) as Hcount.
    pose proof (common_errors_positive (task :: tasks) ∅ (map_Forall_empty _))
      as Hpos.
    rewrite lookup_empty in Hcount. cbn [default] in Hcount.
    split.
    + intros Hk. rewrite Hk in Hcount. apply Hpos in Hk.
      unfold default in Hcount. cbn [from_option id] in Hcount.
      split; [lia|done].
    + intros [-> Hn].
      destruct (foldl count_error ∅ (task :: tasks) !! k) as [m|] eqn:Hm;
        unfold default in Hcount; cbn [from_option id] in Hcount;
        [f_equal; lia|lia].
  - intros key H1 H2. rewrite !lookup_insert_ne by done. reflexivity.
Qed.

(** The theorem at [reviewed_agent]: two of its completed tasks have an
    error of the category "timeout", none one of the category
    "unknown". *)
Lemma learn_from_experience_histogram_witness :
  ∃ a',
    learn_from_experience reviewed_agent = Returned a'
    ∧ ∃ common_errors : gmap string Z,
        learning_memory a' !! "common_errors"
        = Some (VDict (int_atom <$> common_errors))
        ∧ common_errors !! "timeout" = Some 2
        ∧ common_errors !! "unknown" = None.
Proof.
  assert (Hret : ∃ a', learn_from_experience reviewed_agent = Returned a')
    by (eexists; vm_compute; reflexivity).
  destruct Hret as [a' Hr].
  destruct (learn_from_experience_histogram reviewed_agent a' Hr)
    as (common_errors & Hm & Hk & _).
  exists a'. split; [exact Hr|]. exists common_errors.
  split; [exact Hm|]. split.
  - apply Hk. split; [vm_compute; reflexivity|lia].
  - destruct (common_errors !! "unknown") as [n|] eqn:Hn; [|reflexivity].
    apply Hk in Hn as [-> Hn]. vm_compute in Hn. discriminate.
Defined.

(** ** The range of the decision threshold *)

Lemma this_mult (x y : Qc) : (this (x * y)%Qc == this x * this y)%Q.
Proof. cbn. apply Qred_correct. Qed.

Lemma this_num (n : Z) (d : positive) : (this (num n d) == n # d)%Q.
Proof. unfold num. cbn. apply Qred_correct. Qed.

(** A learning update that returns keeps a positive threshold of at most
    0.95 positive and at most 0.95, and changes it by a factor between 0.9
    and 1.05. *)
Theorem learn_from_experience_threshold_range (a a' : AutonomousAgent.t)
    (threshold : Qc) :
  learn_from_experience a = Returned a' →
  decision_threshold a = Some threshold →
  (0 < threshold)%Qc →
  (threshold ≤ num 95 100)%Qc →
  ∃ threshold',
    decision_threshold a' = Some threshold'
    ∧ (0 < threshold')%Qc
    ∧ (threshold' ≤ num 95 100)%Qc
    ∧ (threshold * num 9 10 ≤ threshold')%Qc
    ∧ (threshold' ≤ threshold * num 105 100)%Qc.
Proof.
  unfold learn_from_experience. cbn [completed_tasks set_state].
  destruct (completed_tasks a) as [|task tasks]; [done|].
  cbn [decision_threshold set_learning_memory set_state].
  intros Hl Ht. rewrite Ht in Hl. injection Hl as <-.
  cbn [decision_threshold set_state set_decision_threshold
       set_learning_memory].
  eexists. split; [reflexivity|]. clear Ht.
  generalize dependent threshold. intros dt.
  unfold Qclt, Qcle. intros Hpos Hcap.
  pose proof (this_mult dt (num 9 10)) as H9.
  pose proof (this_mult dt (num 105 100)) as H105.
  pose proof (this_num 9 10) as N9.
  pose proof (this_num 105 100) as N105.
  pose proof (this_num 95 100) as N95.
  change (this 0%Qc) with 0%Q in *.
  destruct (bool_decide _).
  - rewrite H9, H105, N9, N105 in *. rewrite N95 in *. lra.
  - unfold py_min. case_bool_decide as Hmin; unfold Qclt in Hmin.
    + rewrite H9, H105, N9, N105 in *. rewrite N95 in *. lra.
    + rewrite H9, H105, N9, N105 in *. rewrite N95 in *. lra.
Qed.

(** The theorem at [reviewed_agent], whose threshold is 0.8. *)
Lemma learn_from_experience_threshold_range_witness :
  decision_threshold reviewed_agent = Some (num 8 10)
  ∧ (0 < num 8 10)%Qc
  ∧ (num 8 10 ≤ num 95 100)%Qc
  ∧ ∃ a' threshold',
      learn_from_experience reviewed_agent = Returned a'
      ∧ decision_threshold a' = Some threshold'
      ∧ (num 72 100 ≤ threshold')%Qc
      ∧ (threshold' ≤ num 84 100)%Qc.
Proof.
  assert (Hret : ∃ a', learn_from_experience reviewed_agent = Returned a')
    by (eexists; vm_compute; reflexivity).
  destruct Hret as [a' Hr].
  assert (Ht : decision_threshold reviewed_agent = Some (num 8 10))
    by reflexivity.
  assert (Hpos : (0 < num 8 10)%Qc) by reflexivity.
  assert (Hcap : (num 8 10 ≤ num 95 100)%Qc) by (by vm_compute).
  split; [exact Ht|]. split; [exact Hpos|]. split; [exact Hcap|].
  destruct (learn_from_experience_threshold_range reviewed_agent a' (num 8 10)
              Hr Ht Hpos Hcap)
    as (threshold' & Ht' & _ & _ & Hlow & Hhigh).
  exists a', threshold'. split; [exact Hr|]. split; [exact Ht'|].
  replace (num 72 100) with (num 8 10 * num 9 10)%Qc
    by (by apply Qc_is_canon).
  replace (num 84 100) with (num 8 10 * num 105 100)%Qc
    by (by apply Qc_is_canon).
  split; [exact Hlow|exact Hhigh].
Defined.

(** ** Knowledge received twice *)

Lemma receive_knowledge_eq (a : AutonomousAgent.t)
    (knowledge : gmap string value) :
  receive_knowledge a knowledge
  = set_learning_memory (learning_memory a ∪ knowledge) a.
Proof.
  rewrite <- receive_knowledge_union. reflexivity.
Qed.

(** Receiving knowledge twice is receiving the union of the two, the
    first preferred; receiving the same knowledge again, or the agent's
    own memory, changes nothing; and what the first knowledge gave to a
    key that the agent did not have, the second does not take away. *)
Theorem receive_knowledge_composes (a : AutonomousAgent.t)
    (k1 k2 : gmap string value) :
  receive_knowledge (receive_knowledge a k1) k2
  = receive_knowledge a (k1 ∪ k2)
  ∧ receive_knowledge (receive_knowledge a k1) k1 = receive_knowledge a k1
  ∧ receive_knowledge a (learning_memory a) = a
  ∧ (∀ key v, learning_memory a !! key = None → k1 !! key = Some v →
       learning_memory (receive_knowledge (receive_knowledge a k1) k2) !! key
       = Some v).
Proof.
  rewrite !receive_knowledge_eq. cbn [learning_memory set_learning_memory].
  repeat split.
  - unfold set_learning_memory. cbn. by rewrite (assoc_L (∪)).
  - unfold set_learning_memory. cbn.
    by rewrite <- (assoc_L (∪)), (idemp_L (∪)).
  - rewrite (idemp_L (∪)). by destruct a.
  - intros key v Ha Hk. apply lookup_union_Some_l.
    rewrite lookup_union_r by done. done.
Qed.

(** ** Planning *)

#[global] Instance mentions_optimize_dec (description : string) :
  Decision (mentions_optimize description).
Proof.
  destruct (contains "optimize" (lower description)) eqn:Hc.
  - left. by apply contains_optimize.
  - right. rewrite <- contains_optimize. congruence.
Defined.

#[global] Instance wants_tasks_dec (m : Metrics) (goal : AgentGoal.t) :
  Decision (wants_tasks m goal).
Proof. unfold wants_tasks. apply _. Defined.

Lemma metrics_dict_numeric (m : Metrics) (key : string) (v : value) :
  metrics_dict m !! key = Some v → isinstance_number v = true.
Proof.
  unfold metrics_dict. intros Hv.
  repeat (apply lookup_insert_Some in Hv as [[_ <-]|[_ Hv]]; [reflexivity|]).
  apply lookup_singleton_Some in Hv as [_ <-]. reflexivity.
Qed.

Lemma metrics_dict_comparable (m : Metrics) (criteria : gmap string value) :
  map_Forall (comparable_item (metrics_dict m)) criteria.
Proof.
  intros criterion target _. unfold comparable_item, comparable.
  destruct (metrics_dict m !! criterion) as [v|] eqn:Hv; [|done].
  destruct (as_number target); [|done].
  by apply metrics_dict_numeric in Hv.
Qed.

Lemma evaluate_progress_metrics (m : Metrics) (goal : AgentGoal.t) :
  AgentGoal.evaluate_progress goal (metrics_dict m) = inr (progress_on m goal).
Proof.
  unfold progress_on, AgentGoal.evaluate_progress. cbn zeta.
  destruct (decide (AgentGoal.success_criteria goal = ∅)); [done|].
  rewrite count_met_map.
  rewrite decide_True by apply metrics_dict_comparable. done.
Qed.

Lemma add_tasks_fields (tasks : list AgentTask.t) (a : AutonomousAgent.t) :
  foldl add_task a tasks
  = set_task_queue (task_queue (foldl add_task a tasks)) a.
Proof.
  revert a. induction tasks as [|task tasks IH]; intros a; cbn [foldl].
  - by destruct a.
  - rewrite IH. unfold add_task at 2 4. reflexivity.
Qed.

Lemma decompose_goal_length (uuid4 : nat → string) (goal : AgentGoal.t) :
  length (decompose_goal uuid4 goal)
  = if decide (mentions_optimize (AgentGoal.description goal)) then 3%nat
    else 0%nat.
Proof.
  unfold decompose_goal.
  destruct (contains _ _) eqn:Hc.
  - rewrite decide_True; [done|]. by apply contains_optimize.
  - rewrite decide_False; [done|]. rewrite <- contains_optimize. congruence.
Qed.

Lemma reviewed_goal_completed (m : Metrics) (goal : AgentGoal.t) :
  AgentGoal.completed goal = true → reviewed_goal m goal = goal.
Proof. unfold reviewed_goal. by intros ->. Qed.

Lemma reviewed_goal_open (m : Metrics) (goal : AgentGoal.t) :
  AgentGoal.completed goal = false →
  reviewed_goal m goal = AgentGoal.set_progress (progress_on m goal) goal.
Proof.
  unfold reviewed_goal, AgentGoal.set_progress. by intros ->.
Qed.

Lemma review_goals_returns (rest : list AgentGoal.t) :
  ∀ (uuid4 : nat → string) (reviewed : list AgentGoal.t)
    (self : AutonomousAgent.t),
    ∃ self',
      review_goals uuid4 reviewed rest self = Returned self'
      ∧ self' = set_task_queue (task_queue self') (set_goals (goals self') self)
      ∧ (goals self = reviewed ++ rest →
         goals self' = reviewed ++ (reviewed_goal (metrics self) <$> rest))
      ∧ length (task_queue self')
        = (length (task_queue self)
           + 3 * length (filter (wants_tasks (metrics self)) rest))%nat.
Proof.
  induction rest as [|goal rest IH]; intros uuid4 reviewed self;
    cbn [review_goals].
  - exists self. split; [done|]. split; [by destruct self|]. split.
    + intros ->. reflexivity.
    + cbn. lia.
  - rewrite filter_cons. cbn [fmap list_fmap].
    destruct (AgentGoal.completed goal) eqn:Hc.
    + destruct (IH uuid4 (reviewed ++ [goal]) self)
        as (self' & -> & Hf & Hg & Hl).
      exists self'. split; [done|]. split; [done|]. split.
      * intros Hgoals. rewrite Hg by (by rewrite <- app_assoc).
        rewrite reviewed_goal_completed by done. by rewrite <- app_assoc.
      * rewrite Hl. rewrite decide_False; [done|]. intros [? _]. congruence.
    + rewrite evaluate_progress_metrics.
      rewrite (reviewed_goal_open _ _ Hc).
      set (goal' :=
             AgentGoal.set_progress (progress_on (metrics self) goal) goal).
      set (self1 := set_goals (reviewed ++ goal' :: rest) self).
      case_bool_decide as Hp.
      * set (self2 := foldl add_task self1 (decompose_goal uuid4 goal')).
        destruct (IH (λ n, uuid4 (length (decompose_goal uuid4 goal') + n)%nat)
                    (reviewed ++ [goal']) self2)
          as (self' & -> & Hf & Hg & Hl).
        assert (Hself2 : self2 = set_task_queue (task_queue self2) self1)
          by apply add_tasks_fields.
        assert (Hm : metrics self2 = metrics self) by by rewrite Hself2.
        assert (Hg2 : goals self2 = reviewed ++ goal' :: rest)
          by by rewrite Hself2.
        exists self'. split; [done|]. split; [|split].
        -- rewrite Hf at 1. rewrite Hself2. reflexivity.
        -- intros _. rewrite Hg by (by rewrite Hg2, <- app_assoc).
           rewrite Hm. by rewrite <- app_assoc.
        -- rewrite Hl, Hm.
           assert (length (task_queue self2)
                   = (length (task_queue self1)
                      + length (decompose_goal uuid4 goal'))%nat) as ->.
           { unfold self2. rewrite add_tasks_perm. by rewrite length_app. }
           rewrite decompose_goal_length. cbn [task_queue self1 set_goals].
           change (AgentGoal.description goal')
             with (AgentGoal.description goal).
           destruct (decide (mentions_optimize _)) as [Hopt|Hopt].
           ++ rewrite decide_True by done. cbn [length]. lia.
           ++ rewrite decide_False; [lia|]. by intros (_ & _ & ?).
      * destruct (IH uuid4 (reviewed ++ [goal']) self1)
          as (self' & -> & Hf & Hg & Hl).
        exists self'. split; [done|]. split; [|split].
        -- rewrite Hf at 1. reflexivity.
        -- intros _. rewrite Hg by (by cbn; rewrite <- app_assoc).
           cbn [metrics self1 set_goals]. by rewrite <- app_assoc.
        -- rewrite Hl. cbn [metrics task_queue self1 set_goals].
           rewrite decide_False; [lia|]. intros (_ & ? & _). done.
Qed.

Lemma progress_on_reviewed (m m' : Metrics) (goal : AgentGoal.t) :
  progress_on m (reviewed_goal m' goal) = progress_on m goal.
Proof.
  unfold reviewed_goal, progress_on. by destruct (AgentGoal.completed goal).
Qed.

Lemma reviewed_goal_idemp (m : Metrics) (goal : AgentGoal.t) :
  reviewed_goal m (reviewed_goal m goal) = reviewed_goal m goal.
Proof.
  pose proof (progress_on_reviewed m m goal) as Hp.
  unfold reviewed_goal in *.
  destruct (AgentGoal.completed goal) eqn:Hc; [by rewrite Hc|].
  cbn in *. by rewrite Hp.
Qed.

Lemma wants_tasks_reviewed (m : Metrics) (goals : list AgentGoal.t) :
  length (filter (wants_tasks m) (reviewed_goal m <$> goals))
  = length (filter (wants_tasks m) goals).
Proof.
  induction goals as [|goal goals IH]; [done|].
  cbn [fmap list_fmap]. rewrite !filter_cons.
  assert (wants_tasks m (reviewed_goal m goal) ↔ wants_tasks m goal) as Hw.
  { unfold wants_tasks. rewrite progress_on_reviewed.
    unfold reviewed_goal. destruct (AgentGoal.completed goal) eqn:Hc.
    - rewrite Hc. reflexivity.
    - cbn. reflexivity. }
  destruct (decide (wants_tasks m goal)) as [Hg|Hg].
  - rewrite decide_True by by apply Hw. cbn [length]. by rewrite <- IH.
  - rewrite decide_False by (by rewrite Hw). apply IH.
Qed.

(** Planning returns on every agent: the metrics of an agent are numbers,
    so that no comparison with a target raises.  It sets the state to
    [PLANNING], gives every goal that is not completed its progress, marks
    no goal completed, and adds three tasks for every goal that is not
    completed, has a progress below 1 and mentions the keyword.  Planning
    again does not change the goals, and adds the same number of tasks
    once more. *)
Theorem plan_next_action_reviews (uuid4 uuid4' : nat → string)
    (a : AutonomousAgent.t) :
  let wanting := length (filter (wants_tasks (metrics a)) (goals a)) in
  ∃ a' a'',
    plan_next_action uuid4 a = Returned a'
    ∧ a' = set_task_queue (task_queue a')
             (set_goals (goals a') (set_state PLANNING a))
    ∧ goals a' = reviewed_goal (metrics a) <$> goals a
    ∧ AgentGoal.completed <$> goals a' = AgentGoal.completed <$> goals a
    ∧ length (task_queue a') = (length (task_queue a) + 3 * wanting)%nat
    ∧ plan_next_action uuid4' a' = Returned a''
    ∧ goals a'' = goals a'
    ∧ length (task_queue a'') = (length (task_queue a) + 6 * wanting)%nat.
Proof.
  intros wanting. unfold plan_next_action.
  destruct (review_goals_returns (goals a) uuid4 [] (set_state PLANNING a))
    as (a' & Hr & Hf & Hg & Hl).
  specialize (Hg eq_refl). cbn in Hg, Hl.
  destruct (review_goals_returns (goals a') uuid4' [] (set_state PLANNING a'))
    as (a'' & Hr' & Hf' & Hg' & Hl').
  specialize (Hg' eq_refl). cbn in Hg', Hl'.
  assert (Hm : metrics a' = metrics a) by by rewrite Hf.
  exists a', a''. split; [done|]. split; [done|]. split; [done|].
  split; [|split; [done|split; [done|split]]].
  - rewrite Hg. rewrite <- list_fmap_compose. apply list_fmap_ext.
    intros _ goal _. cbn. unfold reviewed_goal.
    by destruct (AgentGoal.completed goal) eqn:?.
  - rewrite Hg', Hm, Hg. rewrite <- list_fmap_compose.
    apply list_fmap_ext. intros _ goal _. apply reviewed_goal_idemp.
  - rewrite Hl', Hl, Hm, Hg, wants_tasks_reviewed. fold wanting. lia.
Qed.

(** ** The loop of an agent *)

Lemma receive_knowledge_own (a : AutonomousAgent.t) :
  receive_knowledge a (learning_memory a) = a.
Proof. rewrite receive_knowledge_eq, (idemp_L (∪)). by destruct a. Qed.

Lemma receive_knowledge_again (a : AutonomousAgent.t) (k : gmap string value) :
  receive_knowledge (receive_knowledge a k) k = receive_knowledge a k.
Proof.
  rewrite !receive_knowledge_eq. unfold set_learning_memory. cbn.
  by rewrite <- (assoc_L (∪)), (idemp_L (∪)).
Qed.

(** The store after the knowledge [k] went to the agents [peers]. *)
Lemma share_all_lookup (k : gmap string value) (peers : list nat) :
  ∀ (objects : list AutonomousAgent.t) (i : nat),
    foldl (λ objects peer, alter (λ agent, receive_knowledge agent k) peer objects)
      objects peers !! i
    = (if decide (i ∈ peers) then (λ agent, receive_knowledge agent k) <$> objects !! i
       else objects !! i).
Proof.
  induction peers as [|peer peers IH]; intros objects i; cbn [foldl].
  - rewrite decide_False by apply not_elem_of_nil. done.
  - rewrite IH. rewrite list_lookup_alter.
    destruct (decide (peer = i)) as [->|Hne].
    + rewrite (decide_True (P := i ∈ i :: peers)) by apply list_elem_of_here.
      destruct (decide (i ∈ peers)); [|done].
      destruct (objects !! i); cbn; [|done]. by rewrite receive_knowledge_again.
    + destruct (decide (i ∈ peers)) as [Hin|Hin].
      * rewrite decide_True by by apply list_elem_of_further. done.
      * rewrite decide_False; [done|]. intros [?|?]%elem_of_cons; done.
Qed.

Lemma share_all_length (k : gmap string value) (peers : list nat) :
  ∀ objects : list AutonomousAgent.t,
    length
      (foldl (λ objects peer, alter (λ agent, receive_knowledge agent k) peer objects)
         objects peers)
    = length objects.
Proof.
  induction peers as [|peer peers IH]; intros objects; cbn [foldl]; [done|].
  by rewrite IH, length_alter.
Qed.

Lemma share_knowledge_cases (r : nat) (peers : list nat) :
  ∀ (objects : list AutonomousAgent.t) (self : AutonomousAgent.t),
    objects !! r = Some self →
    share_knowledge r peers objects
    = match peers, py_gt_number (shared_rate self) (num 9 10) with
      | [], _ => Returned objects
      | _ :: _, inl e => Raised e objects
      | _ :: _, inr true =>
          Returned
            (foldl (λ objects peer,
                      alter (λ agent, receive_knowledge agent (learning_memory self))
                        peer objects)
               objects peers)
      | _ :: _, inr false => Returned objects
      end.
Proof.
  induction peers as [|peer peers IH]; intros objects self Hr; [done|].
  cbn [share_knowledge]. rewrite Hr. fold (shared_rate self).
  destruct (py_gt_number (shared_rate self) (num 9 10)) as [e|[]] eqn:Hgt;
    [done| |].
  - erewrite IH; last first.
    { rewrite list_lookup_alter. destruct (decide (peer = r)) as [->|]; [|done].
      rewrite Hr. cbn. by rewrite receive_knowledge_own. }
    rewrite Hgt. by destruct peers.
  - rewrite (IH _ _ Hr), Hgt. by destruct peers.
Qed.

Lemma update_state_fields (a : AutonomousAgent.t) :
  update_state a = set_state (state (update_state a)) a.
Proof.
  unfold update_state. repeat case_match; cbn; by destruct a.
Qed.

Lemma update_state_idle (a : AutonomousAgent.t) :
  state (update_state a) = IDLE → task_queue a = [] ∧ goals a = [].
Proof.
  unfold update_state.
  destruct (decide (state a = ERROR)) as [He|He]; [congruence|].
  destruct (bool_decide (task_queue a ≠ []) && bool_decide (state a = IDLE))
    eqn:H1; [done|].
  destruct (bool_decide (task_queue a = []) && bool_decide (goals a ≠ []))
    eqn:H2; [done|].
  destruct (should_learn a); [done|]. intros Hs.
  rewrite (bool_decide_eq_true_2 _ Hs), andb_true_r in H1.
  apply bool_decide_eq_false_1 in H1.
  assert (Hq : task_queue a = []).
  { destruct (task_queue a); [done|]. exfalso. by apply H1. }
  rewrite (bool_decide_eq_true_2 _ Hq), andb_true_l in H2.
  apply bool_decide_eq_false_1 in H2.
  split; [done|]. destruct (goals a); [done|]. exfalso. by apply H2.
Qed.

Lemma update_state_waiting (a : AutonomousAgent.t) :
  state a ≠ IDLE → task_queue a ≠ [] → should_learn a = false →
  update_state a = a.
Proof.
  intros Hs Hq Hl. unfold update_state.
  destruct (decide (state a = ERROR)); [done|].
  rewrite (bool_decide_eq_false_2 _ Hs), andb_false_r.
  rewrite (bool_decide_eq_false_2 _ Hq), andb_false_l.
  by rewrite Hl.
Qed.

Lemma plan_next_action_no_goals (uuid4 : nat → string) (a : AutonomousAgent.t) :
  goals a = [] → plan_next_action uuid4 a = Returned (set_state PLANNING a).
Proof. intros Hg. unfold plan_next_action. by rewrite Hg. Qed.

(** What [learn_from_experience] leaves as it is, however it ends. *)
Lemma learn_from_experience_keeps (a : AutonomousAgent.t) :
  let a' := after (learn_from_experience a) in
  goals a' = goals a
  ∧ task_queue a' = task_queue a
  ∧ completed_tasks a' = completed_tasks a
  ∧ is_running a' = is_running a
  ∧ metrics a' = metrics a
  ∧ start_time a' = start_time a
  ∧ max_autonomous_days a' = max_autonomous_days a.
Proof.
  unfold learn_from_experience. cbn [completed_tasks set_state].
  destruct (completed_tasks a) eqn:Hc; [by rewrite <- Hc|].
  cbn [decision_threshold set_learning_memory set_state].
  by destruct (decision_threshold a).
Qed.

Section loop_facts.
Context `{handler : TaskHandler} (isoformat : datetime → string)
  (str : exn → AutonomousAgent.t → string).

Lemma execute_tasks_keeps (a : AutonomousAgent.t) :
  let a' := execute_tasks a in
  goals a' = goals a
  ∧ AgentTask.id <$> task_queue a' ⊆+ AgentTask.id <$> task_queue a
  ∧ completed_tasks a `prefix_of` completed_tasks a'
  ∧ is_running a' = is_running a
  ∧ start_time a' = start_time a
  ∧ max_autonomous_days a' = max_autonomous_days a.
Proof.
  unfold execute_tasks.
  destruct (task_queue a) as [|task rest] eqn:Hq.
  { cbn. rewrite Hq. done. }
  destruct (execute_single_task (set_task_queue rest a) task) as [m [msg|result]].
  - destruct (_ <? _)%Z.
    + cbn. split; [done|]. split; [|done].
      rewrite list_sort_perm, fmap_app. cbn.
      by rewrite (comm (++)).
    + cbn. split; [done|]. split; [by apply submseteq_cons|].
      split; [by apply prefix_app_r|done].
  - cbn. split; [done|]. split; [by apply submseteq_cons|].
    split; [by apply prefix_app_r|done].
Qed.

Lemma on_agent_lookup (r : nat) (method : AutonomousAgent.t → outcome AutonomousAgent.t)
    (objects : list AutonomousAgent.t) (a : AutonomousAgent.t) :
  objects !! r = Some a →
  on_agent r method objects
  = match method a with
    | Returned a' => Returned (<[ r := a' ]> objects)
    | Raised e a' => Raised e (<[ r := a' ]> objects)
    end.
Proof. intros Hr. unfold on_agent. by rewrite Hr. Qed.

Lemma run_iteration_own (uuid4 : nat → string) (clock : Readings) (r : nat)
    (objects : list AutonomousAgent.t) (a : AutonomousAgent.t) :
  objects !! r = Some a →
  run_iteration isoformat str uuid4 clock r objects !! r
  = Some (own_turn isoformat str uuid4 clock a)
  ∧ length (run_iteration isoformat str uuid4 clock r objects) = length objects.
Proof.
  intros Hr. pose proof (lookup_lt_Some _ _ _ Hr) as Hlt.
  unfold run_iteration, own_turn. rewrite Hr.
  destruct (should_request_human_input a (at_check clock)) as [e|overdue].
  { unfold handle, recovered. by rewrite list_lookup_alter_eq, Hr, length_alter. }
  fold (checked overdue clock a). cbn zeta.
  generalize (checked overdue clock a). intros a1.
  assert (H1 : <[ r := a1 ]> objects !! r = Some a1)
    by by apply list_lookup_insert_eq.
  assert (Hend : ∀ (acted : outcome AutonomousAgent.t),
    let acted' :=
      match acted with
      | Returned a' => Returned (<[ r := a' ]> (<[ r := a1 ]> objects))
      | Raised e a' => Raised e (<[ r := a' ]> (<[ r := a1 ]> objects))
      end in
    match acted' with
    | Raised e objects' => handle isoformat str r e (at_recovery clock) objects'
    | Returned objects' =>
        alter (λ self, update_metrics self (at_metrics clock)) r objects'
    end !! r = Some (end_of_turn isoformat str clock acted)
    ∧ length
        match acted' with
        | Raised e objects' => handle isoformat str r e (at_recovery clock) objects'
        | Returned objects' =>
            alter (λ self, update_metrics self (at_metrics clock)) r objects'
        end = length objects).
  { intros [a'|e a']; cbn; unfold handle;
      rewrite list_lookup_alter_eq, length_alter, !length_insert,
        list_lookup_insert_eq by (by rewrite length_insert); done. }
  assert (Hsame :
    alter (λ self, update_metrics self (at_metrics clock)) r (<[ r := a1 ]> objects) !! r
    = Some (end_of_turn isoformat str clock (Returned a1))
    ∧ length (alter (λ self, update_metrics self (at_metrics clock)) r
                (<[ r := a1 ]> objects)) = length objects).
  { cbn. by rewrite list_lookup_alter_eq, H1, length_alter, length_insert. }
  unfold act.
  destruct (state a1) eqn:Hs; try exact Hsame.
  - rewrite (on_agent_lookup _ _ _ _ H1). apply Hend.
  - rewrite (on_agent_lookup _ _ _ _ H1). apply (Hend (Returned _)).
  - rewrite (on_agent_lookup _ _ _ _ H1). apply (Hend (Returned _)).
  - rewrite (on_agent_lookup _ _ _ _ H1). apply Hend.
  - unfold collaborate_with_agents. rewrite H1. fold (peers_of a1).
    rewrite (share_knowledge_cases _ _ _ _ H1).
    destruct (peers_of a1) as [|peer peers]; [exact Hsame|].
    destruct (py_gt_number (shared_rate a1) (num 9 10)) as [e|[]].
    + cbn. unfold handle, recovered.
      by rewrite list_lookup_alter_eq, H1, length_alter, length_insert.
    + cbn [end_of_turn].
      rewrite list_lookup_alter_eq, length_alter, share_all_lookup,
        share_all_length, length_insert, H1.
      destruct (decide _); cbn; [|done]. by rewrite receive_knowledge_own.
    + exact Hsame.
Qed.

Lemma run_loop_own (uuid4 : nat → nat → string) (clock : nat → Readings)
    (r : nat) (n : nat) :
  ∀ (i : nat) (objects : list AutonomousAgent.t) (a : AutonomousAgent.t),
    objects !! r = Some a →
    run_loop isoformat str uuid4 clock r i n objects !! r
    = Some (own_turns isoformat str uuid4 clock i n a).
Proof.
  induction n as [|n IH]; intros i objects a Hr; cbn [run_loop own_turns];
    [done|].
  rewrite Hr. destruct (is_running a); [|done].
  apply IH. by apply run_iteration_own.
Qed.

Lemma run_own (uuid4 : nat → nat → string) (clock : nat → Readings)
    (r : nat) (n : nat) (objects : list AutonomousAgent.t)
    (a : AutonomousAgent.t) :
  objects !! r = Some a →
  run isoformat str uuid4 clock r n objects !! r
  = Some (own_turns isoformat str uuid4 clock 0 n (set_is_running true a)).
Proof.
  intros Hr. unfold run. apply run_loop_own.
  by rewrite list_lookup_alter_eq, Hr.
Qed.

Lemma checked_fields (overdue : bool) (clock : Readings)
    (a : AutonomousAgent.t) :
  goals (checked overdue clock a) = goals a
  ∧ task_queue (checked overdue clock a) = task_queue a
  ∧ completed_tasks (checked overdue clock a) = completed_tasks a
  ∧ is_running (checked overdue clock a) = is_running a
  ∧ metrics (checked overdue clock a) = metrics a
  ∧ start_time (checked overdue clock a) = start_time a
  ∧ max_autonomous_days (checked overdue clock a) = max_autonomous_days a
  ∧ (state (checked overdue clock a) = IDLE →
     goals (checked overdue clock a) = []).
Proof.
  unfold checked. rewrite update_state_fields.
  split_and!; try by destruct overdue.
  intros Hs. cbn in Hs. apply update_state_idle in Hs as [_ Hs].
  cbn. by destruct overdue.
Qed.

Lemma recovered_fields (e : exn) (clock : Readings)
    (a : AutonomousAgent.t) :
  let a' := recovered isoformat str e clock a in
  state a' = IDLE ∧ task_queue a' = []
  ∧ goals a' = goals a ∧ completed_tasks a' = completed_tasks a
  ∧ is_running a' = is_running a
  ∧ metrics a' = incr_errors_recovered (metrics a)
  ∧ max_autonomous_days a' = max_autonomous_days a.
Proof. done. Qed.

(** What the action of a turn leaves as it is, however it ends. *)
Lemma act_keeps (uuid4 : nat → string) (a : AutonomousAgent.t) :
  (state a = IDLE → goals a = []) →
  let a' := after (act uuid4 a) in
  goals a' = goals a
  ∧ AgentTask.id <$> task_queue a' ⊆+ AgentTask.id <$> task_queue a
  ∧ completed_tasks a `prefix_of` completed_tasks a'
  ∧ is_running a' = is_running a
  ∧ start_time a' = start_time a
  ∧ max_autonomous_days a' = max_autonomous_days a.
Proof.
  intros Hidle. unfold act.
  destruct (state a) eqn:Hs; try done.
  - by rewrite plan_next_action_no_goals by by apply Hidle.
  - cbn [after]. unfold execute_planning. by case_bool_decide.
  - apply execute_tasks_keeps.
  - destruct (learn_from_experience_keeps a)
      as (-> & -> & -> & -> & _ & -> & ->).
    done.
  - destruct (peers_of a); [done|]. by destruct (py_gt_number _ _).
Qed.

(** The same when the queue is empty: no task is executed. *)
Lemma act_empty_queue (uuid4 : nat → string) (a : AutonomousAgent.t) :
  (state a = IDLE → goals a = []) →
  task_queue a = [] →
  let a' := after (act uuid4 a) in
  task_queue a' = []
  ∧ completed_tasks a' = completed_tasks a
  ∧ metrics a' = metrics a.
Proof.
  intros Hidle Hq. unfold act.
  destruct (state a) eqn:Hs; try done.
  - by rewrite plan_next_action_no_goals by by apply Hidle.
  - cbn [after]. unfold execute_planning. by case_bool_decide.
  - unfold execute_tasks. rewrite Hq. done.
  - destruct (learn_from_experience_keeps a)
      as (_ & -> & -> & _ & -> & _).
    done.
  - destruct (peers_of a); [done|]. by destruct (py_gt_number _ _).
Qed.

(** An action that raises has not changed the metrics. *)
Lemma act_raised (uuid4 : nat → string) (a a' : AutonomousAgent.t) (e : exn) :
  (state a = IDLE → goals a = []) →
  act uuid4 a = Raised e a' → metrics a' = metrics a.
Proof.
  intros Hidle. unfold act.
  destruct (state a) eqn:Hs; try done.
  - by rewrite plan_next_action_no_goals by by apply Hidle.
  - intros Hl. pose proof (learn_from_experience_keeps a) as Hk.
    rewrite Hl in Hk. cbn [after] in Hk. by destruct Hk as (_ & _ & _ & _ & -> & _).
  - destruct (peers_of a); [done|].
    destruct (py_gt_number _ _); [|done]. by intros [= _ <-].
Qed.

Lemma end_of_turn_keeps (clock : Readings)
    (acted : outcome AutonomousAgent.t) :
  let a := after acted in
  let a' := end_of_turn isoformat str clock acted in
  goals a' = goals a
  ∧ AgentTask.id <$> task_queue a' ⊆+ AgentTask.id <$> task_queue a
  ∧ completed_tasks a' = completed_tasks a
  ∧ is_running a' = is_running a
  ∧ max_autonomous_days a' = max_autonomous_days a
  ∧ tasks_completed (metrics a') = tasks_completed (metrics a)
  ∧ goals_achieved (metrics a') = goals_achieved (metrics a)
  ∧ (task_queue a = [] → task_queue a' = []).
Proof.
  destruct acted as [a|e a]; cbn [after end_of_turn].
  - done.
  - destruct (recovered_fields e clock a) as (_ & -> & -> & -> & -> & -> & ->).
    split_and!; try done. apply submseteq_nil_l.
Qed.

Lemma own_turn_keeps (uuid4 : nat → string) (clock : Readings)
    (a : AutonomousAgent.t) :
  let a' := own_turn isoformat str uuid4 clock a in
  goals a' = goals a
  ∧ AgentTask.id <$> task_queue a' ⊆+ AgentTask.id <$> task_queue a
  ∧ completed_tasks a `prefix_of` completed_tasks a'
  ∧ is_running a' = is_running a
  ∧ max_autonomous_days a' = max_autonomous_days a.
Proof.
  unfold own_turn.
  destruct (should_request_human_input a (at_check clock)) as [e|overdue].
  { destruct (recovered_fields e clock a) as (_ & -> & -> & -> & -> & _ & ->).
    split_and!; try done. apply submseteq_nil_l. }
  destruct (checked_fields overdue clock a)
    as (Hg & Hq & Hc & Hr & _ & _ & Hd & Hidle).
  destruct (act_keeps uuid4 _ Hidle) as (Hg1 & Hq1 & Hc1 & Hr1 & _ & Hd1).
  destruct (end_of_turn_keeps clock (act uuid4 (checked overdue clock a)))
    as (Hg2 & Hq2 & Hc2 & Hr2 & Hd2 & _).
  cbn zeta. rewrite Hg2, Hc2, Hr2, Hd2, Hg1, Hr1, Hd1, Hg, Hr, Hd.
  split_and!; try done.
  - etrans; [exact Hq2|]. by rewrite <- Hq.
  - by rewrite <- Hc.
Qed.

Lemma own_turns_keep (uuid4 : nat → nat → string) (clock : nat → Readings)
    (n : nat) :
  ∀ (i : nat) (a : AutonomousAgent.t),
    let a' := own_turns isoformat str uuid4 clock i n a in
    goals a' = goals a
    ∧ AgentTask.id <$> task_queue a' ⊆+ AgentTask.id <$> task_queue a
    ∧ completed_tasks a `prefix_of` completed_tasks a'
    ∧ is_running a' = is_running a
    ∧ max_autonomous_days a' = max_autonomous_days a.
Proof.
  induction n as [|n IH]; intros i a; cbn [own_turns]; [done|].
  destruct (is_running a) eqn:Hrun; [|done].
  destruct (own_turn_keeps (uuid4 i) (clock i) a)
    as (Hg & Hq & Hc & Hr & Hd).
  destruct (IH (S i) (own_turn isoformat str (uuid4 i) (clock i) a))
    as (Hg' & Hq' & Hc' & Hr' & Hd').
  cbn zeta. rewrite Hg', Hr', Hd', Hg, Hr, Hd.
  split_and!; try done; by etrans.
Qed.

(** The loop of an agent changes no goal and makes no task, whatever the
    handler and however long it runs: after any number of turns the goals
    are the goals the agent had, the tasks in the queue are among those
    that were in it, and the completed tasks it had are the first of its
    completed tasks.  The only action that makes tasks in the loop,
    planning, is reached when the agent has no goal.  The running flag is
    set. *)
Theorem run_never_adds_tasks (uuid4 : nat → nat → string)
    (clock : nat → Readings) (r : nat) (n : nat)
    (objects : list AutonomousAgent.t) (a : AutonomousAgent.t) :
  objects !! r = Some a →
  ∃ a',
    run isoformat str uuid4 clock r n objects !! r = Some a'
    ∧ goals a' = goals a
    ∧ AgentTask.id <$> task_queue a' ⊆+ AgentTask.id <$> task_queue a
    ∧ completed_tasks a `prefix_of` completed_tasks a'
    ∧ is_running a' = true.
Proof.
  intros Hr. eexists. split; [by apply run_own|].
  destruct (own_turns_keep uuid4 clock n 0 (set_is_running true a))
    as (Hg & Hq & Hc & Hrun & _).
  done.
Qed.

End loop_facts.

(** ** Oversight *)

Lemma this_whole (n : Z) : this (whole n) = inject_Z n.
Proof.
  unfold whole. cbn. apply Qred_identity. cbn. apply Z.gcd_1_r.
Qed.

Lemma whole_mult (n m : Z) : (whole n * whole m)%Qc = whole (n * m).
Proof.
  apply Qc_is_canon. cbn. rewrite !Qred_correct. unfold inject_Z, Qmult, Qeq. cbn. lia.
Qed.

Lemma round_half_even_whole (n : Z) : round_half_even (whole n) = n.
Proof.
  unfold round_half_even. rewrite this_whole. cbn.
  rewrite Z.mod_1_r, Z.div_1_r. reflexivity.
Qed.

Lemma timedelta_days_whole (days : Z) :
  timedelta_days (whole days)
  = if decide (-999999999 ≤ days ≤ 999999999)
    then Some (days * microseconds_per_day)
    else None.
Proof.
  unfold timedelta_days. fold (whole microseconds_per_day).
  rewrite whole_mult, round_half_even_whole.
  rewrite Z.div_mul by done.
  destruct (decide _) as [Hd|Hd].
  - by rewrite (proj2 (Z.leb_le _ _) (proj1 Hd)), (proj2 (Z.leb_le _ _) (proj2 Hd)).
  - destruct (-999999999 <=? days) eqn:H1; [|done].
    destruct (days <=? 999999999) eqn:H2; [|done].
    apply Z.leb_le in H1, H2. lia.
Qed.


Lemma hours_whole (span : Z) :
  (hours span * whole 3600000000)%Qc = whole span.
Proof.
  unfold hours. fold (whole span) (whole 1000000) (whole 3600).
  replace (whole 3600000000) with (whole 1000000 * whole 3600)%Qc
    by (by rewrite whole_mult).
  field. split; by intros [=].
Qed.

Lemma oversight_limit_whole (a : AutonomousAgent.t) (days : Z) :
  max_autonomous_days a = Some (whole days) →
  -999999999 ≤ days ≤ 999999999 →
  oversight_limit a = Some (days * 86400000000).
Proof.
  intros Hd Hr. unfold oversight_limit. rewrite Hd. cbn.
  rewrite timedelta_days_whole. by rewrite decide_True.
Qed.

Lemma without_limit_none (a : AutonomousAgent.t) :
  without_limit a → oversight_limit a = None.
Proof.
  unfold without_limit, oversight_limit.
  intros [->|(days & -> & Hd)]; [done|]. cbn.
  rewrite timedelta_days_whole. by rewrite decide_False.
Qed.

Lemma nothing_to_learn_false (a : AutonomousAgent.t) :
  nothing_to_learn a → should_learn a = false.
Proof.
  unfold nothing_to_learn, should_learn. intros [->|Hm]; [done|].
  apply andb_false_iff. left. by apply Nat.eqb_neq.
Qed.




Section idle.
Context `{handler : TaskHandler} (isoformat : datetime → string)
  (str : exn → AutonomousAgent.t → string).

Lemma own_turn_empty_queue (uuid4 : nat → string) (clock : Readings)
    (a : AutonomousAgent.t) :
  task_queue a = [] →
  let a' := own_turn isoformat str uuid4 clock a in
  task_queue a' = []
  ∧ completed_tasks a' = completed_tasks a
  ∧ tasks_completed (metrics a') = tasks_completed (metrics a)
  ∧ goals_achieved (metrics a') = goals_achieved (metrics a).
Proof.
  intros Hq. unfold own_turn.
  destruct (should_request_human_input a (at_check clock)) as [e|overdue];
    [done|].
  destruct (checked_fields overdue clock a)
    as (_ & Hq1 & Hc1 & _ & Hm1 & _ & _ & Hidle).
  rewrite Hq in Hq1.
  destruct (act_empty_queue uuid4 _ Hidle Hq1) as (Hq2 & Hc2 & Hm2).
  destruct (end_of_turn_keeps isoformat str clock
              (act uuid4 (checked overdue clock a)))
    as (_ & _ & Hc3 & _ & _ & Ht3 & Hg3 & Hq3).
  cbn zeta. rewrite Hc3, Ht3, Hg3, Hc2, Hm2, Hc1, Hm1.
  split; [by apply Hq3|done].
Qed.

Lemma own_turns_empty_queue (uuid4 : nat → nat → string)
    (clock : nat → Readings) (n : nat) :
  ∀ (i : nat) (a : AutonomousAgent.t),
    task_queue a = [] →
    let a' := own_turns isoformat str uuid4 clock i n a in
    task_queue a' = []
    ∧ completed_tasks a' = completed_tasks a
    ∧ tasks_completed (metrics a') = tasks_completed (metrics a)
    ∧ goals_achieved (metrics a') = goals_achieved (metrics a).
Proof.
  induction n as [|n IH]; intros i a Hq; cbn [own_turns]; [done|].
  destruct (is_running a); [|done].
  destruct (own_turn_empty_queue (uuid4 i) (clock i) a Hq)
    as (Hq1 & Hc1 & Ht1 & Hg1).
  destruct (IH (S i) _ Hq1) as (Hq2 & Hc2 & Ht2 & Hg2).
  cbn zeta. by rewrite Hq2, Hc2, Ht2, Hg2.
Qed.

(** An agent whose queue is empty never executes a task in its loop,
    whatever goals it has: after any number of turns the queue is empty,
    the completed tasks, the goals and the counters of completed tasks and
    of achieved goals are what they were. *)
Theorem run_without_tasks_is_idle (uuid4 : nat → nat → string)
    (clock : nat → Readings) (r : nat) (n : nat)
    (objects : list AutonomousAgent.t) (a : AutonomousAgent.t) :
  objects !! r = Some a →
  task_queue a = [] →
  ∃ a',
    run isoformat str uuid4 clock r n objects !! r = Some a'
    ∧ task_queue a' = []
    ∧ completed_tasks a' = completed_tasks a
    ∧ goals a' = goals a
    ∧ tasks_completed (metrics a') = tasks_completed (metrics a)
    ∧ goals_achieved (metrics a') = goals_achieved (metrics a).
Proof.
  intros Hr Hq. eexists. split; [by apply run_own|].
  destruct (own_turns_empty_queue uuid4 clock n 0 (set_is_running true a) Hq)
    as (Hq' & Hc' & Ht' & Hg').
  destruct (own_turns_keep isoformat str uuid4 clock n 0 (set_is_running true a))
    as (Hgoals & _).
  done.
Qed.

Lemma should_request_human_input_limit (a : AutonomousAgent.t)
    (now : datetime) :
  match oversight_limit a with
  | Some limit =>
      should_request_human_input a now
      = inr (bool_decide (limit < now - last_human_interaction a))
  | None => ∃ e, should_request_human_input a now = inl e
  end.
Proof.
  unfold oversight_limit, should_request_human_input.
  destruct (max_autonomous_days a) as [days|]; cbn; [|by eexists].
  destruct (timedelta_days days) as [limit|]; [|by eexists].
  destruct (_ <? _) eqn:Hlt.
  - apply Z.ltb_lt in Hlt. by rewrite bool_decide_eq_true_2.
  - apply Z.ltb_ge in Hlt. rewrite bool_decide_eq_false_2; [done|lia].
Qed.

Lemma own_turn_paused (uuid4 : nat → string) (clock : Readings)
    (a : AutonomousAgent.t) (limit : Z) :
  oversight_limit a = Some limit →
  state a = PAUSED ∨ limit < at_check clock - last_human_interaction a →
  task_queue a ≠ [] →
  should_learn a = false →
  let a' := own_turn isoformat str uuid4 clock a in
  state a' = PAUSED
  ∧ task_queue a' = task_queue a
  ∧ completed_tasks a' = completed_tasks a
  ∧ oversight_limit a' = oversight_limit a
  ∧ is_running a' = is_running a
  ∧ tasks_completed (metrics a') = tasks_completed (metrics a).
Proof.
  intros Htd Hp Hq Hl. unfold own_turn.
  pose proof (should_request_human_input_limit a (at_check clock)) as Hreq.
  rewrite Htd in Hreq. rewrite Hreq.
  case_bool_decide as Hover.
  - unfold checked.
    rewrite (update_state_waiting (request_human_oversight a (at_oversight clock)))
      by done.
    done.
  - destruct Hp as [Hp|Hp]; [|done].
    unfold checked. rewrite update_state_waiting by (done || congruence).
    unfold act. rewrite Hp. done.
Qed.

Lemma own_turns_paused (uuid4 : nat → nat → string) (clock : nat → Readings)
    (limit : Z) (n : nat) :
  ∀ (i : nat) (a : AutonomousAgent.t),
    oversight_limit a = Some limit →
    state a = PAUSED ∨ limit < at_check (clock i) - last_human_interaction a →
    task_queue a ≠ [] →
    should_learn a = false →
    is_running a = true →
    let a' := own_turns isoformat str uuid4 clock i (S n) a in
    state a' = PAUSED
    ∧ task_queue a' = task_queue a
    ∧ completed_tasks a' = completed_tasks a
    ∧ tasks_completed (metrics a') = tasks_completed (metrics a).
Proof.
  induction n as [|n IH]; intros i a Htd Hp Hq Hl Hrun.
  - cbn [own_turns]. rewrite Hrun.
    destruct (own_turn_paused (uuid4 i) (clock i) a limit Htd Hp Hq Hl)
      as (? & ? & ? & ? & ? & ?).
    done.
  - destruct (own_turn_paused (uuid4 i) (clock i) a limit Htd Hp Hq Hl)
      as (Hs & Hq' & Hc' & Hm' & Hr' & Ht').
    change (own_turns isoformat str uuid4 clock i (S (S n)) a)
      with (if is_running a
            then own_turns isoformat str uuid4 clock (S i) (S n)
                   (own_turn isoformat str (uuid4 i) (clock i) a)
            else a).
    rewrite Hrun.
    destruct (IH (S i) (own_turn isoformat str (uuid4 i) (clock i) a))
      as (Hs2 & Hq2 & Hc2 & Ht2).
    + by rewrite Hm'.
    + by left.
    + by rewrite Hq'.
    + unfold should_learn in *. by rewrite Hc'.
    + by rewrite Hr'.
    + cbn zeta. by rewrite Hs2, Hq2, Hc2, Ht2.
Qed.

(** An agent that is paused with tasks in its queue stays paused.  Let the
    limit of the agent be a whole number of days, its queue not empty and
    the number of its completed tasks not call for learning.  If the agent
    is paused, or if its first check finds the limit exceeded and pauses
    it, then after any number of turns, one at least, it is paused, and
    its queue, its completed tasks and its counter of completed tasks are
    what they were: no turn executes a task. *)
Theorem run_pause_is_final (uuid4 : nat → nat → string)
    (clock : nat → Readings) (r : nat) (n : nat)
    (objects : list AutonomousAgent.t) (a : AutonomousAgent.t) (days : Z) :
  objects !! r = Some a →
  max_autonomous_days a = Some (whole days) →
  -999999999 ≤ days ≤ 999999999 →
  state a = PAUSED
  ∨ days * 86400000000 < at_check (clock 0%nat) - last_human_interaction a →
  task_queue a ≠ [] →
  nothing_to_learn a →
  ∃ a',
    run isoformat str uuid4 clock r (S n) objects !! r = Some a'
    ∧ state a' = PAUSED
    ∧ task_queue a' = task_queue a
    ∧ completed_tasks a' = completed_tasks a
    ∧ tasks_completed (metrics a') = tasks_completed (metrics a).
Proof.
  intros Hr Hd Hrange Hp Hq Hl. eexists. split; [by apply run_own|].
  apply (own_turns_paused uuid4 clock (days * 86400000000) n 0
           (set_is_running true a)); try done.
  - by apply oversight_limit_whole.
  - by apply nothing_to_learn_false.
Qed.

Lemma own_turns_without_limit (uuid4 : nat → nat → string)
    (clock : nat → Readings) (n : nat) :
  ∀ (i : nat) (a : AutonomousAgent.t),
    oversight_limit a = None →
    is_running a = true →
    let a' := own_turns isoformat str uuid4 clock i n a in
    errors_recovered (metrics a') = errors_recovered (metrics a) + Z.of_nat n
    ∧ ((0 < n)%nat → state a' = IDLE ∧ task_queue a' = [])
    ∧ completed_tasks a' = completed_tasks a
    ∧ tasks_completed (metrics a') = tasks_completed (metrics a)
    ∧ goals a' = goals a.
Proof.
  induction n as [|n IH]; intros i a Htd Hrun; cbn [own_turns].
  - cbn. split_and!; try done; lia.
  - rewrite Hrun.
    pose proof (should_request_human_input_limit a (at_check (clock i)))
      as Hreq.
    rewrite Htd in Hreq. destruct Hreq as [e Hreq].
    assert (Hturn : own_turn isoformat str (uuid4 i) (clock i) a
                    = recovered isoformat str e (clock i) a).
    { unfold own_turn. by rewrite Hreq. }
    rewrite Hturn.
    destruct (recovered_fields isoformat str e (clock i) a)
      as (Hs & Hq & Hg & Hc & Hr & Hm & Hd).
    destruct (IH (S i) (recovered isoformat str e (clock i) a))
      as (He2 & Hs2 & Hc2 & Ht2 & Hg2).
    { unfold oversight_limit in *. by rewrite Hd. }
    { by rewrite Hr. }
    cbn zeta. rewrite He2, Hc2, Ht2, Hg2, Hm, Hc, Hg.
    split; [cbn; lia|]. split; [|done].
    intros _. destruct n as [|n]; [done|]. apply Hs2. lia.
Qed.

(** An agent without a limit only recovers from errors.  If the agent was
    not initialised, or its limit is beyond the range of a [timedelta],
    then every turn of its loop raises in the oversight check and ends in
    the recovery: after [n] turns the counter of recovered errors has
    grown by [n], and from the first turn on the queue is empty and the
    state [IDLE], while the completed tasks, their counter and the goals
    are what they were. *)
Theorem run_without_limit_only_recovers (uuid4 : nat → nat → string)
    (clock : nat → Readings) (r : nat) (n : nat)
    (objects : list AutonomousAgent.t) (a : AutonomousAgent.t) :
  objects !! r = Some a →
  without_limit a →
  ∃ a',
    run isoformat str uuid4 clock r n objects !! r = Some a'
    ∧ errors_recovered (metrics a')
      = errors_recovered (metrics a) + Z.of_nat n
    ∧ ((0 < n)%nat → state a' = IDLE ∧ task_queue a' = [])
    ∧ completed_tasks a' = completed_tasks a
    ∧ tasks_completed (metrics a') = tasks_completed (metrics a)
    ∧ goals a' = goals a.
Proof.
  intros Hr Htd%without_limit_none. eexists. split; [by apply run_own|].
  by apply (own_turns_without_limit uuid4 clock n 0 (set_is_running true a)).
Qed.

Lemma update_metrics_fields (a : AutonomousAgent.t) (now : datetime) :
  let a' := update_metrics a now in
  value_generated (metrics a')
  = tasks_completed (metrics a') * 100 + goals_achieved (metrics a') * 1000
  ∧ (∀ start : datetime, start_time a = Some start →
       (uptime_hours (metrics a') * whole 3600000000)%Qc
       = whole (now - start))
  ∧ tasks_completed (metrics a') = tasks_completed (metrics a)
  ∧ a' = set_metrics (metrics a') a.
Proof.
  unfold update_metrics. cbn. split; [done|]. split; [|done].
  intros start ->. apply hours_whole.
Qed.


End idle.

(** ** Collaboration *)

(** Collaboration on the store of the agent objects.  Without
    collaborators nothing happens.  With collaborators, a success rate in
    the learning memory that is not a number raises [TypeError]; a rate of
    at most 0.9, or none, shares nothing; and a rate above 0.9 gives every
    collaborator what it did not have of the learning memory of the agent,
    and changes no other object, nor the agent. *)
Theorem collaborate_with_agents_shares (r : nat)
    (objects : list AutonomousAgent.t) (self : AutonomousAgent.t) :
  objects !! r = Some self →
  let shared (agent : AutonomousAgent.t) :=
    set_learning_memory (learning_memory agent ∪ learning_memory self) agent in
  (collaborators self = ∅ → collaborate_with_agents r objects = Returned objects)
  ∧ (collaborators self ≠ ∅ → as_number (shared_rate self) = None →
       collaborate_with_agents r objects = Raised TypeError objects)
  ∧ (∀ q, as_number (shared_rate self) = Some q → (q ≤ num 9 10)%Qc →
       collaborate_with_agents r objects = Returned objects)
  ∧ (∀ q, as_number (shared_rate self) = Some q → (num 9 10 < q)%Qc →
       ∃ objects',
         collaborate_with_agents r objects = Returned objects'
         ∧ length objects' = length objects
         ∧ objects' !! r = Some self
         ∧ (∀ aid i, collaborators self !! aid = Some i →
              objects' !! i = shared <$> objects !! i)
         ∧ (∀ i, (∀ aid, collaborators self !! aid ≠ Some i) →
              objects' !! i = objects !! i)).
Proof.
  intros Hr shared. unfold collaborate_with_agents. rewrite Hr.
  fold (peers_of self). rewrite (share_knowledge_cases _ _ _ _ Hr).
  assert (Hpeers : ∀ i, i ∈ peers_of self ↔ ∃ aid, collaborators self !! aid = Some i).
  { intros i. unfold peers_of. rewrite list_elem_of_fmap. split.
    - intros ([aid j] & -> & Hin). exists aid. by apply elem_of_map_to_list.
    - intros (aid & Hin). exists (aid, i). split; [done|].
      by apply elem_of_map_to_list. }
  assert (Hnil : peers_of self = [] ↔ collaborators self = ∅).
  { unfold peers_of. rewrite <- map_to_list_empty_iff. split.
    - apply fmap_nil_inv.
    - by intros ->. }
  repeat split.
  - intros Hc. apply Hnil in Hc. by rewrite Hc.
  - intros Hc Hn. destruct (peers_of self); [by destruct Hc; apply Hnil|].
    unfold py_gt_number. by rewrite Hn.
  - intros q Hq Hle. unfold py_gt_number. rewrite Hq.
    rewrite bool_decide_eq_false_2 by by apply Qcle_not_lt.
    by destruct (peers_of self).
  - intros q Hq Hlt. unfold py_gt_number. rewrite Hq.
    rewrite bool_decide_eq_true_2 by done.
    destruct (peers_of self) as [|peer peers] eqn:Hp.
    + exists objects. split; [done|]. split; [done|]. split; [done|].
      split; [|done]. intros aid i Hin.
      assert (i ∈ @nil nat) as []%not_elem_of_nil. apply Hpeers. by exists aid.
    + eexists. split; [done|]. split; [apply share_all_length|].
      split; [|split].
      * rewrite share_all_lookup, Hr. destruct (decide _); [|done].
        cbn. by rewrite receive_knowledge_own.
      * intros aid i Hin. rewrite share_all_lookup.
        rewrite decide_True by (apply Hpeers; by exists aid).
        destruct (objects !! i); [|done]. cbn. by rewrite receive_knowledge_eq.
      * intros i Hout. rewrite share_all_lookup.
        rewrite decide_False; [done|]. intros (aid & Hin)%Hpeers.
        by apply (Hout aid).
Qed.

(** ** A turn that executes *)

Section executing.
Context (isoformat : datetime → string)
  (str : exn → AutonomousAgent.t → string).


End executing.


(** ** The loop on a concrete agent *)

(** The loop of [working_agent] with the handler of the base class: the
    first turn plans, the next three execute the three tasks of the goal,
    and the fifth finds the queue empty and leaves the agent [IDLE]; five
    turns more change the up-time alone, had the clock moved. *)
Example run_working_agent :
  let after_turns (n : nat) :=
    default working_agent
      (@run base_handler seconds_isoformat class_name (λ _, decimal)
         (λ _, still_clock) 0 n [working_agent] !! 0%nat) in
  state <$> (after_turns <$> seq 0 7)
  = [IDLE; EXECUTING; EXECUTING; EXECUTING; EXECUTING; IDLE; IDLE]
  ∧ (λ a, length (completed_tasks a)) <$> (after_turns <$> seq 0 7)
    = [0; 0; 1; 2; 3; 3; 3]%nat
  ∧ AgentTask.action <$> completed_tasks (after_turns 5%nat)
    = ["analyze_current_state"; "identify_bottlenecks";
       "implement_optimizations"]
  ∧ value_generated (metrics (after_turns 5%nat)) = 300
  ∧ after_turns 10%nat = after_turns 5%nat.
Proof. vm_compute. by split_and!. Qed.

(** Rounding to the even neighbour, as [timedelta] rounds to whole
    microseconds: half a microsecond is none, one and a half are two. *)
Example round_half_even_ties :
  round_half_even (num 1 2) = 0
  ∧ round_half_even (num 3 2) = 2
  ∧ round_half_even (num 5 2) = 2
  ∧ round_half_even (num (-1) 2) = 0
  ∧ round_half_even (num (-3) 2) = -2
  ∧ round_half_even (num 7 4) = 2
  ∧ timedelta_days (num 1 172800000000) = Some 0
  ∧ timedelta_days (num 3 172800000000) = Some 2
  ∧ timedelta_days (num 1 2) = Some 43200000000.
Proof. vm_compute. by split_and!. Qed.

(** ** Identifiers of a fleet *)

Lemma parse_index_decimal (i : nat) : parse_index (decimal i) = Some i.
Proof.
  unfold parse_index, decimal. rewrite NilEmpty.usu. cbn.
  by rewrite DecimalNat.Unsigned.of_to.
Qed.

Lemma parse_index_zero (s : string) :
  parse_index (String "0" s) = parse_index s.
Proof.
  unfold parse_index. cbn. by destruct (NilEmpty.uint_of_string s).
Qed.

Lemma parse_index_format_03d (i : nat) : parse_index (format_03d i) = Some i.
Proof.
  unfold format_03d.
  destruct (String.length (decimal i)) as [|[|[|n]]];
    rewrite ?append_cons, ?append_nil, ?parse_index_zero;
    apply parse_index_decimal.
Qed.

Lemma format_03d_inj (i j : nat) : format_03d i = format_03d j → i = j.
Proof.
  intros Heq. apply (f_equal parse_index) in Heq.
  rewrite !parse_index_format_03d in Heq. by injection Heq.
Qed.

Lemma append_inj_r (s x y : string) : (s ++ x)%string = (s ++ y)%string → x = y.
Proof.
  induction s as [|c s IH]; [by rewrite !append_nil|].
  rewrite !append_cons. intros [= Heq]. by apply IH.
Qed.

Lemma fleet_id_inj (agent_type : string) (i j : nat) :
  (agent_type ++ "_" ++ format_03d i)%string
  = (agent_type ++ "_" ++ format_03d j)%string →
  i = j.
Proof.
  intros Heq. apply append_inj_r in Heq. apply append_inj_r in Heq.
  by apply format_03d_inj.
Qed.

Lemma format_03d_padding (i : nat) :
  ∃ zeros : string,
    format_03d i = (zeros ++ decimal i)%string
    ∧ zeros ∈ [""; "0"; "00"; "000"]
    ∧ (3 ≤ String.length (format_03d i))%nat.
Proof.
  unfold format_03d. cbv zeta.
  destruct (decimal i) as [|c1 [|c2 [|c3 d]]] eqn:Hd; cbn [String.length].
  - exists "000". split; [done|]. split; [set_solver|].
    rewrite !append_cons, append_nil. cbn. lia.
  - exists "00". split; [done|]. split; [set_solver|].
    rewrite !append_cons, append_nil. cbn. lia.
  - exists "0". split; [done|]. split; [set_solver|].
    rewrite !append_cons, append_nil. cbn. lia.
  - exists "". split; [by rewrite append_nil|]. split; [set_solver|].
    cbn. lia.
Qed.

(** The index of an agent in its identifier: [f"{i:03d}"] is the decimal
    numeral of [i] after zeros that fill it up to three characters, so
    that it has three characters or more, exactly three below 1000; [int]
    reads [i] back from it, and different indices give different
    strings. *)
Theorem format_03d_round_trip (i : nat) :
  parse_index (format_03d i) = Some i
  ∧ (∃ zeros : string,
       format_03d i = (zeros ++ decimal i)%string
       ∧ zeros ∈ [""; "0"; "00"; "000"])
  ∧ (3 ≤ String.length (format_03d i))%nat
  ∧ (i ∈ seq 0 1000 → String.length (format_03d i) = 3%nat)
  ∧ (∀ j, format_03d i = format_03d j → i = j).
Proof.
  destruct (format_03d_padding i) as (zeros & Hz & Hin & Hlen).
  split; [apply parse_index_format_03d|].
  split; [by exists zeros|]. split; [done|]. split.
  - clear zeros Hz Hin Hlen. revert i.
    apply (proj1 (Forall_forall (λ i, String.length (format_03d i) = 3%nat)
                    (seq 0 1000))).
    apply (bool_decide_unpack _). vm_compute. reflexivity.
  - intros j. apply format_03d_inj.
Qed.

Lemma fleet_id_injective (agent_type : string) : Inj (=) (=) (fleet_id agent_type).
Proof. intros i j. apply fleet_id_inj. Qed.

Lemma deploy_fleet_registry (agent_type : string) (cfg : gmap string Qc)
    (now : datetime) (n : nat) :
  ∀ (i : nat) (s : AgentOrchestrator.t),
    let s' :=
      foldl (AgentOrchestrator.deploy_fleet_member agent_type cfg now) s
        (seq i n) in
    (∀ k, (k < n)%nat →
       AgentOrchestrator.agents s' !! fleet_id agent_type (i + k)
       = Some (length (AgentOrchestrator.objects s) + k)%nat)
    ∧ (∀ key, (∀ k, (k < n)%nat → key ≠ fleet_id agent_type (i + k)) →
         AgentOrchestrator.agents s' !! key = AgentOrchestrator.agents s !! key)
    ∧ AgentOrchestrator.files s' = AgentOrchestrator.files s
    ∧ AgentOrchestrator.loop_tasks s'
      = AgentOrchestrator.loop_tasks s
          ++ seq (length (AgentOrchestrator.objects s)) n
    ∧ (∀ other, other ≠ agent_type →
         AgentOrchestrator.agent_pools s' !! other
         = AgentOrchestrator.agent_pools s !! other).
Proof.
  induction n as [|n IH]; intros i s; cbn [seq foldl]; cbn zeta.
  { split; [intros k Hk; lia|]. split; [by intros|]. split; [reflexivity|].
    split; [by rewrite app_nil_r|done]. }
  pose proof (deploy_fleet_member_effect agent_type cfg now s i) as Heff.
  cbv zeta in Heff.
  destruct (IH (S i)
              (AgentOrchestrator.deploy_fleet_member agent_type cfg now s i))
    as (Hin & Hout & Hf & Hl & Hp).
  generalize dependent
    (foldl (AgentOrchestrator.deploy_fleet_member agent_type cfg now)
       (AgentOrchestrator.deploy_fleet_member agent_type cfg now s i)
       (seq (S i) n)).
  rewrite Heff. clear Heff. intros s' Hin Hout Hf Hl Hp.
  cbn [AgentOrchestrator.objects AgentOrchestrator.agents
       AgentOrchestrator.files AgentOrchestrator.loop_tasks
       AgentOrchestrator.agent_pools] in Hin, Hout, Hf, Hl, Hp.
  rewrite length_app in Hin, Hl. cbn [length] in Hin, Hl.
  split; [|split; [|split; [done|split]]].
  - intros [|k] Hk.
    + rewrite Hout.
      * rewrite Nat.add_0_r. fold (fleet_id agent_type i).
        rewrite lookup_insert_eq. f_equal. lia.
      * intros k _ Heq. apply fleet_id_inj in Heq. lia.
    + replace (i + S k)%nat with (S i + k)%nat by lia.
      rewrite Hin by lia. f_equal. lia.
  - intros key Hkey. rewrite Hout.
    + fold (fleet_id agent_type i). rewrite lookup_insert_ne; [done|].
      intros Heq. apply (Hkey 0%nat); [lia|]. by rewrite Nat.add_0_r.
    + intros k Hk. replace (S i + k)%nat with (i + S k)%nat by lia.
      apply Hkey. lia.
  - rewrite Hl, <- app_assoc. cbn. by rewrite Nat.add_1_r.
  - intros other Hne. rewrite Hp by done. by rewrite lookup_insert_ne.
Qed.

Lemma deploy_fleet_dom (agent_type : string) (cfg : gmap string Qc)
    (now : datetime) (n : nat) (s : AgentOrchestrator.t) :
  dom (AgentOrchestrator.agents
         (foldl (AgentOrchestrator.deploy_fleet_member agent_type cfg now) s
            (seq 0 n)))
  = dom (AgentOrchestrator.agents s)
      ∪ list_to_set (fleet_id agent_type <$> seq 0 n).
Proof.
  destruct (deploy_fleet_registry agent_type cfg now n 0 s)
    as (Hin & Hout & _).
  apply set_eq. intros key.
  rewrite elem_of_union, !elem_of_dom, elem_of_list_to_set.
  destruct (decide (key ∈ fleet_id agent_type <$> seq 0 n)) as [Hk|Hno].
  - split; [by right|]. intros _.
    apply list_elem_of_fmap in Hk as (k & -> & Hk%elem_of_seq).
    specialize (Hin k). cbn in Hin. rewrite Hin by lia. done.
  - rewrite Hout.
    + split; [by left|]. by intros [?|?].
    + intros k Hk ->. apply Hno. apply list_elem_of_fmap.
      exists k. split; [done|]. apply elem_of_seq. lia.
Qed.

Lemma fleet_ids_size (agent_type : string) (n : nat) :
  size (list_to_set (C := gset string) (fleet_id agent_type <$> seq 0 n)) = n.
Proof.
  rewrite size_list_to_set.
  - by rewrite length_fmap, length_seq.
  - apply NoDup_fmap_2; [apply fleet_id_injective|apply NoDup_seq].
Qed.

(** A fleet deployment of [count] agents registers the identifiers
    [fleet_id agent_type k] for [k < count], each for a new agent object
    that is initialised with the configuration, and leaves every other
    entry of the registry as it was.  The registry grows by [count] if
    none of the identifiers was registered and not at all if all of them
    were, while the pool of the type grows by [count] in either case.  A
    count that is not positive deploys nothing. *)
Theorem deploy_agent_fleet_registers (agent_type : string) (count : Z)
    (cfg : gmap string Qc) (now : datetime) (s : AgentOrchestrator.t) :
  let n := Z.to_nat count in
  let base := length (AgentOrchestrator.objects s) in
  let s' := AgentOrchestrator.deploy_agent_fleet agent_type count cfg now s in
  (∀ k, (k < n)%nat →
     AgentOrchestrator.agents s' !! fleet_id agent_type k = Some (base + k)%nat
     ∧ AgentOrchestrator.objects s' !! (base + k)%nat
       = Some (fleet_member agent_type cfg now k))
  ∧ (∀ key, key ∉ fleet_id agent_type <$> seq 0 n →
       AgentOrchestrator.agents s' !! key = AgentOrchestrator.agents s !! key)
  ∧ ((∀ k, (k < n)%nat →
        AgentOrchestrator.agents s !! fleet_id agent_type k = None) →
     size (AgentOrchestrator.agents s')
     = (size (AgentOrchestrator.agents s) + n)%nat)
  ∧ ((∀ k, (k < n)%nat →
        is_Some (AgentOrchestrator.agents s !! fleet_id agent_type k)) →
     size (AgentOrchestrator.agents s') = size (AgentOrchestrator.agents s))
  ∧ length (default [] (AgentOrchestrator.agent_pools s' !! agent_type))
    = (length (default [] (AgentOrchestrator.agent_pools s !! agent_type))
       + n)%nat
  ∧ (count ≤ 0 → s' = s).
Proof.
  intros n base s'. unfold s', AgentOrchestrator.deploy_agent_fleet. fold n.
  destruct (deploy_fleet_registry agent_type cfg now n 0 s)
    as (Hin & Hout & _).
  destruct (deploy_fleet_members agent_type cfg now n 0 s) as (Ho & Hp).
  pose proof (deploy_fleet_dom agent_type cfg now n s) as Hdom.
  assert (Hzero : count ≤ 0 →
    foldl (AgentOrchestrator.deploy_fleet_member agent_type cfg now) s
      (seq 0 n) = s).
  { intros Hc. unfold n. by replace (Z.to_nat count) with 0%nat by lia. }
  cbn zeta in *.
  generalize dependent
    (foldl (AgentOrchestrator.deploy_fleet_member agent_type cfg now) s
       (seq 0 n)).
  intros s1 Hin Hout Ho Hp Hdom Hzero.
  split; [|split; [|split; [|split; [|split]]]].
  - intros k Hk. split; [by apply Hin|].
    rewrite Ho. fold base. rewrite lookup_app_r by lia.
    rewrite list_lookup_fmap. rewrite lookup_seq_lt by (unfold base; lia).
    cbn. do 2 f_equal. unfold base. lia.
  - intros key Hkey. apply Hout. intros k Hk ->. apply Hkey.
    apply list_elem_of_fmap. exists k. split; [done|]. apply elem_of_seq. lia.
  - intros Hfresh. rewrite <- !size_dom, Hdom.
    rewrite size_union; [by rewrite fleet_ids_size|].
    intros key Hd (k & -> & Hk%elem_of_seq)%elem_of_list_to_set%list_elem_of_fmap.
    apply elem_of_dom in Hd as [r Hd]. rewrite Hfresh in Hd by lia. done.
  - intros Hall. rewrite <- !size_dom, Hdom. f_equal.
    apply set_eq. intros key. rewrite elem_of_union. split; [|by left].
    intros [?|(k & -> & Hk%elem_of_seq)%elem_of_list_to_set%list_elem_of_fmap];
      [done|].
    apply elem_of_dom, Hall. lia.
  - rewrite Hp, length_app, length_seq. done.
  - exact Hzero.
Qed.

(** ** The status of a fleet *)

Section fleet_status.
Context (isoformat : datetime → string).

Lemma fleet_ids_union (agent_type : string) (n1 n2 : nat) :
  list_to_set (C := gset string) (fleet_id agent_type <$> seq 0 n1)
    ∪ list_to_set (fleet_id agent_type <$> seq 0 n2)
  = list_to_set (fleet_id agent_type <$> seq 0 (n1 `max` n2)).
Proof.
  apply set_eq. intros key.
  rewrite elem_of_union, !elem_of_list_to_set, !list_elem_of_fmap.
  split.
  - intros [(k & -> & Hk%elem_of_seq)|(k & -> & Hk%elem_of_seq)];
      exists k; (split; [done|]); apply elem_of_seq; lia.
  - intros (k & -> & Hk%elem_of_seq).
    destruct (decide (k < n1)%nat); [left|right];
      exists k; (split; [done|]); apply elem_of_seq; lia.
Qed.

Lemma agents_by_type_lookup (s : AgentOrchestrator.t) (agent_type : string) :
  default 0%nat
    (AgentOrchestrator.agents_by_type
       (AgentOrchestrator.get_fleet_status isoformat s) !! agent_type)
  = length (default [] (AgentOrchestrator.agent_pools s !! agent_type)).
Proof.
  cbn. rewrite lookup_fmap. by destruct (_ !! _).
Qed.

(** The counts of the fleet status after one and after two fleet
    deployments of a type to a new orchestrator: [total_agents] is the
    count of the first deployment and then the larger of the two counts,
    since the second deployment registers its agents under the identifiers
    of the first, while [agents_by_type] gives the sum of the two counts
    for the type and has no other entry. *)
Theorem get_fleet_status_counts (agent_type : string) (count1 count2 : Z)
    (cfg1 cfg2 : gmap string Qc) (now1 now2 : datetime) :
  let s1 :=
    AgentOrchestrator.deploy_agent_fleet agent_type count1 cfg1 now1
      AgentOrchestrator.__init__ in
  let s2 := AgentOrchestrator.deploy_agent_fleet agent_type count2 cfg2 now2 s1 in
  let status1 := AgentOrchestrator.get_fleet_status isoformat s1 in
  let status2 := AgentOrchestrator.get_fleet_status isoformat s2 in
  AgentOrchestrator.total_agents status1 = Z.to_nat count1
  ∧ default 0%nat (AgentOrchestrator.agents_by_type status1 !! agent_type)
    = Z.to_nat count1
  ∧ AgentOrchestrator.total_agents status2
    = Nat.max (Z.to_nat count1) (Z.to_nat count2)
  ∧ default 0%nat (AgentOrchestrator.agents_by_type status2 !! agent_type)
    = (Z.to_nat count1 + Z.to_nat count2)%nat
  ∧ (∀ other, other ≠ agent_type →
       AgentOrchestrator.agents_by_type status2 !! other = None).
Proof.
  intros s1 s2 status1 status2.
  unfold status1, status2. rewrite !agents_by_type_lookup.
  cbn [AgentOrchestrator.total_agents AgentOrchestrator.get_fleet_status
       AgentOrchestrator.agents_by_type].
  unfold s2, s1, AgentOrchestrator.deploy_agent_fleet.
  set (n1 := Z.to_nat count1). set (n2 := Z.to_nat count2).
  pose proof (deploy_fleet_dom agent_type cfg1 now1 n1 AgentOrchestrator.__init__)
    as Hd1.
  destruct (deploy_fleet_members agent_type cfg1 now1 n1 0 AgentOrchestrator.__init__)
    as (_ & Hp1).
  destruct (deploy_fleet_registry agent_type cfg1 now1 n1 0 AgentOrchestrator.__init__)
    as (_ & _ & _ & _ & Ho1).
  cbn zeta in *.
  generalize dependent
    (foldl (AgentOrchestrator.deploy_fleet_member agent_type cfg1 now1)
       AgentOrchestrator.__init__ (seq 0 n1)).
  intros t1 Hd1 Hp1 Ho1.
  pose proof (deploy_fleet_dom agent_type cfg2 now2 n2 t1) as Hd2.
  destruct (deploy_fleet_members agent_type cfg2 now2 n2 0 t1) as (_ & Hp2).
  destruct (deploy_fleet_registry agent_type cfg2 now2 n2 0 t1)
    as (_ & _ & _ & _ & Ho2).
  cbn zeta in *.
  generalize dependent
    (foldl (AgentOrchestrator.deploy_fleet_member agent_type cfg2 now2)
       t1 (seq 0 n2)).
  intros t2 Hd2 Hp2 Ho2.
  cbn [AgentOrchestrator.agents AgentOrchestrator.agent_pools
       AgentOrchestrator.objects AgentOrchestrator.__init__] in Hd1, Hp1.
  rewrite lookup_empty in Hp1. cbn [default app length] in Hp1.
  rewrite dom_empty_L, (left_id_L ∅ (∪)) in Hd1.
  rewrite Hd1, fleet_ids_union in Hd2.
  split; [|split; [|split; [|split]]].
  - by rewrite <- size_dom, Hd1, fleet_ids_size.
  - by rewrite Hp1, length_seq.
  - by rewrite <- size_dom, Hd2, fleet_ids_size.
  - by rewrite Hp2, Hp1, length_app, !length_seq.
  - intros other Hne. rewrite lookup_fmap, Ho2, Ho1 by done. done.
Qed.

End fleet_status.

(** ** Shutting down all agents *)

Section shutdown.
Context (isoformat : datetime → string).

Lemma shutdown_effect (r : nat) (now : datetime) (s : AgentOrchestrator.t) :
  let s' := AgentOrchestrator.shutdown isoformat r now s in
  AgentOrchestrator.objects s'
  = alter (set_is_running false) r (AgentOrchestrator.objects s)
  ∧ AgentOrchestrator.agents s' = AgentOrchestrator.agents s
  ∧ AgentOrchestrator.agent_pools s' = AgentOrchestrator.agent_pools s
  ∧ AgentOrchestrator.loop_tasks s' = AgentOrchestrator.loop_tasks s
  ∧ (∀ path, is_Some (AgentOrchestrator.files s !! path) →
       is_Some (AgentOrchestrator.files s' !! path))
  ∧ (∀ a, AgentOrchestrator.objects s !! r = Some a →
       is_Some (AgentOrchestrator.files s' !! state_file (agent_id a))).
Proof.
  unfold AgentOrchestrator.shutdown.
  destruct (AgentOrchestrator.objects s !! r) as [a|] eqn:Hr.
  - cbn [AgentOrchestrator.objects AgentOrchestrator.agents
         AgentOrchestrator.agent_pools AgentOrchestrator.loop_tasks
         AgentOrchestrator.files AgentOrchestrator.set_files
         AgentOrchestrator.set_objects agent_id set_is_running].
    fold (state_file (agent_id a)).
    split; [|split; [done|split; [done|split; [done|split]]]].
    + apply list_eq. intros i. rewrite list_lookup_alter.
      destruct (decide (r = i)) as [<-|Hne].
      * rewrite list_lookup_insert_eq by by eapply lookup_lt_Some.
        by rewrite Hr.
      * by rewrite list_lookup_insert_ne.
    + intros path Hp.
      destruct (decide (state_file (agent_id a) = path)) as [<-|Hne].
      * by rewrite lookup_insert_eq.
      * by rewrite lookup_insert_ne.
    + intros a' [= <-]. by rewrite lookup_insert_eq.
  - split; [|done].
    apply list_eq. intros i. rewrite list_lookup_alter.
    destruct (decide (r = i)) as [<-|Hne]; [|done]. by rewrite Hr.
Qed.

Lemma shutdown_each_effect (now : nat → datetime) (refs : list nat) :
  ∀ (k : nat) (s : AgentOrchestrator.t),
    let s' := AgentOrchestrator.shutdown_each isoformat now k refs s in
    (∀ r, AgentOrchestrator.objects s' !! r
          = if decide (r ∈ refs)
            then set_is_running false <$> AgentOrchestrator.objects s !! r
            else AgentOrchestrator.objects s !! r)
    ∧ AgentOrchestrator.loop_tasks s' = AgentOrchestrator.loop_tasks s
    ∧ (∀ path, is_Some (AgentOrchestrator.files s !! path) →
         is_Some (AgentOrchestrator.files s' !! path))
    ∧ (∀ r a, r ∈ refs → AgentOrchestrator.objects s !! r = Some a →
         is_Some (AgentOrchestrator.files s' !! state_file (agent_id a))).
Proof.
  induction refs as [|r0 refs IH]; intros k s;
    cbn [AgentOrchestrator.shutdown_each]; cbn zeta.
  { split; [|split; [done|split; [done|]]].
    - intros r. rewrite decide_False by apply not_elem_of_nil. done.
    - intros r a Hin. by apply not_elem_of_nil in Hin. }
  destruct (shutdown_effect r0 (now k) s) as (Ho & _ & _ & Hl & Hf & Hnew).
  destruct (IH (S k) (AgentOrchestrator.shutdown isoformat r0 (now k) s))
    as (Ho' & Hl' & Hf' & Hnew').
  cbn zeta in *.
  split; [|split; [congruence|split]].
  - intros r. rewrite Ho', Ho, list_lookup_alter.
    destruct (decide (r0 = r)) as [->|Hne].
    + rewrite (decide_True (P := r ∈ r :: refs)) by apply list_elem_of_here.
      destruct (decide (r ∈ refs)); [|done].
      by destruct (AgentOrchestrator.objects s !! r).
    + destruct (decide (r ∈ refs)) as [Hin|Hin].
      * rewrite decide_True by by apply list_elem_of_further. done.
      * rewrite decide_False; [done|]. intros [?|?]%elem_of_cons; done.
  - intros path Hp. by apply Hf', Hf.
  - intros r a [->|Hin]%elem_of_cons Hr.
    + by apply Hf', Hnew.
    + destruct (decide (r0 = r)) as [->|Hne].
      * by apply Hf', Hnew.
      * apply (Hnew' r a Hin). by rewrite Ho, list_lookup_alter_ne.
Qed.

Lemma elem_of_registered (s : AgentOrchestrator.t) (r : nat) :
  r ∈ AgentOrchestrator.registered s
  ↔ ∃ aid, AgentOrchestrator.agents s !! aid = Some r.
Proof.
  unfold AgentOrchestrator.registered. rewrite list_elem_of_fmap. split.
  - intros ([aid j] & -> & Hin). exists aid. by apply elem_of_map_to_list.
  - intros (aid & Hin). exists (aid, r). split; [done|].
    by apply elem_of_map_to_list.
Qed.


(** The scale-down loop run beyond the agents that the pool holds: when
    all of them, [pool], have pairwise different registered identifiers,
    they are removed, and the next turn pops from the empty pool. *)
Lemma scale_down_beyond (agent_type : string) (now : datetime)
    (extra : nat) (pool : list nat) :
  ∀ (s : AgentOrchestrator.t) (ids : list string),
    AgentOrchestrator.agent_pools s !! agent_type = Some pool →
    Forall2 (λ r aid, ident_of s r = Some aid) pool ids →
    NoDup ids →
    Forall (λ aid, is_Some (AgentOrchestrator.agents s !! aid)) ids →
    ∃ s',
      AgentOrchestrator.scale_down isoformat (length pool + S extra)
        agent_type now s
      = Raised IndexError s'
      ∧ AgentOrchestrator.agent_pools s' !! agent_type = Some []
      ∧ AgentOrchestrator.agents s'
        = foldr delete (AgentOrchestrator.agents s) ids
      ∧ (∀ r, r ∈ pool →
           is_running <$> AgentOrchestrator.objects s' !! r = Some false)
      ∧ (∀ r, r ∉ pool →
           AgentOrchestrator.objects s' !! r
           = AgentOrchestrator.objects s !! r)
      ∧ (∀ r, ident_of s' r = ident_of s r).
Proof.
  induction pool as [|r pool IH] using rev_ind;
    intros s ids Hpool Hids Hnodup Hreg.
  { apply Forall2_nil_inv_l in Hids as ->. exists s.
    cbn [length Nat.add AgentOrchestrator.scale_down foldr].
    rewrite Hpool, pop_nil. split_and!; try done.
    intros r Hr. by apply elem_of_nil in Hr. }
  apply Forall2_app_inv_l in Hids as (ids' & ids1 & Hids' & Hid1 & ->).
  apply Forall2_cons_inv_l in Hid1 as (aid & ? & Haid & Hnil & ->).
  apply Forall2_nil_inv_l in Hnil as ->.
  apply NoDup_app in Hnodup as (Hnodup' & Hfresh & _).
  apply Forall_app in Hreg as [Hreg' Hreg1].
  apply Forall_singleton in Hreg1 as [r0 Hr0].
  unfold ident_of in Haid.
  destruct (AgentOrchestrator.objects s !! r) as [a|] eqn:Ha; [|done].
  injection Haid as Haid.
  rewrite length_app, Nat.add_1_r.
  change (S (length pool) + S extra)%nat with (S (length pool + S extra)).
  rewrite (scale_down_step isoformat _ _ _ s pool r r0 a)
    by (by rewrite ?Haid).
  set (s1 := AgentOrchestrator.set_agent_pools _ s).
  destruct (shutdown_object isoformat r now s1 a Ha) as (Ho & Hag & Hp).
  change (AgentOrchestrator.objects s1) with (AgentOrchestrator.objects s)
    in Ho.
  change (AgentOrchestrator.agents s1) with (AgentOrchestrator.agents s)
    in Hag.
  change (AgentOrchestrator.agent_pools s1)
    with (<[ agent_type := pool ]> (AgentOrchestrator.agent_pools s)) in Hp.
  rewrite Haid.
  set (s3 := AgentOrchestrator.set_agents _ _).
  assert (Hobj3 : AgentOrchestrator.objects s3
                  = <[ r := set_is_running false a ]>
                      (AgentOrchestrator.objects s)) by exact Ho.
  assert (Hag3 : AgentOrchestrator.agents s3
                 = delete aid (AgentOrchestrator.agents s)) by done.
  assert (Hp3 : AgentOrchestrator.agent_pools s3
                = <[ agent_type := pool ]>
                    (AgentOrchestrator.agent_pools s)) by exact Hp.
  assert (Hlt : (r < length (AgentOrchestrator.objects s))%nat)
    by (by eapply lookup_lt_Some).
  clearbody s3. clear s1 Ho Hag Hp.
  assert (Hident3 : ∀ r', ident_of s3 r' = ident_of s r').
  { intros r'. unfold ident_of. rewrite Hobj3.
    destruct (decide (r' = r)) as [->|Hne].
    - by rewrite list_lookup_insert_eq, Ha.
    - by rewrite list_lookup_insert_ne. }
  destruct (IH s3 ids') as (s' & Hrun & Hpool' & Hagents' & Hdown & Hsame & Hid').
  - by rewrite Hp3, lookup_insert_eq.
  - eapply Forall2_impl; [exact Hids'|]. intros r' i' Hi'. by rewrite Hident3.
  - done.
  - eapply Forall_impl; [|].
    + apply Forall_forall. intros i' Hi'.
      rewrite Forall_forall in Hreg'. exact (conj Hi' (Hreg' i' Hi')).
    + intros i' [Hi' Hsome]. cbn. rewrite Hag3.
      rewrite lookup_delete_ne; [done|].
      intros Heq. apply (Hfresh i'); [done|].
      rewrite Heq. apply list_elem_of_here.
  - exists s'. split; [exact Hrun|]. split_and!.
    + done.
    + by rewrite Hagents', Hag3, foldr_app.
    + intros r' Hr'. apply elem_of_app in Hr' as [Hr'|Hr'].
      * by apply Hdown.
      * apply list_elem_of_singleton in Hr' as ->.
        destruct (decide (r ∈ pool)) as [Hin|Hin]; [by apply Hdown|].
        rewrite Hsame, Hobj3, list_lookup_insert_eq by done. done.
    + intros r' Hr'. rewrite not_elem_of_app, list_elem_of_singleton in Hr'.
      destruct Hr' as [Hr1 Hr2].
      by rewrite Hsame, Hobj3, list_lookup_insert_ne.
    + intros r'. by rewrite Hid', Hident3.
Qed.

(** [scale_fleet] with a negative target.  For a type without pool it
    raises [KeyError] and changes nothing.  For a pool whose agents have
    pairwise different identifiers, all of them registered, it removes
    every agent of the pool, as a target of 0 does, and then raises
    [IndexError] at the [pop] from the empty pool. *)
Theorem scale_fleet_below_zero (agent_type : string) (target_count : Z)
    (now : datetime) (s : AgentOrchestrator.t) :
  target_count < 0 →
  (AgentOrchestrator.agent_pools s !! agent_type = None →
     AgentOrchestrator.scale_fleet isoformat agent_type target_count now s
     = Raised (KeyError agent_type) s)
  ∧ (∀ pool ids,
       AgentOrchestrator.agent_pools s !! agent_type = Some pool →
       Forall2 (λ r aid, ident_of s r = Some aid) pool ids →
       NoDup ids →
       Forall (λ aid, is_Some (AgentOrchestrator.agents s !! aid)) ids →
       ∃ s',
         AgentOrchestrator.scale_fleet isoformat agent_type target_count now s
         = Raised IndexError s'
         ∧ AgentOrchestrator.agent_pools s' !! agent_type = Some []
         ∧ AgentOrchestrator.agents s'
           = foldr delete (AgentOrchestrator.agents s) ids
         ∧ (∀ r, r ∈ pool →
              is_running <$> AgentOrchestrator.objects s' !! r = Some false)
         ∧ (∀ r, r ∉ pool →
              AgentOrchestrator.objects s' !! r
              = AgentOrchestrator.objects s !! r)).
Proof.
  intros Hneg. unfold AgentOrchestrator.scale_fleet. split.
  - intros Hnone. rewrite Hnone. cbn [default length].
    rewrite (proj2 (Z.ltb_ge _ _)) by lia.
    rewrite (proj2 (Z.ltb_lt _ _)) by lia.
    destruct (Z.to_nat (Z.of_nat 0 - target_count)) as [|n] eqn:Hn; [lia|].
    cbn [AgentOrchestrator.scale_down]. by rewrite Hnone.
  - intros pool ids Hpool Hids Hnodup Hreg. rewrite Hpool.
    change (default [] (Some pool)) with pool.
    rewrite (proj2 (Z.ltb_ge _ _)) by lia.
    rewrite (proj2 (Z.ltb_lt _ _)) by lia.
    replace (Z.to_nat (Z.of_nat (length pool) - target_count))
      with (length pool + S (Z.to_nat (- target_count) - 1))%nat by lia.
    destruct (scale_down_beyond agent_type now
                (Z.to_nat (- target_count) - 1) pool s ids Hpool Hids Hnodup
                Hreg)
      as (s' & Hrun & Hp & Hag & Hdown & Hsame & _).
    by exists s'.
Qed.

End shutdown.

(** ** Deploying an agent twice *)

Lemma deploy_agent_fields (r : nat) (cfg : gmap string Qc) (now : datetime)
    (s : AgentOrchestrator.t) (a : AutonomousAgent.t) :
  AgentOrchestrator.objects s !! r = Some a →
  let s' := AgentOrchestrator.deploy_agent r cfg now s in
  AgentOrchestrator.objects s'
  = <[ r := initialize a cfg now ]> (AgentOrchestrator.objects s)
  ∧ AgentOrchestrator.agents s'
    = <[ agent_id a := r ]> (AgentOrchestrator.agents s)
  ∧ AgentOrchestrator.agent_pools s'
    = <[ agent_type a
         := default [] (AgentOrchestrator.agent_pools s !! agent_type a)
            ++ [r] ]> (AgentOrchestrator.agent_pools s)
  ∧ AgentOrchestrator.loop_tasks s' = AgentOrchestrator.loop_tasks s ++ [r]
  ∧ AgentOrchestrator.files s' = AgentOrchestrator.files s.
Proof.
  intros Hr. cbn zeta. unfold AgentOrchestrator.deploy_agent. by rewrite Hr.
Qed.

(** Deploying an agent object that is deployed already: the registry
    keeps its one entry for the identifier, the pool of the type holds the
    agent once more at each deployment, a loop is started at each, and the
    agent is initialised again. *)
Theorem deploy_agent_again (r : nat) (cfg cfg' : gmap string Qc)
    (now now' : datetime) (s : AgentOrchestrator.t) (a : AutonomousAgent.t) :
  AgentOrchestrator.objects s !! r = Some a →
  let s1 := AgentOrchestrator.deploy_agent r cfg now s in
  let s2 := AgentOrchestrator.deploy_agent r cfg' now' s1 in
  let pool (s : AgentOrchestrator.t) :=
    default [] (AgentOrchestrator.agent_pools s !! agent_type a) in
  AgentOrchestrator.agents s1
  = <[ agent_id a := r ]> (AgentOrchestrator.agents s)
  ∧ pool s1 = pool s ++ [r]
  ∧ AgentOrchestrator.agents s2 = AgentOrchestrator.agents s1
  ∧ pool s2 = pool s ++ [r; r]
  ∧ AgentOrchestrator.loop_tasks s2
    = AgentOrchestrator.loop_tasks s ++ [r; r]
  ∧ AgentOrchestrator.objects s2 !! r
    = Some (initialize (initialize a cfg now) cfg' now').
Proof.
  intros Hr. pose proof (lookup_lt_Some _ _ _ Hr) as Hlt. cbn zeta.
  destruct (deploy_agent_fields r cfg now s a Hr) as (Ho & Hag & Hp & Hl & _).
  cbn zeta in *.
  generalize dependent (AgentOrchestrator.deploy_agent r cfg now s).
  intros s1 Ho Hag Hp Hl.
  assert (Hr1 : AgentOrchestrator.objects s1 !! r
                = Some (initialize a cfg now))
    by (by rewrite Ho, list_lookup_insert_eq).
  destruct (deploy_agent_fields r cfg' now' s1 _ Hr1)
    as (Ho' & Hag' & Hp' & Hl' & _).
  cbn zeta in *.
  generalize dependent (AgentOrchestrator.deploy_agent r cfg' now' s1).
  intros s2 Ho' Hag' Hp' Hl'.
  change (agent_id (initialize a cfg now)) with (agent_id a) in *.
  change (agent_type (initialize a cfg now)) with (agent_type a) in *.
  split_and!.
  - done.
  - by rewrite Hp, lookup_insert_eq.
  - rewrite Hag', Hag. by rewrite insert_insert_eq.
  - rewrite Hp', Hp, !lookup_insert_eq. cbv [default from_option id].
    by rewrite <- app_assoc.
  - by rewrite Hl', Hl, <- app_assoc.
  - rewrite Ho', list_lookup_insert_eq; [done|].
    by rewrite Ho, length_insert.
Qed.

(** ** The loop and the fleet on concrete agents *)

(** The theorem at [working_agent], after five turns of its loop. *)
Lemma run_never_adds_tasks_witness :
  [working_agent] !! 0%nat = Some working_agent
  ∧ ∃ a',
      @run base_handler seconds_isoformat class_name (λ _, decimal)
        (λ _, still_clock) 0 5 [working_agent] !! 0%nat
      = Some a'
      ∧ goals a' = [wellbeing_goal]
      ∧ is_running a' = true.
Proof.
  assert (Hr : [working_agent] !! 0%nat = Some working_agent) by reflexivity.
  split; [exact Hr|].
  destruct (@run_never_adds_tasks base_handler seconds_isoformat class_name
              (λ _, decimal) (λ _, still_clock) 0 5 [working_agent]
              working_agent Hr)
    as (a' & Hrun & Hg & _ & _ & Hrunning).
  exists a'. split; [exact Hrun|]. split; [exact Hg|exact Hrunning].
Defined.

(** The theorem at [waiting_agent], whose goal is not completed: five
    turns of its loop leave it without tasks. *)
Lemma run_without_tasks_is_idle_witness :
  [waiting_agent] !! 0%nat = Some waiting_agent
  ∧ task_queue waiting_agent = []
  ∧ goals waiting_agent = [improvement_goal]
  ∧ ∃ a',
      @run base_handler seconds_isoformat class_name (λ _, decimal)
        (λ _, still_clock) 0 5 [waiting_agent] !! 0%nat
      = Some a'
      ∧ task_queue a' = []
      ∧ completed_tasks a' = []
      ∧ goals a' = [improvement_goal].
Proof.
  assert (Hr : [waiting_agent] !! 0%nat = Some waiting_agent) by reflexivity.
  assert (Hq : task_queue waiting_agent = []) by reflexivity.
  split; [exact Hr|]. split; [exact Hq|]. split; [reflexivity|].
  destruct (@run_without_tasks_is_idle base_handler seconds_isoformat
              class_name (λ _, decimal) (λ _, still_clock) 0 5
              [waiting_agent] waiting_agent Hr Hq)
    as (a' & Hrun & Hq' & Hc & Hg & _).
  exists a'. split; [exact Hrun|]. split; [exact Hq'|].
  split; [exact Hc|exact Hg].
Defined.

(** The theorem at [working_agent] eight days after its last human
    interaction, its limit being 7 days: after five turns it is paused,
    its three tasks still in the queue. *)
Lemma run_pause_is_final_witness :
  [working_agent] !! 0%nat = Some working_agent
  ∧ max_autonomous_days working_agent = Some (whole 7)
  ∧ 7 * 86400000000 < eight_days_on - last_human_interaction working_agent
  ∧ ∃ a',
      @run base_handler seconds_isoformat class_name (λ _, decimal)
        (λ _, late_clock) 0 5 [working_agent] !! 0%nat
      = Some a'
      ∧ state a' = PAUSED
      ∧ length (task_queue a') = 3%nat
      ∧ completed_tasks a' = [].
Proof.
  assert (Hr : [working_agent] !! 0%nat = Some working_agent) by reflexivity.
  assert (Hd : max_autonomous_days working_agent = Some (whole 7))
    by (cbn; f_equal; by apply Qc_is_canon).
  assert (Hlate : 7 * 86400000000
                  < eight_days_on - last_human_interaction working_agent)
    by (by vm_compute).
  split; [exact Hr|]. split; [exact Hd|]. split; [exact Hlate|].
  destruct (@run_pause_is_final base_handler seconds_isoformat class_name
              (λ _, decimal) (λ _, late_clock) 0 4 [working_agent]
              working_agent 7 Hr Hd)
    as (a' & Hrun & Hs & Hq & Hc & _).
  - lia.
  - right. exact Hlate.
  - by vm_compute.
  - by left.
  - exists a'. split; [exact Hrun|]. split; [exact Hs|].
    split; [by rewrite Hq|exact Hc].
Defined.

(** The theorem at [undeployed_agent], which was not initialised: two
    turns of its loop recover from two errors and clear its queue. *)
Lemma run_without_limit_only_recovers_witness :
  [undeployed_agent] !! 0%nat = Some undeployed_agent
  ∧ without_limit undeployed_agent
  ∧ length (task_queue undeployed_agent) = 3%nat
  ∧ ∃ a',
      @run base_handler seconds_isoformat class_name (λ _, decimal)
        (λ _, still_clock) 0 2 [undeployed_agent] !! 0%nat
      = Some a'
      ∧ errors_recovered (metrics a') = 2
      ∧ state a' = IDLE
      ∧ task_queue a' = []
      ∧ completed_tasks a' = [].
Proof.
  assert (Hr : [undeployed_agent] !! 0%nat = Some undeployed_agent)
    by reflexivity.
  assert (Hl : without_limit undeployed_agent) by (by left).
  split; [exact Hr|]. split; [exact Hl|]. split; [reflexivity|].
  destruct (@run_without_limit_only_recovers base_handler seconds_isoformat
              class_name (λ _, decimal) (λ _, still_clock) 0 2
              [undeployed_agent] undeployed_agent Hr Hl)
    as (a' & Hrun & He & Hs & Hc & _).
  destruct Hs as [Hs Hq]; [lia|].
  exists a'. split; [exact Hrun|]. split; [exact He|].
  split; [exact Hs|]. split; [exact Hq|exact Hc].
Defined.


(** The theorem at [teaching_agent] and its collaborator [idle_agent]:
    the collaborator gets the success rate. *)
Lemma collaborate_with_agents_shares_witness :
  [teaching_agent; idle_agent] !! 0%nat = Some teaching_agent
  ∧ as_number (shared_rate teaching_agent) = Some (num 1 1)
  ∧ (num 9 10 < num 1 1)%Qc
  ∧ ∃ objects',
      collaborate_with_agents 0 [teaching_agent; idle_agent]
      = Returned objects'
      ∧ learning_memory <$> objects' !! 1%nat
        = Some {[ "success_rate" := VAtom (ANum (num 1 1)) ]}.
Proof.
  assert (Hr : [teaching_agent; idle_agent] !! 0%nat = Some teaching_agent)
    by reflexivity.
  assert (Hq : as_number (shared_rate teaching_agent) = Some (num 1 1))
    by reflexivity.
  assert (Hlt : (num 9 10 < num 1 1)%Qc) by reflexivity.
  split; [exact Hr|]. split; [exact Hq|]. split; [exact Hlt|].
  destruct (collaborate_with_agents_shares 0 [teaching_agent; idle_agent]
              teaching_agent Hr)
    as (_ & _ & _ & Hshare).
  destruct (Hshare (num 1 1) Hq Hlt) as (objects' & Hrun & _ & _ & Hin & _).
  exists objects'. split; [exact Hrun|].
  rewrite (Hin "nias_002" 1%nat) by reflexivity.
  cbn [lookup list_lookup fmap option_fmap option_map learning_memory
       set_learning_memory teaching_agent].
  f_equal; apply (left_id_L ∅ (∪)).
Defined.

(** Scaling [fleet_of_three] to -1: the three agents are removed, and
    the call raises. *)
Lemma scale_fleet_below_zero_witness :
  -1 < 0
  ∧ AgentOrchestrator.scale_fleet seconds_isoformat "y" (-1) datetime_min
      fleet_of_three
    = Raised (KeyError "y") fleet_of_three
  ∧ ∃ s',
      AgentOrchestrator.scale_fleet seconds_isoformat "x" (-1) datetime_min
        fleet_of_three
      = Raised IndexError s'
      ∧ AgentOrchestrator.agent_pools s' !! "x" = Some []
      ∧ AgentOrchestrator.agents s' = ∅.
Proof.
  assert (Hneg : -1 < 0) by lia.
  split; [exact Hneg|].
  destruct (scale_fleet_below_zero seconds_isoformat "x" (-1) datetime_min
              fleet_of_three Hneg)
    as [_ Hpool].
  destruct (scale_fleet_below_zero seconds_isoformat "y" (-1) datetime_min
              fleet_of_three Hneg)
    as [Hnone _].
  split; [by apply Hnone|].
  destruct (Hpool [0; 1; 2]%nat ["x_000"; "x_001"; "x_002"])
    as (s' & Hrun & Hp & Hagents & _).
  - reflexivity.
  - repeat constructor.
  - apply (bool_decide_unpack _). reflexivity.
  - repeat constructor; by eexists.
  - exists s'. split; [exact Hrun|]. split; [exact Hp|].
    rewrite Hagents. vm_compute. reflexivity.
Defined.

(** The first agent of [fleet_of_three], deployed twice more. *)
Lemma deploy_agent_again_witness :
  AgentOrchestrator.objects fleet_of_three !! 0%nat
  = Some (fleet_member "x" ∅ datetime_min 0)
  ∧ let s2 :=
      AgentOrchestrator.deploy_agent 0 ∅ datetime_min
        (AgentOrchestrator.deploy_agent 0 ∅ datetime_min fleet_of_three) in
    default [] (AgentOrchestrator.agent_pools s2 !! "x") = [0; 1; 2; 0; 0]%nat
    ∧ AgentOrchestrator.loop_tasks s2 = [0; 1; 2; 0; 0]%nat
    ∧ size (AgentOrchestrator.agents s2) = 3%nat.
Proof.
  assert (Hr : AgentOrchestrator.objects fleet_of_three !! 0%nat
               = Some (fleet_member "x" ∅ datetime_min 0)) by reflexivity.
  split; [exact Hr|].
  destruct (deploy_agent_again 0 ∅ ∅ datetime_min datetime_min fleet_of_three
              (fleet_member "x" ∅ datetime_min 0) Hr)
    as (Hag & _ & Hag2 & Hp & Hl & _).
  cbn zeta. split; [|split].
  - exact Hp.
  - exact Hl.
  - rewrite Hag2, Hag. by vm_compute.
Defined.
